(** * The retrieval-augmented answering pipeline of radix-scrypto-llm

    A shallow embedding of [rag_system_openrouter.py]
    (class [RadixRAGSystemOpenRouter]) and the properties its specification
    states about it.

    Conventions of the embedding.
    - A Python [str] is the [string] of the bytes of its UTF-8 encoding, the
      encoding the knowledge base is read in. Concatenation, comparison and
      substring search are the same on the bytes as on the code points;
      [len] and the slice [s[:n]] count code points and are [py_len] and
      [py_take n s]; the white space [strip] removes is that of
      [str.isspace], one to three bytes for each code point.
    - A Python [dict] with string keys is a [gmap string _]; [d.get(k, v)] is
      [default v (d !! k)].
    - The process environment, the file system and the calls made to the
      embedding function and to the completion endpoint form the [World];
      methods are computations in the state-and-exception monad [M].
    - [print] calls are console output only and are left out.
    - The third-party operations the class calls (directory loader, text
      splitter, similarity search, chat completion) are the fields of the
      class [Libraries]. *)

From Stdlib Require Import ZArith List String Ascii Bool Lia.
From stdpp Require Import base option list sorting gmap strings.

Local Open Scope Z_scope.
Local Open Scope nat_scope.

(** ** Python strings *)

Module PyStr.

(** The first [n] bytes of [s], and what follows them. *)
Fixpoint str_take (n : nat) (s : string) : string :=
  match n, s with
  | S n', String c s' => String c (str_take n' s')
  | _, _ => EmptyString
  end.

Fixpoint str_drop (n : nat) (s : string) : string :=
  match n, s with
  | S n', String _ s' => str_drop n' s'
  | _, _ => s
  end.

Global Arguments str_take : simpl nomatch.
Global Arguments str_drop : simpl nomatch.

(** A byte that continues a code point in UTF-8: [10xxxxxx]. Every other
    byte begins one. *)
Definition is_continuation (c : ascii) : bool :=
  let n := nat_of_ascii c in (128 <=? n) && (n <? 192).

(** [len(s)]: the number of code points. *)
Fixpoint py_len (s : string) : nat :=
  match s with
  | EmptyString => 0
  | String c s' => (if is_continuation c then 0 else 1) + py_len s'
  end.

(** [s[:n]]: the first [n] code points, each with all of its bytes. *)
Fixpoint py_take (n : nat) (s : string) : string :=
  match s with
  | EmptyString => EmptyString
  | String c s' =>
      if is_continuation c then String c (py_take n s')
      else match n with
           | 0 => EmptyString
           | S n' => String c (py_take n' s')
           end
  end.

(** A string that does not begin in the middle of a code point. *)
Definition at_boundary (s : string) : Prop :=
  match s with
  | EmptyString => True
  | String c _ => is_continuation c = false
  end.

(** [c.lower()] on the ASCII letters. The bytes of the other characters
    are left as they are: the code compares lower-cased text with ASCII
    words only, and the two characters outside ASCII whose lower case
    holds an ASCII letter (U+0130 gives [i] and a combining dot, U+212A
    gives [k]) make none of these comparisons succeed. *)
Definition lower_ascii (c : ascii) : ascii :=
  let n := nat_of_ascii c in
  if (65 <=? n) && (n <=? 90) then ascii_of_nat (n + 32) else c.

(** [s.lower()] *)
Fixpoint lower (s : string) : string :=
  match s with
  | EmptyString => EmptyString
  | String c s' => String (lower_ascii c) (lower s')
  end.

(** [s.startswith(p)] *)
Fixpoint startswith (p s : string) : bool :=
  match p, s with
  | EmptyString, _ => true
  | String a p', String b s' => bool_decide (a = b) && startswith p' s'
  | String _ _, EmptyString => false
  end.

(** [needle in hay] *)
Fixpoint contains (needle hay : string) : bool :=
  startswith needle hay ||
  match hay with
  | EmptyString => false
  | String _ hay' => contains needle hay'
  end.

(** [s.endswith(p)] *)
Definition endswith (p s : string) : bool :=
  bool_decide (str_drop (String.length s - String.length p) s = p).

(** [s.split(sep)] for a one-character separator: the pieces between the
    separators, empty pieces included. [cur] is the piece being read,
    reversed. *)
Fixpoint split_go (sep : ascii) (cur : string) (s : string) : list string :=
  match s with
  | EmptyString => [String.rev cur]
  | String c s' =>
      if bool_decide (c = sep) then String.rev cur :: split_go sep EmptyString s'
      else split_go sep (String c cur) s'
  end.
Definition split (sep : ascii) (s : string) : list string :=
  split_go sep EmptyString s.

(** [sep.join(l)] *)
Fixpoint join (sep : string) (l : list string) : string :=
  match l with
  | [] => EmptyString
  | [x] => x
  | x :: l' => x +:+ sep +:+ join sep l'
  end.

(** [''.join(l)] *)
Definition concat_all (l : list string) : string :=
  foldr String.append EmptyString l.

(** [s.rfind(c)]: the index of the last occurrence of [c], if any. *)
Fixpoint rfind (c : ascii) (s : string) : option nat :=
  match s with
  | EmptyString => None
  | String a s' =>
      match rfind c s' with
      | Some i => Some (S i)
      | None => if bool_decide (a = c) then Some 0 else None
      end
  end.

End PyStr.
Export PyStr.

(** ** pathlib *)

Module Path.

(** The components of a POSIX path: empty and [.] components are dropped
    when the path is parsed. *)
Definition parts (p : string) : list string :=
  filter (λ c, c ≠ "" ∧ c ≠ ".") (split "/"%char p).

Definition anchored (p : string) : bool := startswith "/" p.

(** [str(Path(p))] *)
Definition str (p : string) : string :=
  match parts p, anchored p with
  | [], false => "."
  | ps, true => "/" +:+ join "/" ps
  | ps, false => join "/" ps
  end.

(** [Path(p).name] *)
Definition name (p : string) : string := List.last (parts p) "".

(** [Path(p).suffix]: from the last dot of the name, unless that dot is
    the first or the last character of the name. *)
Definition suffix (p : string) : string :=
  let n := name p in
  match rfind "."%char n with
  | Some i => if (0 <? i) && (i <? String.length n - 1) then str_drop i n else ""
  | None => ""
  end.

(** [Path(p).parent.name] *)
Definition parent_name (p : string) : string :=
  List.last (removelast (parts p)) "".

End Path.

(** ** Data model *)

(** [langchain.schema.Document] *)
Record Document := mkDocument {
  page_content : string;
  metadata : gmap string string
}.

Global Instance Document_eq_dec : EqDecision Document.
Proof. solve_decision. Defined.

(** The exceptions the pipeline raises or lets through. *)
Inductive exn :=
| FileNotFoundError (msg : string)
| RuntimeError (msg : string)
| KeyError (key : string)
| SystemExit (code : Z)
| AttributeError (msg : string)
| Exception (msg : string).

Global Instance exn_eq_dec : EqDecision exn.
Proof. solve_decision. Defined.

(** What a path of the file system holds: a plain directory with the text
    files below it (path and content), or a persisted Chroma collection. *)
Inductive node :=
| Directory (files : list (string * string))
| ChromaStore (records : list Document).

(** Calls that leave the process, in the order they are made. *)
Inductive event :=
| EvOpenStore (dir : string)
| EvEmbed (text : string)
| EvPersist (dir : string)
| EvCompletion (model prompt : string).

Global Instance event_eq_dec : EqDecision event.
Proof. solve_decision. Defined.

Record World := mkWorld {
  environ : gmap string string;
  fs : gmap string node;
  trace : list event
}.

(** ** The state-and-exception monad *)

Definition M (A : Type) : Type := World → (exn + A) * World.

Definition ret {A} (a : A) : M A := λ w, (inr a, w).
Definition raise {A} (e : exn) : M A := λ w, (inl e, w).
Definition bind {A B} (m : M A) (k : A → M B) : M B :=
  λ w, match m w with
       | (inl e, w') => (inl e, w')
       | (inr a, w') => k a w'
       end.
Definition get_world : M World := λ w, (inr w, w).
Definition emit (e : event) : M unit :=
  λ w, (inr tt, mkWorld (environ w) (fs w) (trace w ++ [e])).
Definition write_node (p : string) (n : node) : M unit :=
  λ w, (inr tt, mkWorld (environ w) (<[p := n]> (fs w)) (trace w)).

(** [except Exception] catches every exception but [SystemExit]. *)
Definition is_Exception (e : exn) : bool :=
  match e with SystemExit _ => false | _ => true end.
Definition try_except {A} (m : M A) (handler : exn → M A) : M A :=
  λ w, match m w with
       | (inl e, w') => if is_Exception e then handler e w' else (inl e, w')
       | r => r
       end.

(** Computations that leave the world as it is. *)
Definition read_only {A} (m : M A) : Prop := ∀ w, (m w).2 = w.

Declare Scope py_scope.
Delimit Scope py_scope with py.
Notation "x <- c ;; k" := (bind c (λ x, k))
  (at level 100, c at next level, right associativity) : py_scope.
Notation "c ;;; k" := (bind c (λ _, k))
  (at level 100, right associativity) : py_scope.
Local Open Scope py_scope.

(** [for x in l: body x] *)
Fixpoint for_each {A} (l : list A) (body : A → M unit) : M unit :=
  match l with
  | [] => ret tt
  | x :: l' => body x ;;; for_each l' body
  end.

(** [os.getenv(k)] and the truth value of its result: [None] and the empty
    string are false. *)
Definition getenv (k : string) : M (option string) :=
  λ w, (inr (environ w !! k), w).
Definition truthy (v : option string) : bool :=
  match v with
  | Some s => negb (bool_decide (s = ""))
  | None => false
  end.

(** [os.path.exists(p)], [Path(p).exists()] *)
Definition path_exists (p : string) : M bool :=
  λ w, (inr (bool_decide (is_Some (fs w !! p))), w).

(** ** Third-party operations *)

(** A Chroma vector store: the records of its collection and the directory
    it persists to. *)
Record VectorStore := mkVectorStore {
  collection : list Document;
  persist_directory : string
}.

(** What calling a [RetrievalQA] chain returns: the keys [result] and
    [source_documents] of its output. *)
Record ChainResult := mkChainResult {
  result : string;
  source_documents : list Document
}.

(** The library calls whose code is outside the repository.
    - [DirectoryLoader_load w path glob]: [DirectoryLoader(path, glob=glob,
      loader_cls=TextLoader, ...).load()] in world [w];
    - [split_documents chunk_size chunk_overlap separators docs]:
      [RecursiveCharacterTextSplitter(...).split_documents(docs)];
    - [similarity_search records query k]: the retriever's search, the [k]
      records most similar to [query];
    - [ChatOpenAI_call model key prompt]: one completion request. *)
Class Libraries := {
  DirectoryLoader_load : World → string → string → exn + list Document;
  split_documents : nat → nat → list string → list Document → list Document;
  similarity_search : list Document → string → nat → list Document;
  ChatOpenAI_call : string → option string → string → exn + string
}.

(** ** The pipeline *)

(** The configuration a [RetrievalQA.from_chain_type] chain is built from. *)
Record RetrievalQA := mkRetrievalQA {
  llm_model : string;
  llm_api_key : option string;
  retriever_store : VectorStore;
  retriever_k : nat
}.

(** The attributes of a [RadixRAGSystemOpenRouter] object. *)
Record RadixRAGSystemOpenRouter := mkRAG {
  kb_path : string;
  persist_dir : string;
  model_name : string;
  vectorstore : option VectorStore;
  qa_chain : option RetrievalQA
}.

(** One entry of [response["sources"]]. *)
Record SourceInfo := mkSourceInfo {
  filename : string;
  file_type : string;
  content_type : string;
  snippet : string
}.

Global Instance SourceInfo_eq_dec : EqDecision SourceInfo.
Proof. solve_decision. Defined.

(** The dictionary [ask] returns. *)
Record Response := mkResponse {
  question : string;
  answer : string;
  sources : list SourceInfo
}.

Definition newline : string := String (ascii_of_nat 10) EmptyString.

(** [PROMPT.format(context=..., question=...)] *)
Definition prompt_template (context question : string) : string :=
  "You are an expert RadixDLT and Scrypto developer assistant. Use the provided context to answer questions about RadixDLT, Scrypto, blockchain development, and Rust programming.

Guidelines:
- Provide accurate, technical information based on the context
- Include relevant code examples when available
- Explain concepts clearly for developers
- If the context doesn't contain enough information, say so
- Focus on practical, actionable advice

Context:
" +:+ context +:+ "

Question: " +:+ question +:+ "

Answer: ".

(** The content category of a loaded file, from its path. *)
Definition content_type_of (file_path : string) : string :=
  if contains "example" (lower (Path.str file_path)) then "example"
  else if contains "src" (lower (Path.str file_path)) then "source"
  else if bool_decide (Path.suffix file_path = ".md") then "documentation"
  else "code".

(** The body of the loop over [all_docs] in [load_documents]. *)
Definition add_metadata (doc : Document) : M Document :=
  match metadata doc !! "source" with
  | None => raise (KeyError "source")
  | Some file_path =>
      ret (mkDocument (page_content doc)
             (<["content_type" := content_type_of file_path]>
                (<["directory" := Path.parent_name file_path]>
                   (<["filename" := Path.name file_path]>
                      (<["file_type" := Path.suffix file_path]> (metadata doc))))))
  end.

(** What the loop of [load_documents] makes of one document. *)
Definition tagged_from (d d' : Document) : Prop :=
  ∃ file_path,
    metadata d !! "source" = Some file_path ∧
    page_content d' = page_content d ∧
    metadata d' !! "source" = Some file_path ∧
    metadata d' !! "content_type" = Some (content_type_of file_path) ∧
    metadata d' !! "filename" = Some (Path.name file_path) ∧
    metadata d' !! "file_type" = Some (Path.suffix file_path).

Fixpoint mapM {A B} (f : A → M B) (l : list A) : M (list B) :=
  match l with
  | [] => ret []
  | x :: l' => y <- f x ;; ys <- mapM f l' ;; ret (y :: ys)
  end.

(** The slice and conditional of the [snippet] entry. *)
Definition snippet_of (content : string) : string :=
  if 200 <? py_len content then py_take 200 content +:+ "..."
  else content.

(** The [source_info] dictionary built for one source document. *)
Definition source_info (doc : Document) : SourceInfo :=
  {| filename := default "Unknown" (metadata doc !! "filename");
     file_type := default "Unknown" (metadata doc !! "file_type");
     content_type := default "Unknown" (metadata doc !! "content_type");
     snippet := snippet_of (page_content doc) |}.

(** The loop [for doc in result["source_documents"]: ...append(source_info)]
    over the list being built. *)
Fixpoint append_sources (docs : list Document) (acc : list SourceInfo)
  : list SourceInfo :=
  match docs with
  | [] => acc
  | doc :: docs' => append_sources docs' (acc ++ [source_info doc])
  end.

Section Pipeline.
Context `{Libraries}.

Definition DirectoryLoader (path glob : string) : M (list Document) :=
  λ w, (DirectoryLoader_load w path glob, w).

Definition load_documents (self : RadixRAGSystemOpenRouter)
  : M (list Document) :=
  md_docs <- try_except (DirectoryLoader (Path.str (kb_path self)) "**/*.md")
               (λ _, ret []) ;;
  rs_docs <- try_except (DirectoryLoader (Path.str (kb_path self)) "**/*.rs")
               (λ _, ret []) ;;
  let all_docs := md_docs ++ rs_docs in
  all_docs <- mapM add_metadata all_docs ;;
  ret ([] ++ all_docs).

(** [Chroma(persist_directory=dir, embedding_function=...)]: opens the
    collection kept at [dir]; a directory without one gives an empty
    collection. Nothing is embedded. *)
Definition Chroma_open (dir : string) : M VectorStore :=
  emit (EvOpenStore dir) ;;;
  w <- get_world ;;
  match fs w !! dir with
  | Some (ChromaStore records) => ret (mkVectorStore records dir)
  | _ => ret (mkVectorStore [] dir)
  end.

(** [Chroma.from_documents(documents, embedding, persist_directory)]:
    every document is passed to the embedding function and added to a new
    collection. *)
Definition Chroma_from_documents (documents : list Document) (dir : string)
  : M VectorStore :=
  for_each documents (λ d, emit (EvEmbed (page_content d))) ;;;
  ret (mkVectorStore documents dir).

(** [vectorstore.persist()] *)
Definition Chroma_persist (vs : VectorStore) : M unit :=
  write_node (persist_directory vs) (ChromaStore (collection vs)) ;;;
  emit (EvPersist (persist_directory vs)).

(** [setup_vectorstore] returns the object with its [vectorstore] attribute
    set. On the load branch the count of the collection is read for a
    message only, any failure of that read being swallowed. *)
Definition setup_vectorstore (self : RadixRAGSystemOpenRouter)
  : M RadixRAGSystemOpenRouter :=
  found <- path_exists (persist_dir self) ;;
  if found : bool then
    vs <- Chroma_open (persist_dir self) ;;
    ret (mkRAG (kb_path self) (persist_dir self) (model_name self)
           (Some vs) (qa_chain self))
  else
    documents <- load_documents self ;;
    if bool_decide (documents = []) then
      raise (RuntimeError "No documents found to process!")
    else
      let splits :=
        split_documents 1000 200 [newline +:+ newline; newline; " "; ""]
          documents in
      vs <- Chroma_from_documents splits (persist_dir self) ;;
      Chroma_persist vs ;;;
      ret (mkRAG (kb_path self) (persist_dir self) (model_name self)
             (Some vs) (qa_chain self)).

Definition setup_qa_chain (self : RadixRAGSystemOpenRouter)
  : M RadixRAGSystemOpenRouter :=
  key <- getenv "OPENROUTER_API_KEY" ;;
  match vectorstore self with
  | None => raise (AttributeError "'NoneType' object has no attribute 'as_retriever'")
  | Some vs =>
      ret (mkRAG (kb_path self) (persist_dir self) (model_name self)
             (vectorstore self) (Some (mkRetrievalQA (model_name self) key vs 6)))
  end.

(** [RadixRAGSystemOpenRouter(knowledge_base_path, persist_directory,
    model_name)] *)
Definition __init__ (knowledge_base_path persist_directory model : string)
  : M RadixRAGSystemOpenRouter :=
  let self := mkRAG knowledge_base_path persist_directory model None None in
  found <- path_exists (Path.str knowledge_base_path) ;;
  if negb found then
    raise (FileNotFoundError
             ("Knowledge base not found at " +:+ knowledge_base_path))
  else
    key <- getenv "OPENROUTER_API_KEY" ;;
    if negb (truthy key) then raise (SystemExit 1)
    else
      self <- setup_vectorstore self ;;
      self <- setup_qa_chain self ;;
      ret self.

(** Calling the chain, [qa_chain({"query": question})]: the retriever
    passes the query to the embedding function of the store and fetches the
    source documents nearest to it, their texts joined by blank lines fill
    the prompt, and the model's completion is the result. *)
Definition call_chain (chain : RetrievalQA) (query : string) : M ChainResult :=
  emit (EvEmbed query) ;;;
  let docs :=
    similarity_search (collection (retriever_store chain)) query
      (retriever_k chain) in
  let context := join (newline +:+ newline) (page_content <$> docs) in
  let prompt := prompt_template context query in
  emit (EvCompletion (llm_model chain) prompt) ;;;
  match ChatOpenAI_call (llm_model chain) (llm_api_key chain) prompt with
  | inl e => raise e
  | inr text => ret (mkChainResult text docs)
  end.

Definition ask (self : RadixRAGSystemOpenRouter) (question : string)
  : M Response :=
  match qa_chain self with
  | None => raise (RuntimeError "QA chain not initialized")
  | Some chain =>
      res <- call_chain chain question ;;
      let response := mkResponse question (result res) [] in
      ret (mkResponse question (answer response)
             (append_sources (source_documents res) (sources response)))
  end.

End Pipeline.

(** ** The Chunker of the specification *)

Module Chunker.

(** Modelled from the spec: the text splitter. The pipeline calls
    [RecursiveCharacterTextSplitter.split_documents] of the langchain
    library, whose code is not part of the repository; the definitions of
    this module are the Chunker of section 4.2 of the specification.
    [boundary sep text p]: the first [p] characters of [text] end with the
    separator [sep], so that a break after them falls on a paragraph, line
    or word boundary. *)
Definition boundary (sep text : string) (p : nat) : bool :=
  endswith sep (str_take p text).

(** Modelled from the spec: the largest valid split point not beyond [p]
    that falls on a [sep] boundary. A split point is valid when it lies
    beyond the overlap, so that every chunk starts after the start of the
    previous one. *)
Fixpoint largest_break (sep text : string) (overlap p : nat) : option nat :=
  match p with
  | 0 => None
  | S p' =>
      if (overlap <? p) && boundary sep text p then Some p
      else largest_break sep text overlap p'
  end.

(** Modelled from the spec: break at a paragraph boundary, then a line
    boundary, then a word boundary, then any character boundary, at the
    largest valid split point not beyond [max_size]. *)
Definition split_point (text : string) (max_size overlap : nat) : nat :=
  match largest_break (newline +:+ newline) text overlap max_size with
  | Some p => p
  | None =>
      match largest_break newline text overlap max_size with
      | Some p => p
      | None =>
          match largest_break " " text overlap max_size with
          | Some p => p
          | None => max_size
          end
      end
  end.

(** Modelled from the spec: an empty document yields no chunk, a document
    that fits yields one, and otherwise each chunk after the first begins
    [overlap] characters before the end of the previous one. Every step
    moves on by at least one character, so the length of the text is fuel
    enough. *)
Fixpoint split_fuel (fuel : nat) (text : string) (max_size overlap : nat)
  : list string :=
  match fuel with
  | 0 => []
  | S fuel' =>
      if bool_decide (text = "") then []
      else if String.length text <=? max_size then [text]
      else
        let p := split_point text max_size overlap in
        str_take p text
          :: split_fuel fuel' (str_drop (p - overlap) text) max_size overlap
  end.

Definition split_text (text : string) (max_size overlap : nat) : list string :=
  split_fuel (String.length text) text max_size overlap.

(** Modelled from the spec: the Chunk of section 3. *)
Record Chunk := mkChunk {
  text : string;
  chunk_index : nat;
  parent_source_path : string;
  inherited : gmap string string
}.

(** Modelled from the spec: [split] on one document and on a sequence of
    documents; every chunk inherits the metadata of its document. *)
Definition split_document (d : Document) (max_size overlap : nat) : list Chunk :=
  imap (λ i t, mkChunk t i (default "" (metadata d !! "source")) (metadata d))
    (split_text (page_content d) max_size overlap).

Definition split (documents : list Document) (max_size overlap : nat)
  : list Chunk :=
  documents ≫= (λ d, split_document d max_size overlap).


Definition to_document (c : Chunk) : Document :=
  mkDocument (text c) (inherited c).

End Chunker.

(** ** The Vector Index of the specification *)

Module VectorIndex.

Section Index.
Context {vector score : Type}.
Variable embed : string → vector.
Variable similarity : vector → vector → score.
Variable leb : score → score → bool.

(** Modelled from the spec: the Embedding Record of section 3. *)
Record EmbeddingRecord := mkRecord {
  vec : vector;
  chunk : Document;
  id : nat
}.

(** Modelled from the spec: the Vector Index and the Retriever. The
    pipeline queries a Chroma collection through a langchain retriever,
    whose code is not part of the repository; the definitions of this
    module are [build], [query] and [retrieve] of sections 3, 4.3 and 4.4
    of the specification. [build] embeds the text of every chunk and
    numbers the records in insertion order. *)
Definition build (chunks : list Document) : list EmbeddingRecord :=
  imap (λ i c, mkRecord (embed (page_content c)) c i) chunks.

Definition score_of (qv : vector) (r : EmbeddingRecord) : score :=
  similarity qv (vec r).

(** Modelled from the spec: descending similarity, ties broken by insertion
    order (first seen wins). [r] was seen before every record of [ranked]:
    it goes in front of the first record that does not beat it. *)
Fixpoint insert_ranked (qv : vector) (r : EmbeddingRecord)
  (ranked : list EmbeddingRecord) : list EmbeddingRecord :=
  match ranked with
  | [] => [r]
  | r' :: rest =>
      if leb (score_of qv r') (score_of qv r) then r :: r' :: rest
      else r' :: insert_ranked qv r rest
  end.

Fixpoint rank (qv : vector) (index : list EmbeddingRecord)
  : list EmbeddingRecord :=
  match index with
  | [] => []
  | r :: index' => insert_ranked qv r (rank qv index')
  end.

(** Modelled from the spec: up to [k] records with their scores, fewer when
    the index holds fewer, none when it is empty. *)
Definition query (index : list EmbeddingRecord) (qv : vector) (k : nat)
  : list (EmbeddingRecord * score) :=
  (λ r, (r, score_of qv r)) <$> take k (rank qv index).

(** Modelled from the spec: the question is embedded with the function the
    index was built with, and the scores are dropped. *)
Definition retrieve (index : list EmbeddingRecord) (question : string)
  (k : nat) : list Document :=
  (λ rs, chunk (fst rs)) <$> query index (embed question) k.

End Index.

End VectorIndex.

(** ** A reference instance of the library operations *)

Module Reference.

(** The files below a directory whose name matches [**/*<ext>], each read
    into a document that records where it came from. *)
Definition load (w : World) (path glob : string) : exn + list Document :=
  match fs w !! path with
  | Some (Directory files) =>
      inr ((λ f, mkDocument (snd f) {[ "source" := fst f ]})
             <$> filter (λ f, endswith (str_drop 4 glob) (fst f) = true) files)
  | _ => inl (FileNotFoundError path)
  end.

Definition splitter (chunk_size chunk_overlap : nat) (_ : list string)
  (docs : list Document) : list Document :=
  Chunker.to_document <$> Chunker.split docs chunk_size chunk_overlap.

(** A text is embedded as its length; two vectors are the more similar the
    closer they are. *)
Definition embed (s : string) : Z := Z.of_nat (String.length s).
Definition similarity (a b : Z) : Z := (- Z.abs (a - b))%Z.

Definition search (records : list Document) (query : string) (k : nat)
  : list Document :=
  VectorIndex.retrieve embed similarity Z.leb
    (VectorIndex.build embed records) query k.

Definition complete (model : string) (key : option string) (prompt : string)
  : exn + string :=
  match key with
  | Some _ => inr ("answer from " +:+ model)
  | None => inl (Exception "AuthenticationError")
  end.

Definition libraries : Libraries :=
  {| DirectoryLoader_load := load;
     split_documents := splitter;
     similarity_search := search;
     ChatOpenAI_call := complete |}.

End Reference.

(** ** The states of the pipeline and the specification's error names *)

Inductive pipeline_state := Uninitialized | Loading | Ready.

(** The state an object is in, from the attributes [__init__] fills in
    turn: [vectorstore] by [setup_vectorstore], then [qa_chain] by
    [setup_qa_chain]. *)
Definition state_of (self : RadixRAGSystemOpenRouter) : pipeline_state :=
  match qa_chain self, vectorstore self with
  | Some _, _ => Ready
  | None, Some _ => Loading
  | None, None => Uninitialized
  end.

(** The specification's [NotReadyError] is the [RuntimeError] of [ask], its
    [CredentialMissingError] the exit of [__init__] with status 1, its
    [LoadError] the [FileNotFoundError] of [__init__]. *)
Definition NotReadyError : exn := RuntimeError "QA chain not initialized".
Definition CredentialMissingError : exn := SystemExit 1.
Definition LoadError (knowledge_base_path : string) : exn :=
  FileNotFoundError ("Knowledge base not found at " +:+ knowledge_base_path).

(** The content category as the specification words it, by path segments:
    an [examples] segment, else a [src] segment, else the markdown
    extension, else code. *)
Definition segment_category (file_path : string) : string :=
  if bool_decide ("examples" ∈ Path.parts file_path) then "example"
  else if bool_decide ("src" ∈ Path.parts file_path) then "source"
  else if bool_decide (Path.suffix file_path = ".md") then "documentation"
  else "code".

(** Events of an index build: a chunk is embedded, a collection is written. *)
Definition is_build_event (e : event) : bool :=
  match e with
  | EvEmbed _ | EvPersist _ => true
  | _ => false
  end.

(** ** Scenarios *)

Module Scenario.

Definition kb : string := "kb/cleaned".
Definition store_dir : string := "./vectorstore_openrouter".
Definition model : string := "anthropic/claude-3.5-sonnet".
Definition key_env : gmap string string := {[ "OPENROUTER_API_KEY" := "sk-or-test" ]}.

Definition blueprint_md : string * string :=
  ("kb/cleaned/docs/blueprint.md",
   "A blueprint is declared with a module containing a struct and an impl block.").
Definition token_rs : string * string :=
  ("kb/cleaned/src/token_example.rs", "fn instantiate() {}").

(** A knowledge base with two files, no persisted index, a credential. *)
Definition fresh : World :=
  mkWorld key_env {[ kb := Directory [blueprint_md; token_rs] ]} [].


(** Neither a knowledge base nor a credential. *)
Definition bare : World := mkWorld ∅ ∅ [].

(** A knowledge base but no credential. *)
Definition no_key : World :=
  mkWorld ∅ {[ kb := Directory [blueprint_md] ]} [].

Definition header_chunk : Document :=
  mkDocument "// SPDX-License-Identifier: MIT"
    {[ "filename" := "lib.rs"; "file_type" := ".rs"; "content_type" := "source" ]}.
Definition bare_chunk : Document := mkDocument "use scrypto::prelude::*;" ∅.

(** A persisted index that holds the same chunk of [lib.rs] twice and a
    chunk without metadata. *)
Definition persisted : World :=
  mkWorld key_env
    (<[ store_dir := ChromaStore [header_chunk; header_chunk; bare_chunk] ]>
       {[ kb := Directory [] ]}) [].

(** The chain and the object [__init__] leaves behind in [persisted]. *)
Definition ready_chain : RetrievalQA :=
  mkRetrievalQA model (Some "sk-or-test")
    (mkVectorStore [header_chunk; header_chunk; bare_chunk] store_dir) 6.
Definition ready_self : RadixRAGSystemOpenRouter :=
  mkRAG kb store_dir model
    (Some (mkVectorStore [header_chunk; header_chunk; bare_chunk] store_dir))
    (Some ready_chain).

(** The object while [__init__] has not yet set up the chain. *)
Definition loading_self : RadixRAGSystemOpenRouter :=
  mkRAG kb store_dir model
    (Some (mkVectorStore [header_chunk; header_chunk; bare_chunk] store_dir))
    None.

(** The letter e with an acute accent, U+00E9: one character, two bytes. *)
Definition e_acute : string :=
  String (ascii_of_nat 195) (String (ascii_of_nat 169) EmptyString).

(** A chunk of 201 accented letters and one of 101, and an object whose
    store holds the two. *)
Definition long_accented_chunk : Document :=
  mkDocument (concat_all (replicate 201 e_acute)) ∅.
Definition short_accented_chunk : Document :=
  mkDocument (concat_all (replicate 101 e_acute)) ∅.
Definition accented_chain : RetrievalQA :=
  mkRetrievalQA model (Some "sk-or-test")
    (mkVectorStore [long_accented_chunk; short_accented_chunk] store_dir) 6.
Definition accented_self : RadixRAGSystemOpenRouter :=
  mkRAG kb store_dir model
    (Some (mkVectorStore [long_accented_chunk; short_accented_chunk] store_dir))
    (Some accented_chain).

End Scenario.

(** ** The interactive session and [main] *)

(** The code points for which [str.isspace()] holds, by the bytes of their
    UTF-8 encoding.
    - One byte: tab to carriage return (9 to 13), the four separators 28 to
      31, and the space (32).
    - Two bytes: U+0085 (194 133) and U+00A0 (194 160).
    - Three bytes: U+1680 (225 154 128), U+2000 to U+200A (226 128 128 to
      226 128 138), U+2028 and U+2029 (226 128 168, 226 128 169), U+202F
      (226 128 175), U+205F (226 129 159) and U+3000 (227 128 128). *)
Definition is_space1 (c : ascii) : bool :=
  let n := nat_of_ascii c in
  ((9 <=? n) && (n <=? 13)) || ((28 <=? n) && (n <=? 32)).

Definition is_space2 (c1 c2 : ascii) : bool :=
  let n1 := nat_of_ascii c1 in
  let n2 := nat_of_ascii c2 in
  (n1 =? 194) && ((n2 =? 133) || (n2 =? 160)).

Definition is_space3 (c1 c2 c3 : ascii) : bool :=
  let n1 := nat_of_ascii c1 in
  let n2 := nat_of_ascii c2 in
  let n3 := nat_of_ascii c3 in
  ((n1 =? 225) && (n2 =? 154) && (n3 =? 128))
  || ((n1 =? 226) && (n2 =? 128)
      && (((128 <=? n3) && (n3 <=? 138)) || (n3 =? 168) || (n3 =? 169)
          || (n3 =? 175)))
  || ((n1 =? 226) && (n2 =? 129) && (n3 =? 159))
  || ((n1 =? 227) && (n2 =? 128) && (n3 =? 128)).

(** What follows the white-space code point [s] begins with, if it begins
    with one. *)
Definition skip_space (s : string) : option string :=
  match s with
  | String c1 s1 =>
      if is_space1 c1 then Some s1
      else match s1 with
           | String c2 s2 =>
               if is_space2 c1 c2 then Some s2
               else match s2 with
                    | String c3 s3 =>
                        if is_space3 c1 c2 c3 then Some s3 else None
                    | EmptyString => None
                    end
           | EmptyString => None
           end
  | EmptyString => None
  end.

(** [s.lstrip()]: the leading white-space code points are dropped. *)
Fixpoint lstrip (s : string) : string :=
  match s with
  | String c1 s1 =>
      if is_space1 c1 then lstrip s1
      else match s1 with
           | String c2 s2 =>
               if is_space2 c1 c2 then lstrip s2
               else match s2 with
                    | String c3 s3 =>
                        if is_space3 c1 c2 c3 then lstrip s3 else s
                    | EmptyString => s
                    end
           | EmptyString => s
           end
  | EmptyString => EmptyString
  end.

(** [s.rstrip()]: the text is cut where nothing but white space follows. *)
Fixpoint rstrip (s : string) : string :=
  match s with
  | EmptyString => EmptyString
  | String c s' =>
      if bool_decide (lstrip (String c s') = EmptyString) then EmptyString
      else String c (rstrip s')
  end.

(** [s.strip()] *)
Definition strip (s : string) : string := rstrip (lstrip s).

(** The no-break space U+00A0, by its two bytes. *)
Definition nbsp : string :=
  String (ascii_of_nat 194) (String (ascii_of_nat 160) EmptyString).

(** What a call of [input()] gives: a line, a [KeyboardInterrupt], or an
    [EOFError]. *)
Inductive console_input :=
| Line (text : string)
| Interrupt
| EndOfInput.

(** What the session puts on the console: an answer through
    [print_answer], the message of a caught exception, the help text, the
    model list, or the farewell. *)
Inductive shown :=
| ShownAnswer (response : Response)
| ShownError (e : exn)
| ShownHelp
| ShownModels
| ShownGoodbye.

(** A session over the inputs read so far: what was shown, and whether the
    loop has been left ([true]) or is waiting for the next input. *)
Definition session : Type := list shown * bool.

Definition and_then (first : shown) (rest : M session) : M session :=
  r <- rest ;; ret (first :: r.1, r.2).

Section Session.
Context `{Libraries}.

(** The body of the [try] block for a line that is a question. *)
Definition answer_question (self : RadixRAGSystemOpenRouter) (question : string)
  : M shown :=
  try_except (response <- ask self question ;; ret (ShownAnswer response))
    (λ e, ret (ShownError e)).

(** [interactive_mode]: the [while True] loop over the successive results of
    [input()]. *)
Fixpoint interactive_mode (self : RadixRAGSystemOpenRouter)
    (inputs : list console_input) : M session :=
  match inputs with
  | [] => ret ([], false)
  | Interrupt :: _ => ret ([ShownGoodbye], true)
  | EndOfInput :: rest =>
      and_then (ShownError (Exception "EOFError")) (interactive_mode self rest)
  | Line text :: rest =>
      let question := strip text in
      if bool_decide (lower question ∈ ["exit"; "quit"; "q"]) then
        ret ([ShownGoodbye], true)
      else if bool_decide (lower question = "help") then
        and_then ShownHelp (interactive_mode self rest)
      else if bool_decide (lower question = "models") then
        and_then ShownModels (interactive_mode self rest)
      else if bool_decide (question = "") then interactive_mode self rest
      else
        out <- answer_question self question ;;
        and_then out (interactive_mode self rest)
  end.

(** [main]: the value it returns, or [None] while the session is still
    waiting for input. *)
Definition main (inputs : list console_input) : M (option Z) :=
  try_except
    (rag <- __init__ "kb/cleaned" "./vectorstore_openrouter"
              "anthropic/claude-3.5-sonnet" ;;
     s <- interactive_mode rag inputs ;;
     ret (if s.2 then Some 0%Z else None))
    (λ _, ret (Some 1%Z)).

End Session.

(** The lines of a session that reach [ask]: stripped, neither empty nor a
    command, and read before the loop is left. *)
Definition is_exit (text : string) : bool :=
  bool_decide (lower (strip text) ∈ ["exit"; "quit"; "q"]).

Definition is_question (text : string) : bool :=
  negb (is_exit text)
  && negb (bool_decide (lower (strip text) = "help"))
  && negb (bool_decide (lower (strip text) = "models"))
  && negb (bool_decide (strip text = "")).

Fixpoint questions_asked (inputs : list console_input) : list string :=
  match inputs with
  | [] => []
  | Interrupt :: _ => []
  | EndOfInput :: rest => questions_asked rest
  | Line text :: rest =>
      if is_exit text then []
      else if is_question text then strip text :: questions_asked rest
      else questions_asked rest
  end.

(** The completion request [ask] sends for a question. *)
Definition request_for `{Libraries} (chain : RetrievalQA) (question : string)
  : event :=
  EvCompletion (llm_model chain)
    (prompt_template
       (join (newline +:+ newline)
          (page_content <$>
             similarity_search (collection (retriever_store chain)) question
               (retriever_k chain)))
       question).

(** The calls a question causes: it is embedded for the search, then the
    completion is requested. *)
Definition calls_for `{Libraries} (chain : RetrievalQA) (question : string)
  : list event :=
  [EvEmbed question; request_for chain question].

(** What a directory load contributes to [load_documents]: its documents,
    or nothing when it raised. *)
Definition loaded (r : exn + list Document) : list Document :=
  match r with
  | inr docs => docs
  | inl _ => []
  end.

(** An input that ends the session: an interrupt or an exit command. *)
Definition ends_session (inputs : list console_input) : bool :=
  existsb (λ i, match i with
                | Interrupt => true
                | Line text => is_exit text
                | EndOfInput => false
                end) inputs.

(** The exceptions among what a session showed. *)
Definition errors_shown (t : list shown) : list exn :=
  omap (λ s, match s with ShownError e => Some e | _ => None end) t.

(** ** Code extraction and mock validation of the auto-testers *)

(** [hay.find(needle)]: the index of the first occurrence, if any. *)
Fixpoint str_find (needle hay : string) : option nat :=
  if startswith needle hay then Some 0
  else match hay with
       | EmptyString => None
       | String _ hay' => S <$> str_find needle hay'
       end.

(** [re.findall(opening + '(.*?)' + closing, text, re.DOTALL)] for literal
    [opening] and [closing]: the scan finds the first [opening], then the
    first [closing] after it (the group is lazy and the dot matches line
    breaks), yields what lies between, and goes on behind that [closing].
    When no [closing] follows an [opening], none follows any later one
    either, and the scan ends. Every match uses up at least one character,
    so the length of the text is fuel enough. *)
Fixpoint findall_fuel (fuel : nat) (opening closing text : string)
  : list string :=
  match fuel with
  | 0 => []
  | S fuel' =>
      match str_find opening text with
      | None => []
      | Some i =>
          let body := str_drop (i + String.length opening) text in
          match str_find closing body with
          | None => []
          | Some k =>
              str_take k body
                :: findall_fuel fuel' opening closing
                     (str_drop (k + String.length closing) body)
          end
      end
  end.

Definition findall (opening closing text : string) : list string :=
  findall_fuel (String.length text) opening closing text.

Definition fence : string := "```".

(** [re.search(r'impl.*{', code, re.IGNORECASE)] on lower-cased text: an
    [impl] followed, before the line ends, by an opening brace. *)
Fixpoint brace_on_line (s : string) : bool :=
  match s with
  | EmptyString => false
  | String c s' =>
      if bool_decide (c = ascii_of_nat 10) then false
      else if bool_decide (c = "{"%char) then true
      else brace_on_line s'
  end.

Fixpoint search_impl (s : string) : bool :=
  (startswith "impl" s && brace_on_line (str_drop 4 s))
  || match s with
     | EmptyString => false
     | String _ s' => search_impl s'
     end.

Module MockScryptoAutoTester.

(** [extract_rust_code] of [demo.py] *)
Definition extract_rust_code (text : string) : list string :=
  let patterns :=
    [fence +:+ "rust" +:+ newline; fence +:+ "scrypto" +:+ newline;
     fence +:+ "rs" +:+ newline] in
  let code_blocks :=
    patterns ≫= (λ opening, findall opening (newline +:+ fence) text) in
  strip <$> filter (λ code, contains "blueprint" code = true
                            ∨ contains "component" code = true) code_blocks.

(** The four [required_patterns], searched ignoring case. *)
Definition pattern_hits (code : string) : list bool :=
  [contains "use scrypto::prelude::*" (lower code);
   contains "#[blueprint]" (lower code);
   search_impl (lower code);
   contains "pub fn" (lower code)].

Definition score (code : string) : nat :=
  length (filter (λ b, b = true) (pattern_hits code)).

Definition passing_output : string :=
  "
    Finished test [unoptimized + debuginfo] target(s) in 2.34s
    Running unittests src/lib.rs

running 1 test
test test_hello ... ok

test result: ok. 1 passed; 0 failed; 0 ignored; 0 measured; 0 filtered out
".

(** [mock_scrypto_validation] *)
Definition mock_scrypto_validation (code : string) : bool * string :=
  let success := 3 <=? score code in
  (success,
   if success then passing_output
   else "Compilation failed: Missing required Scrypto patterns").

End MockScryptoAutoTester.

Module ScryptoAutoTester.

(** [extract_rust_code] of [mock_auto_test_system.py] *)
Definition extract_rust_code (text : string) : list string :=
  let patterns :=
    [fence +:+ "rust" +:+ newline; fence +:+ "scrypto" +:+ newline;
     fence +:+ "rs" +:+ newline; fence +:+ newline] in
  let code_blocks :=
    patterns ≫= (λ opening, findall opening (newline +:+ fence) text) in
  strip <$> filter (λ code, existsb (λ keyword, contains keyword code)
                              ["blueprint"; "component"; "use scrypto"; "impl"; "pub fn"]
                            = true) code_blocks.

End ScryptoAutoTester.

(** The bytes white space is written with: the one-byte blanks and bytes
    from 128 on. A string that does not begin, or does not end, with such a
    byte begins, or ends, with a printable ASCII character. *)
Definition blank_byte (c : ascii) : bool :=
  is_space1 c || (128 <=? nat_of_ascii c).

Fixpoint all_blank (s : string) : Prop :=
  match s with
  | EmptyString => True
  | String c s' => blank_byte c = true ∧ all_blank s'
  end.

Definition clean_start (s : string) : Prop :=
  match s with
  | EmptyString => True
  | String c _ => blank_byte c = false
  end.

Fixpoint clean_end (s : string) : Prop :=
  match s with
  | EmptyString => True
  | String c EmptyString => blank_byte c = false
  | String _ s' => clean_end s'
  end.

(** An answer with two fenced Rust blocks around a line of prose. *)
Definition sample_answer : string :=
  "Here is the blueprint:" +:+ newline +:+
  fence +:+ "rust" +:+ newline +:+
  "use scrypto::prelude::*;" +:+ newline +:+
  "#[blueprint]" +:+ newline +:+
  "mod hello { impl Hello { pub fn new() {} } }" +:+ newline +:+
  fence +:+ newline +:+
  "and a helper:" +:+ newline +:+
  fence +:+ "rust" +:+ newline +:+
  "  // component helper  " +:+ newline +:+
  fence +:+ newline +:+ "Done.".

(** An answer whose only block holds its code between two no-break
    spaces. *)
Definition padded_answer : string :=
  fence +:+ newline +:+ nbsp +:+ "component" +:+ nbsp +:+ newline +:+ fence.

(** ** The host of the auto-testers *)

From stdpp Require pretty.

(** The values the testers put into their JSON records. A duration is kept
    in microseconds. *)
Inductive json :=
| JNull
| JBool (b : bool)
| JInt (n : Z)
| JSeconds (microseconds : Z)
| JStr (s : string).

Global Instance json_eq_dec : EqDecision json.
Proof. solve_decision. Defined.

(** The dictionary [self.results], as [load_results] creates it and
    [results.json] stores it; [last_updated] is absent until [save_results]
    sets it. *)
Record Results := mkResults {
  session_id : string;
  total_attempts : Z;
  successful_blueprints : Z;
  failed_blueprints : Z;
  retry_count : Z;
  blueprints : list (gmap string json);
  last_updated : option string
}.

(** Where a tester runs: the world of the pipeline, the folders and text
    files of the working directory, the file [results.json] (absent, not
    readable as JSON, or its content), and the number of times the clock
    has been read. *)
Record Host := mkHost {
  pipeline : World;
  folders : gset string;
  texts : gmap string string;
  results_json : option (option Results);
  clock_reads : nat
}.

Definition T (A : Type) : Type := Host → (exn + A) * Host.

Definition retT {A} (a : A) : T A := λ h, (inr a, h).
Definition raiseT {A} (e : exn) : T A := λ h, (inl e, h).
Definition bindT {A B} (m : T A) (k : A → T B) : T B :=
  λ h, match m h with
       | (inl e, h') => (inl e, h')
       | (inr a, h') => k a h'
       end.
Definition try_exceptT {A} (m : T A) (handler : exn → T A) : T A :=
  λ h, match m h with
       | (inl e, h') => if is_Exception e then handler e h' else (inl e, h')
       | r => r
       end.
Definition get_host : T Host := λ h, (inr h, h).

(** A method of the pipeline, run in the host. *)
Definition liftM {A} (m : M A) : T A :=
  λ h, let r := m (pipeline h) in
       (r.1, mkHost r.2 (folders h) (texts h) (results_json h) (clock_reads h)).

Declare Scope host_scope.
Delimit Scope host_scope with host.
Notation "x <~ c ;; k" := (bindT c (λ x, k))
  (at level 100, c at next level, right associativity) : host_scope.
Notation "c ;;~ k" := (bindT c (λ _, k))
  (at level 100, right associativity) : host_scope.
Local Open Scope host_scope.

(** The clock and its formats: the reading of the [i]-th call of
    [datetime.now()], in microseconds, [t.strftime(format)] and
    [t.isoformat()]. *)
Class Clock := {
  reading : nat → Z;
  strftime : string → Z → string;
  isoformat : Z → string
}.

Definition datetime_now `{Clock} : T Z :=
  λ h, (inr (reading (clock_reads h)),
        mkHost (pipeline h) (folders h) (texts h) (results_json h)
          (S (clock_reads h))).

(** [str(e)] *)
Definition str_exn (e : exn) : string :=
  match e with
  | FileNotFoundError msg | RuntimeError msg | AttributeError msg
  | Exception msg => msg
  | KeyError key => "'" +:+ key +:+ "'"
  | SystemExit code => stdpp.pretty.pretty code
  end.

(** [Path(a) / b] and [Path(p).parent], as strings. *)
Definition path_div (a b : string) : string :=
  if Path.anchored b then Path.str b else Path.str (a +:+ "/" +:+ b).

Definition parent_of (p : string) : string :=
  match removelast (Path.parts p), Path.anchored p with
  | [], false => "."
  | ps, true => "/" +:+ join "/" ps
  | ps, false => join "/" ps
  end.

Definition is_dir (h : Host) (p : string) : bool :=
  bool_decide (p = "." ∨ p ∈ folders h).

Definition is_file (h : Host) (p : string) : bool :=
  bool_decide (is_Some (texts h !! p))
  || (bool_decide (p = "results.json") && bool_decide (is_Some (results_json h))).

(** [Path(p).mkdir(exist_ok=True)] *)
Definition mkdir_exist_ok (p : string) : T unit :=
  λ h, if is_file h p then (inl (Exception "FileExistsError"), h)
       else if negb (is_dir h (parent_of p)) then (inl (FileNotFoundError p), h)
       else (inr tt, mkHost (pipeline h) ({[ p ]} ∪ folders h) (texts h)
                       (results_json h) (clock_reads h)).

(** [with open(p, 'w') as f: f.write(content)] *)
Definition write_text (p content : string) : T unit :=
  λ h, if is_dir h p then (inl (Exception "IsADirectoryError"), h)
       else if negb (is_dir h (parent_of p)) then (inl (FileNotFoundError p), h)
       else (inr tt, mkHost (pipeline h) (folders h) (<[p := content]> (texts h))
                       (results_json h) (clock_reads h)).

(** [json.dump(results, f, indent=2)] into [results.json] *)
Definition dump_results (r : Results) : T unit :=
  λ h, if is_dir h "results.json" then (inl (Exception "IsADirectoryError"), h)
       else (inr tt, mkHost (pipeline h) (folders h) (texts h) (Some (Some r))
                       (clock_reads h)).

(** The attributes of a tester object that change or are read: the pipeline
    it asks and its results. *)
Record Tester := mkTester {
  rag_system : RadixRAGSystemOpenRouter;
  results : Results
}.

Section Testers.
Context `{Libraries} `{Clock}.

(** [load_results], the same in both testers *)
Definition load_results : T Results :=
  h <~ get_host ;;
  if is_dir h "results.json" then raiseT (Exception "IsADirectoryError")
  else
    match results_json h with
    | Some (Some r) => retT r
    | Some None => raiseT (Exception "JSONDecodeError")
    | None =>
        t <~ datetime_now ;;
        retT (mkResults (strftime "%Y%m%d_%H%M%S" t) 0 0 0 0 [] None)
    end.

(** [__init__], the same in both testers *)
Definition tester_init (rag : RadixRAGSystemOpenRouter) : T Tester :=
  mkdir_exist_ok "output" ;;~
  r <~ load_results ;;
  retT (mkTester rag r).

(** The [try] block around [ask]: the answer, or [None] when an exception
    was caught. *)
Definition ask_answer (self : Tester) (prompt : string) : T (option Response) :=
  try_exceptT (response <~ liftM (ask (rag_system self) prompt) ;;
               retT (Some response))
    (λ _, retT None).

(** The name a test gets when none is given. *)
Definition default_test_name (test_name : option string) : T string :=
  if truthy test_name then retT (default "" test_name)
  else t <~ datetime_now ;; retT ("test_" +:+ strftime "%Y%m%d_%H%M%S" t).

End Testers.

(** What the import of the pipeline's module depends on and is not in the
    repository: the directories of [sys.path], the directory of the script
    that was started first; whether [python-dotenv] is installed, and the
    variables the [.env] file it finds defines; whether the langchain
    packages the module imports are installed. *)
Class Interpreter := {
  sys_path : list string;
  dotenv_installed : bool;
  dotenv_values : Host → gmap string string;
  langchain_installed : bool
}.

(** [load_dotenv()]: the variables of the [.env] file are added to the
    environment, those already set keeping their value. *)
Definition load_dotenv `{Interpreter} : T unit :=
  λ h, (inr tt,
        mkHost (mkWorld (environ (pipeline h) ∪ dotenv_values h)
                  (fs (pipeline h)) (trace (pipeline h)))
          (folders h) (texts h) (results_json h) (clock_reads h)).

(** [from rag_system_openrouter import RadixRAGSystemOpenRouter], the first
    statement in the [try] block of [main] in both testers. The module is
    looked for as the file [rag_system_openrouter.py] in the directories
    of [sys.path]; when it is found, its top level runs: [load_dotenv()],
    then the imports of langchain, whose [ImportError] it turns into
    [sys.exit(1)]. *)
Definition import_rag_system `{Interpreter} : T unit :=
  h <~ get_host ;;
  if existsb (λ d, is_file h (path_div d "rag_system_openrouter.py")) sys_path
  then
    if dotenv_installed then
      load_dotenv ;;~
      if langchain_installed then retT tt else raiseT (SystemExit 1)
    else raiseT (Exception "No module named 'dotenv'")
  else raiseT (Exception "No module named 'rag_system_openrouter'").

Definition failed_record : gmap string json := {[ "success" := JBool false ]}.

Module MockTester.
Import MockScryptoAutoTester.

Section Methods.
Context `{Libraries} `{Clock} `{Interpreter}.

(** The [test_record] of the mock tester. *)
Definition test_record (test_name prompt : string) (start_time end_time : Z)
    (success : bool) (code_file test_output code : string) : gmap string json :=
  <["test_name" := JStr test_name]>
    (<["prompt" := JStr prompt]>
       (<["timestamp" := JStr (isoformat start_time)]>
          (<["duration_seconds" := JSeconds (end_time - start_time)]>
             (<["success" := JBool success]>
                (<["attempts" := JInt 1]>
                   (<["code_file" := JStr code_file]>
                      (<["test_output" := JStr test_output]>
                         (<["code_preview" := JStr (snippet_of code)]> ∅)))))))).

(** [test_blueprint_generation] of [demo.py]: the tester afterwards and the
    dictionary returned. *)
Definition test_blueprint_generation (self : Tester) (prompt : string)
    (test_name : option string) : T (Tester * gmap string json) :=
  test_name <~ default_test_name test_name ;;
  start_time <~ datetime_now ;;
  response <~ ask_answer self prompt ;;
  match response with
  | None => retT (self, failed_record)
  | Some response =>
      match extract_rust_code (answer response) with
      | [] => retT (self, failed_record)
      | code :: _ =>
          let code_file := path_div "output" (test_name +:+ ".rs") in
          write_text code_file code ;;~
          let validation := mock_scrypto_validation code in
          end_time <~ datetime_now ;;
          let record :=
            test_record test_name prompt start_time end_time validation.1
              code_file validation.2 code in
          let r := results self in
          let r :=
            if validation.1 then
              mkResults (session_id r) (total_attempts r)
                (successful_blueprints r + 1) (failed_blueprints r)
                (retry_count r) (blueprints r) (last_updated r)
            else
              mkResults (session_id r) (total_attempts r)
                (successful_blueprints r) (failed_blueprints r + 1)
                (retry_count r) (blueprints r) (last_updated r) in
          let r :=
            mkResults (session_id r) (total_attempts r + 1)
              (successful_blueprints r) (failed_blueprints r)
              (retry_count r) (blueprints r ++ [record]) (last_updated r) in
          dump_results r ;;~
          retT (mkTester (rag_system self) r, record)
      end
  end.

(** [run_demo_tests] of [demo.py] *)
Definition run_demo_tests (self : Tester) : T (Tester * Results) :=
  first <~ test_blueprint_generation self
             "Create a simple Scrypto blueprint that stores a greeting message and has a function to return it"
             (Some "simple_greeting_blueprint") ;;
  second <~ test_blueprint_generation first.1
              "Create a Scrypto blueprint for an admin-controlled NFT with mint and burn functions"
              (Some "admin_nft_blueprint") ;;
  retT (second.1, results second.1).

(** [main] of [demo.py] *)
Definition main : T Z :=
  try_exceptT
    (import_rag_system ;;~
     rag <~ liftM (__init__ "kb/cleaned" "./vectorstore_openrouter"
                     "meta-llama/llama-3.1-8b-instruct") ;;
     auto_tester <~ tester_init rag ;;
     run_demo_tests auto_tester ;;~
     retT 0%Z)
    (λ _, retT 1%Z).

End Methods.
End MockTester.

(** ** Reference host, clock and completions *)

Module ReferenceHost.

Definition clock : Clock :=
  {| reading := λ i, (1000000 * Z.of_nat i)%Z;
     strftime := λ _ t, stdpp.pretty.pretty t;
     isoformat := λ t, stdpp.pretty.pretty t |}.

(** Libraries whose completion is always [sample_answer]. *)
Definition coder : Libraries :=
  {| DirectoryLoader_load := Reference.load;
     split_documents := Reference.splitter;
     similarity_search := Reference.search;
     ChatOpenAI_call := λ _ _ _, inr sample_answer |}.

Definition empty_host (w : World) : Host := mkHost w ∅ ∅ None 0.


End ReferenceHost.

(** Computations of the host that leave folders, text files and
    [results.json] as they are. *)
Definition same_disk (h h' : Host) : Prop :=
  folders h' = folders h ∧ texts h' = texts h ∧ results_json h' = results_json h.

Definition keeps_disk {A} (m : T A) : Prop := ∀ h, same_disk h (m h).2.

(** The counters of a results dictionary agree with each other and with its
    list of records, for a mock tester that started from nothing. *)
Definition consistent (r : Results) : Prop :=
  total_attempts r = (successful_blueprints r + failed_blueprints r)%Z ∧
  total_attempts r = Z.of_nat (length (blueprints r)) ∧
  retry_count r = 0%Z.

(** ** The auto-tester that runs the toolchain *)

(** How a [subprocess.run] call ends: the process exits, the timeout
    expires, or the call itself raises. *)
Inductive process_outcome :=
| Exited (returncode : Z) (stdout stderr : string)
| TimedOut
| Failed (e : exn).

(** The external commands: [run_process argv cwd] acts on the folders and
    text files of the working directory. *)
Class Toolchain := {
  run_process :
    list string → string → gset string * gmap string string →
    process_outcome * (gset string * gmap string string)
}.

Definition subprocess_run `{Toolchain} (argv : list string) (cwd : string)
  : T process_outcome :=
  λ h, let r := run_process argv cwd (folders h, texts h) in
       (inr r.1,
        mkHost (pipeline h) r.2.1 r.2.2 (results_json h) (clock_reads h)).

(** [q] is [p] or lies below it. *)
Definition under (p q : string) : Prop :=
  q = p ∨ startswith (p +:+ "/") q = true.

(** [shutil.rmtree(p)] *)
Definition rmtree (p : string) : T unit :=
  λ h, if is_dir h p then
         (inr tt,
          mkHost (pipeline h) (filter (λ q, ¬ under p q) (folders h))
            (filter (λ kv, ¬ under p kv.1) (texts h))
            (results_json h) (clock_reads h))
       else (inl (Exception "NotADirectoryError"), h).

(** The dictionary [generate_code_with_retry] returns; a key that is not
    set is [None]. *)
Record Generation := mkGeneration {
  gen_success : bool;
  gen_attempts : nat;
  gen_error : option string;
  gen_code : option string;
  gen_project_dir : option string;
  gen_test_output : option string;
  gen_ai_response : option string;
  gen_sources : option (list SourceInfo);
  gen_last_stderr : option string
}.

(** How the loop over the code blocks of one answer ends: with the
    [return] of a block that passed, or with the prompt and the [stderr]
    it leaves for the next attempt. *)
Inductive blocks_outcome :=
| Passed (g : Generation)
| NonePassed (prompt : string) (stderr : option string).

Module RealTester.
Import ScryptoAutoTester.

Section Methods.
Context `{Libraries} `{Clock} `{Toolchain} `{Interpreter}.

(** [create_scrypto_project] *)
Definition create_scrypto_project (code project_name : string)
  : T (option string) :=
  let project_dir := path_div "output" project_name in
  h <~ get_host ;;
  (if is_dir h project_dir || is_file h project_dir then rmtree project_dir
   else retT tt) ;;~
  out <~ subprocess_run ["scrypto"; "new-package"; project_dir] "output" ;;
  match out with
  | Exited returncode _ _ =>
      if bool_decide (returncode = 0%Z) then
        write_text (path_div (path_div project_dir "src") "lib.rs") code ;;~
        retT (Some project_dir)
      else retT None
  | TimedOut => raiseT (Exception "TimeoutExpired")
  | Failed e => raiseT e
  end.

(** [run_scrypto_test] *)
Definition run_scrypto_test (project_dir : string) : T (bool * string * string) :=
  out <~ subprocess_run ["cargo"; "test"] project_dir ;;
  match out with
  | Exited returncode stdout stderr =>
      retT (bool_decide (returncode = 0%Z), stdout, stderr)
  | TimedOut => retT (false, "", "Test timed out after 60 seconds")
  | Failed e =>
      if is_Exception e then retT (false, "", str_exn e) else raiseT e
  end.

(** The [try] block around [ask] in [generate_code_with_retry]. *)
Definition ask_result (self : Tester) (prompt : string) : T (exn + Response) :=
  try_exceptT (response <~ liftM (ask (rag_system self) prompt) ;;
               retT (inr response))
    (λ e, retT (inl e)).

(** The loop [for i, code in enumerate(code_blocks)]. *)
Fixpoint try_blocks (blocks : list string) (i attempt max_retries : nat)
    (original_prompt : string) (response : Response) (prompt : string)
    (stderr : option string) : T blocks_outcome :=
  match blocks with
  | [] => retT (NonePassed prompt stderr)
  | code :: rest =>
      t <~ datetime_now ;;
      let project_name :=
        "test_blueprint_" +:+ strftime "%H%M%S" t +:+ "_" +:+ stdpp.pretty.pretty i in
      project_dir <~ create_scrypto_project code project_name ;;
      match project_dir with
      | None =>
          try_blocks rest (S i) attempt max_retries original_prompt response
            prompt stderr
      | Some project_dir =>
          tested <~ run_scrypto_test project_dir ;;
          if tested.1.1 then
            retT (Passed (mkGeneration true (attempt + 1) None (Some code)
                            (Some project_dir) (Some tested.1.2)
                            (Some (answer response)) (Some (sources response))
                            None))
          else
            let error_context :=
              "Compilation/test errors:" +:+ newline +:+ tested.2 +:+ newline
              +:+ newline +:+ "Code that failed:" +:+ newline +:+ code in
            let prompt :=
              if attempt <? max_retries then
                original_prompt +:+ newline +:+ newline
                +:+ "The previous code had errors:" +:+ newline +:+ error_context
                +:+ newline +:+ newline
                +:+ "Please fix the errors and provide corrected Scrypto code."
              else prompt in
            try_blocks rest (S i) attempt max_retries original_prompt response
              prompt (Some tested.2)
      end
  end.

(** The loop [while attempt <= max_retries]; [remaining] counts the turns
    left, [max_retries + 1 - attempt]. *)
Fixpoint retry_loop (self : Tester) (remaining attempt max_retries : nat)
    (original_prompt prompt : string) (stderr : option string) : T Generation :=
  match remaining with
  | 0 =>
      retT (mkGeneration false attempt
              (Some "All code generation attempts failed") None None None None
              None (Some (default "No test output available" stderr)))
  | S remaining' =>
      response <~ ask_result self prompt ;;
      match response with
      | inl e =>
          retT (mkGeneration false (attempt + 1)
                  (Some ("AI generation failed: " +:+ str_exn e)) None None None
                  None None None)
      | inr response =>
          match extract_rust_code (answer response) with
          | [] =>
              if attempt <? max_retries then
                retry_loop self remaining' (S attempt) max_retries original_prompt
                  (original_prompt +:+ newline +:+ newline
                   +:+ "Please provide complete Rust/Scrypto code in a code block.")
                  stderr
              else
                retT (mkGeneration false (attempt + 1)
                        (Some "No code blocks found in AI response") None None
                        None (Some (answer response)) None None)
          | code_blocks =>
              outcome <~ try_blocks code_blocks 0 attempt max_retries
                           original_prompt response prompt stderr ;;
              match outcome with
              | Passed g => retT g
              | NonePassed prompt stderr =>
                  retry_loop self remaining' (S attempt) max_retries
                    original_prompt prompt stderr
              end
          end
      end
  end.

(** [generate_code_with_retry] *)
Definition generate_code_with_retry (self : Tester) (prompt : string)
    (max_retries : nat) : T Generation :=
  retry_loop self (S max_retries) 0 max_retries prompt prompt None.

Definition json_of (s : option string) : json :=
  match s with
  | Some s => JStr s
  | None => JNull
  end.

(** The [test_record] of the auto-tester. *)
Definition test_record (test_name prompt : string) (start_time end_time : Z)
    (result : Generation) : gmap string json :=
  <["test_name" := JStr test_name]>
    (<["prompt" := JStr prompt]>
       (<["timestamp" := JStr (isoformat start_time)]>
          (<["duration_seconds" := JSeconds (end_time - start_time)]>
             (<["success" := JBool (gen_success result)]>
                (<["attempts" := JInt (Z.of_nat (gen_attempts result))]>
                   (<["error" := json_of (gen_error result)]>
                      (<["code" := json_of (gen_code result)]>
                         (<["test_output" := json_of (gen_test_output result)]>
                            (<["ai_sources_used" :=
                                 JInt (Z.of_nat (length (default [] (gen_sources result))))]>
                               ∅))))))))).

(** [save_results] *)
Definition save_results (self : Tester) : T Tester :=
  t <~ datetime_now ;;
  let r := results self in
  let r :=
    mkResults (session_id r) (total_attempts r) (successful_blueprints r)
      (failed_blueprints r) (retry_count r) (blueprints r) (Some (isoformat t)) in
  dump_results r ;;~
  retT (mkTester (rag_system self) r).

(** [test_blueprint_generation] of [mock_auto_test_system.py] *)
Definition test_blueprint_generation (self : Tester) (prompt : string)
    (test_name : option string) : T (Tester * gmap string json) :=
  test_name <~ default_test_name test_name ;;
  start_time <~ datetime_now ;;
  result <~ generate_code_with_retry self prompt 1 ;;
  end_time <~ datetime_now ;;
  let record := test_record test_name prompt start_time end_time result in
  let attempts := Z.of_nat (gen_attempts result) in
  let r := results self in
  let r :=
    mkResults (session_id r) (total_attempts r + attempts)
      (successful_blueprints r) (failed_blueprints r) (retry_count r)
      (blueprints r) (last_updated r) in
  let r :=
    if gen_success result then
      mkResults (session_id r) (total_attempts r) (successful_blueprints r + 1)
        (failed_blueprints r) (retry_count r) (blueprints r) (last_updated r)
    else
      mkResults (session_id r) (total_attempts r) (successful_blueprints r)
        (failed_blueprints r + 1) (retry_count r) (blueprints r) (last_updated r) in
  let r :=
    if (1 <? attempts)%Z then
      mkResults (session_id r) (total_attempts r) (successful_blueprints r)
        (failed_blueprints r) (retry_count r + (attempts - 1))
        (blueprints r) (last_updated r)
    else r in
  let r :=
    mkResults (session_id r) (total_attempts r) (successful_blueprints r)
      (failed_blueprints r) (retry_count r) (blueprints r ++ [record])
      (last_updated r) in
  self <~ save_results (mkTester (rag_system self) r) ;;
  retT (self, record).

(** [print_final_summary]: its success rate divides by the number of
    successful and failed blueprints. *)
Definition print_final_summary (self : Tester) : T unit :=
  let r := results self in
  if bool_decide ((successful_blueprints r + failed_blueprints r)%Z = 0%Z) then
    raiseT (Exception "ZeroDivisionError")
  else retT tt.

(** The three tests of [run_demo_tests]. *)
Definition demo_tests (self : Tester) : T Tester :=
  first <~ test_blueprint_generation self
             "Create a simple Scrypto blueprint that stores a greeting message and has a function to return it"
             (Some "simple_greeting_blueprint") ;;
  second <~ test_blueprint_generation first.1
              "Create a Scrypto blueprint for an admin-controlled NFT with mint and burn functions"
              (Some "admin_nft_blueprint") ;;
  third <~ test_blueprint_generation second.1
             "Create a Scrypto blueprint that creates a simple token with fixed supply"
             (Some "simple_token_blueprint") ;;
  retT third.1.

(** [run_demo_tests] of [mock_auto_test_system.py] *)
Definition run_demo_tests (self : Tester) : T (Tester * Results) :=
  self <~ demo_tests self ;;
  print_final_summary self ;;~
  retT (self, results self).

(** [main] of [mock_auto_test_system.py] *)
Definition main : T Z :=
  try_exceptT
    (import_rag_system ;;~
     rag <~ liftM (__init__ "kb/cleaned" "./vectorstore_openrouter"
                     "meta-llama/llama-3.1-8b-instruct") ;;
     auto_tester <~ tester_init rag ;;
     run_demo_tests auto_tester ;;~
     retT 0%Z)
    (λ _, retT 1%Z).

End Methods.
End RealTester.

(** The counters of a results dictionary agree: every attempt is a first
    attempt of a test that succeeded or failed, or a retry. *)
Definition balanced (r : Results) : Prop :=
  total_attempts r =
    (successful_blueprints r + failed_blueprints r + retry_count r)%Z.

Module ReferenceTools.

(** A toolchain whose [scrypto new-package] creates the package folders and
    whose [cargo test] fails on the first run and passes afterwards, as
    told by the presence of a marker file. *)
Definition run (argv : list string) (cwd : string)
    (disk : gset string * gmap string string)
  : process_outcome * (gset string * gmap string string) :=
  match argv with
  | ["scrypto"; "new-package"; dir] =>
      (Exited 0 "" "", ({[ dir; dir +:+ "/src" ]} ∪ disk.1, disk.2))
  | ["cargo"; "test"] =>
      match disk.2 !! "tested" with
      | Some _ => (Exited 0 "test result: ok." "", disk)
      | None =>
          (Exited 101 "" "error[E0432]: unresolved import",
           (disk.1, <["tested" := ""]> disk.2))
      end
  | _ => (Failed (FileNotFoundError "No such file or directory"), disk)
  end.

Definition toolchain : Toolchain := {| run_process := run |}.

End ReferenceTools.

(** Computations of the host that leave the world of the pipeline as it
    is, and runs that add the given calls to it and change nothing else. *)
Definition keeps_pipeline {A} (m : T A) : Prop :=
  ∀ h, pipeline (m h).2 = pipeline h.


(** A tester with a ready pipeline and empty results, in a host that has
    the [output] folder and no [results.json]. *)
Module Bench.

Definition tester : Tester :=
  mkTester Scenario.ready_self (mkResults "session" 0 0 0 0 [] None).

Definition host : Host := mkHost Scenario.persisted {[ "output" ]} ∅ None 0.


End Bench.

(** Whether a run ended with a value rather than an exception. *)
Definition returned {A} (r : exn + A) : bool :=
  match r with
  | inl _ => false
  | inr _ => true
  end.

(** * Properties *)

(** ** Strings *)

Lemma append_nil_r (s : string) : s +:+ "" = s.
Proof. induction s as [|c s IH]; [reflexivity|]. unfold String.app in *. simpl. by rewrite IH. Qed.

Lemma append_cons (c : ascii) (s t : string) :
  String c s +:+ t = String c (s +:+ t).
Proof. reflexivity. Qed.

Lemma append_nil_l (s : string) : "" +:+ s = s.
Proof. reflexivity. Qed.

Lemma str_take_drop (n : nat) (s : string) : str_take n s +:+ str_drop n s = s.
Proof.
  revert s; induction n as [|n IH]; intros [|c s]; try reflexivity.
  simpl. rewrite append_cons. by rewrite IH.
Qed.

Lemma length_str_take (n : nat) (s : string) :
  String.length (str_take n s) = n `min` String.length s.
Proof.
  revert s; induction n as [|n IH]; intros [|c s]; simpl; try reflexivity.
  by rewrite IH.
Qed.

Lemma length_str_drop (n : nat) (s : string) :
  String.length (str_drop n s) = String.length s - n.
Proof.
  revert s; induction n as [|n IH]; intros [|c s]; simpl; try reflexivity.
  by rewrite IH.
Qed.


Lemma str_drop_app (n : nat) (s t : string) :
  n ≤ String.length s → str_drop n (s +:+ t) = str_drop n s +:+ t.
Proof.
  revert s; induction n as [|n IH]; intros s Hn; [reflexivity|].
  destruct s as [|c s]; simpl in Hn; [lia|].
  rewrite append_cons. simpl. apply IH. lia.
Qed.

Lemma length_app (s t : string) :
  String.length (s +:+ t) = String.length s + String.length t.
Proof.
  induction s as [|c s IH]; [reflexivity|].
  rewrite append_cons. simpl. by rewrite IH.
Qed.

Lemma length_zero_empty (s : string) : String.length s = 0 → s = "".
Proof. by destruct s. Qed.

(** ** Code points *)

Lemma py_len_app (s t : string) : py_len (s +:+ t) = py_len s + py_len t.
Proof.
  induction s as [|c s IH]; [reflexivity|].
  rewrite append_cons. cbn [py_len]. rewrite IH. lia.
Qed.

Lemma py_len_take (n : nat) (s : string) :
  py_len (py_take n s) = n `min` py_len s.
Proof.
  revert n. induction s as [|c s IH]; intros n; cbn [py_take py_len].
  - lia.
  - destruct (is_continuation c) eqn:E.
    + cbn [py_len]. rewrite E, IH. lia.
    + destruct n as [|n]; [reflexivity|]. cbn [py_len]. rewrite E, IH. lia.
Qed.

(** The slice ends where a code point ends: what it leaves begins with the
    first byte of a code point. *)
Lemma py_take_split (n : nat) (s : string) :
  ∃ rest, s = py_take n s +:+ rest ∧ at_boundary rest.
Proof.
  revert n. induction s as [|c s IH]; intros n; cbn [py_take].
  - by exists "".
  - destruct (is_continuation c) eqn:E.
    + destruct (IH n) as (rest & Hs & Hb). exists rest. split; [|exact Hb].
      rewrite append_cons. by f_equal.
    + destruct n as [|n].
      * exists (String c s). split; [reflexivity|exact E].
      * destruct (IH n) as (rest & Hs & Hb). exists rest. split; [|exact Hb].
        rewrite append_cons. by f_equal.
Qed.

(** ** The response assembler *)

Lemma append_sources_spec (docs : list Document) (acc : list SourceInfo) :
  append_sources docs acc = acc ++ (source_info <$> docs).
Proof.
  revert acc; induction docs as [|d docs IH]; intros acc; simpl.
  - by rewrite app_nil_r.
  - rewrite IH. by rewrite <- app_assoc.
Qed.

Section Ask.
Context `{Libraries}.

(** What [ask] returns once the chain is set, in terms of what the chain
    returns. *)
Lemma ask_run (self : RadixRAGSystemOpenRouter) (chain : RetrievalQA)
    (q : string) (w : World) :
  qa_chain self = Some chain →
  ask self q w =
    match call_chain chain q w with
    | (inr res, w') =>
        (inr (mkResponse q (result res) (source_info <$> source_documents res)), w')
    | (inl e, w') => (inl e, w')
    end.
Proof.
  intros Hc. unfold ask. rewrite Hc. unfold bind.
  destruct (call_chain chain q w) as [[e|res] w']; [reflexivity|].
  unfold ret. by rewrite append_sources_spec.
Qed.

End Ask.

Lemma snippet_of_short (content : string) :
  py_len content ≤ 200 → snippet_of content = content.
Proof.
  intros Hle. unfold snippet_of.
  destruct (200 <? py_len content) eqn:E; [|reflexivity].
  apply Nat.ltb_lt in E. lia.
Qed.

Lemma snippet_of_long (content : string) :
  200 < py_len content →
  snippet_of content = py_take 200 content +:+ "...".
Proof.
  intros Hlt. unfold snippet_of.
  destruct (200 <? py_len content) eqn:E; [reflexivity|].
  apply Nat.ltb_ge in E. lia.
Qed.

Section AskClaims.
Context `{Libraries}.

(** C7. When the chain returns the retrieved chunks [c1..cn], [ask] returns
    a response with exactly one source record per chunk, in retrieval order:
    record [i] carries the metadata of chunk [i], and its snippet is the
    chunk's whole text when that has at most 200 characters (code points),
    and otherwise the first 200 characters of the text followed by the
    marker [...]. The cut falls between two characters: the text is the 200
    characters kept followed by a non-empty rest that begins with the first
    byte of a character. *)
Theorem ask_one_source_per_chunk (self : RadixRAGSystemOpenRouter)
    (chain : RetrievalQA) (q : string) (w w' : World) (res : ChainResult) :
  qa_chain self = Some chain →
  call_chain chain q w = (inr res, w') →
  ∃ resp,
    ask self q w = (inr resp, w') ∧
    length (sources resp) = length (source_documents res) ∧
    ∀ i doc, source_documents res !! i = Some doc →
      ∃ s, sources resp !! i = Some s ∧
        s = source_info doc ∧
        (py_len (page_content doc) ≤ 200 →
           snippet s = page_content doc) ∧
        (200 < py_len (page_content doc) →
           snippet s = py_take 200 (page_content doc) +:+ "..." ∧
           py_len (py_take 200 (page_content doc)) = 200 ∧
           ∃ rest,
             page_content doc = py_take 200 (page_content doc) +:+ rest ∧
             rest ≠ "" ∧ at_boundary rest).
Proof.
  intros Hc Hrun. rewrite (ask_run self chain q w Hc), Hrun.
  eexists; split; [reflexivity|]. simpl. split; [by rewrite length_fmap|].
  intros i doc Hi. exists (source_info doc).
  split; [by rewrite list_lookup_fmap, Hi|]. split; [reflexivity|].
  split; cbn [snippet source_info].
  - apply snippet_of_short.
  - intros Hlt. split; [by apply snippet_of_long|]. split.
    + rewrite py_len_take. lia.
    + destruct (py_take_split 200 (page_content doc)) as (rest & Hs & Hb).
      exists rest. split; [exact Hs|]. split; [|exact Hb].
      intros ->. rewrite append_nil_r in Hs.
      apply (f_equal py_len) in Hs. rewrite py_len_take in Hs. lia.
Qed.

(** C3 as amended. [ask] packages the chain's answer with one trimmed source
    record per retrieved chunk and removes no duplicates: there are as many
    records as chunks, and two retrieved chunks with the same [filename]
    give two separate records carrying that filename. *)
Theorem ask_sources_not_deduplicated (self : RadixRAGSystemOpenRouter)
    (chain : RetrievalQA) (q : string) (w w' : World) (res : ChainResult) :
  qa_chain self = Some chain →
  call_chain chain q w = (inr res, w') →
  ∃ resp,
    ask self q w = (inr resp, w') ∧
    question resp = q ∧ answer resp = result res ∧
    length (sources resp) = length (source_documents res) ∧
    ∀ i j di dj, i ≠ j →
      source_documents res !! i = Some di →
      source_documents res !! j = Some dj →
      metadata di !! "filename" = metadata dj !! "filename" →
      ∃ si sj, sources resp !! i = Some si ∧ sources resp !! j = Some sj ∧
        filename si = filename sj ∧
        py_len (snippet si) ≤ 203 ∧ py_len (snippet sj) ≤ 203.
Proof.
  intros Hc Hrun. rewrite (ask_run self chain q w Hc), Hrun.
  eexists; split; [reflexivity|]. simpl.
  do 2 (split; [reflexivity|]). split; [by rewrite length_fmap|].
  assert (Hlen : ∀ c, py_len (snippet_of c) ≤ 203).
  { intros c. unfold snippet_of. destruct (200 <? py_len c) eqn:E.
    - rewrite py_len_app, py_len_take.
      change (py_len "...") with 3. lia.
    - apply Nat.ltb_ge in E. lia. }
  intros i j di dj _ Hi Hj Hfn.
  exists (source_info di), (source_info dj).
  rewrite !list_lookup_fmap, Hi, Hj. cbn [fmap option_fmap option_map].
  unfold source_info; cbn [filename snippet]. rewrite Hfn. auto.
Qed.

(** C10. A retrieved chunk whose metadata has no [filename], [file_type] or
    [content_type] entry still gets its source record: [ask] returns
    normally and the record holds the string [Unknown] in each field whose
    entry is missing. *)
Theorem ask_missing_metadata_unknown (self : RadixRAGSystemOpenRouter)
    (chain : RetrievalQA) (q : string) (w w' : World) (res : ChainResult) :
  qa_chain self = Some chain →
  call_chain chain q w = (inr res, w') →
  ∃ resp,
    ask self q w = (inr resp, w') ∧
    ∀ i doc, source_documents res !! i = Some doc →
      ∃ s, sources resp !! i = Some s ∧
        (metadata doc !! "filename" = None → filename s = "Unknown") ∧
        (metadata doc !! "file_type" = None → file_type s = "Unknown") ∧
        (metadata doc !! "content_type" = None → content_type s = "Unknown") ∧
        snippet s = snippet_of (page_content doc).
Proof.
  intros Hc Hrun. rewrite (ask_run self chain q w Hc), Hrun.
  eexists; split; [reflexivity|]. simpl.
  intros i doc Hi. exists (source_info doc).
  split; [by rewrite list_lookup_fmap, Hi|].
  unfold source_info; simpl.
  repeat split; intros ->; reflexivity.
Qed.

(** C9. An object that is not [Ready] (its chain is not set up yet, whether
    or not the vector store already is) answers [ask] with the
    [RuntimeError] "QA chain not initialized": no response is returned,
    and nothing is retrieved or sent to the model. *)
Theorem ask_before_ready_fails (self : RadixRAGSystemOpenRouter) (q : string)
    (w : World) :
  state_of self ≠ Ready →
  ask self q w = (inl NotReadyError, w)
  ∧ ∀ resp w', ask self q w ≠ (inr resp, w').
Proof.
  intros Hst. unfold state_of in Hst.
  assert (Hq : qa_chain self = None) by (by destruct (qa_chain self)).
  unfold ask. rewrite Hq. split; [reflexivity|].
  intros resp w' Heq. discriminate Heq.
Qed.

End AskClaims.

Lemma ask_one_source_per_chunk_witness :
  ∃ res w' resp,
    call_chain (H := Reference.libraries) Scenario.accented_chain
      "What is an accent?" Scenario.persisted = (inr res, w') ∧
    source_documents res =
      [Scenario.short_accented_chunk; Scenario.long_accented_chunk] ∧
    ask (H := Reference.libraries) Scenario.accented_self
      "What is an accent?" Scenario.persisted = (inr resp, w') ∧
    snippet <$> sources resp =
      [concat_all (replicate 101 Scenario.e_acute);
       concat_all (replicate 200 Scenario.e_acute) +:+ "..."].
Proof.
  eexists _, _.
  edestruct (ask_one_source_per_chunk (H := Reference.libraries)
    Scenario.accented_self Scenario.accented_chain "What is an accent?"
    Scenario.persisted) as (resp & Hask & Hlen & Hsrc).
  - reflexivity.
  - vm_compute. reflexivity.
  - exists resp. split; [vm_compute; reflexivity|].
    split; [vm_compute; reflexivity|]. split; [exact Hask|].
    destruct (Hsrc 0 Scenario.short_accented_chunk eq_refl)
      as (s0 & Hs0 & _ & Hshort & _).
    destruct (Hsrc 1 Scenario.long_accented_chunk eq_refl)
      as (s1 & Hs1 & _ & _ & Hlong).
    destruct (sources resp) as [|x0 [|x1 [|x2 l]]]; try discriminate Hlen.
    injection Hs0 as ->. injection Hs1 as ->. cbn [fmap list_fmap].
    rewrite Hshort by (vm_compute; lia).
    destruct Hlong as (-> & _); [vm_compute; lia|]. vm_compute. reflexivity.
Defined.

(** C3, as stated, fails: with the same chunk of [lib.rs] retrieved twice,
    the response lists the same source record twice. *)
Lemma ask_sources_have_duplicates :
  ∃ resp w',
    ask (H := Reference.libraries) Scenario.ready_self "Which license?"
      Scenario.persisted = (inr resp, w') ∧
    ¬ NoDup (sources resp) ∧
    ¬ NoDup (filename <$> sources resp).
Proof.
  eexists _, _. split; [vm_compute; reflexivity|].
  split; eapply bool_decide_eq_false_1; vm_compute; reflexivity.
Qed.

Lemma ask_sources_not_deduplicated_witness :
  ∃ res w' resp,
    call_chain (H := Reference.libraries) Scenario.ready_chain
      "Which license?" Scenario.persisted = (inr res, w') ∧
    ask (H := Reference.libraries) Scenario.ready_self "Which license?"
      Scenario.persisted = (inr resp, w') ∧
    length (sources resp) = 3.
Proof.
  eexists _, _.
  edestruct (ask_sources_not_deduplicated (H := Reference.libraries)
    Scenario.ready_self Scenario.ready_chain "Which license?" Scenario.persisted)
    as (resp & Hask & _ & _ & Hlen & _).
  - reflexivity.
  - vm_compute. reflexivity.
  - exists resp. split; [vm_compute; reflexivity|]. split; [exact Hask|exact Hlen].
Defined.

Lemma ask_missing_metadata_unknown_witness :
  ∃ resp w' s,
    ask (H := Reference.libraries) Scenario.ready_self "use scrypto::prelude::*?"
      Scenario.persisted = (inr resp, w') ∧
    sources resp !! 0 = Some s ∧
    filename s = "Unknown" ∧ file_type s = "Unknown" ∧ content_type s = "Unknown".
Proof.
  edestruct (ask_missing_metadata_unknown (H := Reference.libraries)
    Scenario.ready_self Scenario.ready_chain "use scrypto::prelude::*?"
    Scenario.persisted) as (resp & Hask & Hsrc).
  - reflexivity.
  - vm_compute. reflexivity.
  - destruct (Hsrc 0 Scenario.bare_chunk) as (s & Hs & Hfn & Hft & Hct & _).
    { vm_compute. reflexivity. }
    exists resp. eexists _, s. split; [exact Hask|]. split; [exact Hs|].
    split; [apply Hfn; reflexivity|]. split; [apply Hft|apply Hct]; reflexivity.
Defined.

Lemma ask_before_ready_fails_witness :
  state_of Scenario.loading_self ≠ Ready ∧
  ask (H := Reference.libraries) Scenario.loading_self "What is a component?"
    Scenario.persisted = (inl NotReadyError, Scenario.persisted).
Proof.
  split; [discriminate|].
  refine (proj1 (ask_before_ready_fails (H := Reference.libraries)
                   Scenario.loading_self "What is a component?"
                   Scenario.persisted _)).
  discriminate.
Defined.

(** ** Loading, building and start-up *)

Section Startup.
Context `{Libraries}.

Lemma read_only_ret {A} (a : A) : read_only (ret a).
Proof. by intros w. Qed.

Lemma read_only_raise {A} (e : exn) : read_only (raise (A := A) e).
Proof. by intros w. Qed.

Lemma read_only_bind {A B} (m : M A) (k : A → M B) :
  read_only m → (∀ a, read_only (k a)) → read_only (bind m k).
Proof.
  intros Hm Hk w. unfold bind. specialize (Hm w).
  destruct (m w) as [[e|a] w1]; simpl in Hm; subst w1; [reflexivity|apply Hk].
Qed.

Lemma read_only_try_except {A} (m : M A) (handler : exn → M A) :
  read_only m → (∀ e, read_only (handler e)) → read_only (try_except m handler).
Proof.
  intros Hm Hh w. unfold try_except. specialize (Hm w).
  destruct (m w) as [[e|a] w1]; simpl in Hm; subst w1; [|reflexivity].
  destruct (is_Exception e); [apply Hh|reflexivity].
Qed.

Lemma read_only_mapM {A B} (f : A → M B) (l : list A) :
  (∀ x, read_only (f x)) → read_only (mapM f l).
Proof.
  intros Hf. induction l as [|x l IH]; [apply read_only_ret|].
  cbn [mapM]. apply read_only_bind; [apply Hf|]. intros y.
  apply read_only_bind; [apply IH|]. intros ys. apply read_only_ret.
Qed.

Lemma read_only_add_metadata (doc : Document) : read_only (add_metadata doc).
Proof.
  unfold add_metadata. destruct (metadata doc !! "source");
    [apply read_only_ret|apply read_only_raise].
Qed.

Lemma read_only_DirectoryLoader (path glob : string) :
  read_only (DirectoryLoader path glob).
Proof. by intros w. Qed.

(** Loading reads the knowledge base and changes nothing. *)
Lemma load_documents_world (self : RadixRAGSystemOpenRouter) (w : World) :
  (load_documents self w).2 = w.
Proof.
  revert w. change (read_only (load_documents self)). unfold load_documents.
  apply read_only_bind.
  { apply read_only_try_except; [apply read_only_DirectoryLoader|].
    intros _. apply read_only_ret. }
  intros md. apply read_only_bind.
  { apply read_only_try_except; [apply read_only_DirectoryLoader|].
    intros _. apply read_only_ret. }
  intros rs. apply read_only_bind.
  { apply read_only_mapM, read_only_add_metadata. }
  intros docs. apply read_only_ret.
Qed.

Lemma embed_all_run (docs : list Document) (w : World) :
  for_each docs (λ d, emit (EvEmbed (page_content d))) w =
    (inr tt,
     mkWorld (environ w) (fs w)
       (trace w ++ ((λ d, EvEmbed (page_content d)) <$> docs))).
Proof.
  revert w; induction docs as [|d docs IH]; intros w; simpl.
  - unfold ret. rewrite app_nil_r. by destruct w.
  - unfold bind, emit at 1. rewrite IH. simpl. by rewrite <- app_assoc.
Qed.

(** The run of [setup_vectorstore] when the persist directory exists. *)
Lemma setup_vectorstore_existing (self : RadixRAGSystemOpenRouter) (w : World) :
  is_Some (fs w !! persist_dir self) →
  setup_vectorstore self w =
    (inr (mkRAG (kb_path self) (persist_dir self) (model_name self)
            (Some (mkVectorStore
                     match fs w !! persist_dir self with
                     | Some (ChromaStore records) => records
                     | _ => []
                     end (persist_dir self)))
            (qa_chain self)),
     mkWorld (environ w) (fs w) (trace w ++ [EvOpenStore (persist_dir self)])).
Proof.
  intros Hex. unfold setup_vectorstore, bind, path_exists.
  rewrite bool_decide_eq_true_2 by done.
  unfold Chroma_open, bind, emit, get_world. simpl.
  destruct (fs w !! persist_dir self) as [[files|records]|]; reflexivity.
Qed.

(** The run of [setup_vectorstore] when the persist directory is absent. *)
Lemma setup_vectorstore_absent (self : RadixRAGSystemOpenRouter) (w : World) :
  fs w !! persist_dir self = None →
  setup_vectorstore self w =
    match (load_documents self w).1 with
    | inl e => (inl e, w)
    | inr [] => (inl (RuntimeError "No documents found to process!"), w)
    | inr docs =>
        let splits :=
          split_documents 1000 200 [newline +:+ newline; newline; " "; ""] docs in
        (inr (mkRAG (kb_path self) (persist_dir self) (model_name self)
                (Some (mkVectorStore splits (persist_dir self))) (qa_chain self)),
         mkWorld (environ w)
           (<[persist_dir self := ChromaStore splits]> (fs w))
           (trace w ++ ((λ d, EvEmbed (page_content d)) <$> splits)
              ++ [EvPersist (persist_dir self)]))
    end.
Proof.
  intros Hno. unfold setup_vectorstore, bind at 1, path_exists.
  rewrite bool_decide_eq_false_2 by (rewrite Hno; by intros [? ?]).
  unfold bind at 1. pose proof (load_documents_world self w) as Hw.
  destruct (load_documents self w) as [[e|docs] w1]; simpl in Hw; subst w1;
    [reflexivity|]. simpl.
  destruct docs as [|d docs]; [reflexivity|].
  rewrite bool_decide_eq_false_2 by discriminate.
  unfold Chroma_from_documents, Chroma_persist, bind.
  rewrite embed_all_run. unfold ret, write_node, emit. simpl.
  by rewrite <- app_assoc.
Qed.

(** C5. At start-up [setup_vectorstore] loads the collection persisted at
    the configured directory when there is one, embedding no chunk and
    writing nothing; an index is built (chunks embedded, the collection
    written) only when nothing exists at that directory, and then every
    split of the loaded documents is embedded and the collection persisted. *)
Theorem startup_loads_else_builds (self : RadixRAGSystemOpenRouter) (w : World) :
  (∀ records, fs w !! persist_dir self = Some (ChromaStore records) →
     ∃ self',
       setup_vectorstore self w =
         (inr self',
          mkWorld (environ w) (fs w) (trace w ++ [EvOpenStore (persist_dir self)])) ∧
       vectorstore self' = Some (mkVectorStore records (persist_dir self))) ∧
  (∀ r w', setup_vectorstore self w = (r, w') →
     ∃ evs, trace w' = trace w ++ evs ∧
       ((fs w' ≠ fs w ∨ ∃ e, e ∈ evs ∧ is_build_event e = true) →
          fs w !! persist_dir self = None)) ∧
  (∀ d docs, fs w !! persist_dir self = None →
     (load_documents self w).1 = inr (d :: docs) →
     let splits :=
       split_documents 1000 200 [newline +:+ newline; newline; " "; ""] (d :: docs) in
     ∃ self',
       setup_vectorstore self w =
         (inr self',
          mkWorld (environ w) (<[persist_dir self := ChromaStore splits]> (fs w))
            (trace w ++ ((λ c, EvEmbed (page_content c)) <$> splits)
               ++ [EvPersist (persist_dir self)])) ∧
       vectorstore self' = Some (mkVectorStore splits (persist_dir self))).
Proof.
  split; [|split].
  - intros records Hst. eexists. rewrite setup_vectorstore_existing by (by rewrite Hst).
    rewrite Hst. split; reflexivity.
  - intros r w' Hrun.
    destruct (fs w !! persist_dir self) as [n|] eqn:Hst.
    + rewrite setup_vectorstore_existing in Hrun by (by rewrite Hst).
      injection Hrun as _ <-. simpl. eexists; split; [reflexivity|].
      intros [Hfs|(e & He & Hb)]; [done|].
      apply list_elem_of_singleton in He as ->. discriminate Hb.
    + rewrite (setup_vectorstore_absent self w Hst) in Hrun.
      destruct (load_documents self w).1 as [e|[|d docs]];
        injection Hrun as _ <-; simpl.
      * exists []. by rewrite app_nil_r.
      * exists []. by rewrite app_nil_r.
      * eexists; split; [reflexivity|done].
  - intros d docs Hst Hload splits.
    rewrite (setup_vectorstore_absent self w Hst), Hload.
    eexists; split; reflexivity.
Qed.


(** C8 as amended. Without the credential in the environment the
    constructor never returns an object: when the knowledge-base path
    exists it exits with status 1 (the missing-credential exit), and when
    that path is missing too it raises [FileNotFoundError] first. In both
    cases nothing is loaded, built or sent. *)
Theorem init_without_credential_fails (kbp pd model : string) (w : World) :
  environ w !! "OPENROUTER_API_KEY" = None →
  (is_Some (fs w !! Path.str kbp) →
     __init__ kbp pd model w = (inl CredentialMissingError, w)) ∧
  (fs w !! Path.str kbp = None →
     __init__ kbp pd model w = (inl (LoadError kbp), w)) ∧
  (∀ self w', __init__ kbp pd model w ≠ (inr self, w')).
Proof.
  intros Hkey.
  assert (Hex : is_Some (fs w !! Path.str kbp) →
                __init__ kbp pd model w = (inl CredentialMissingError, w)).
  { intros Hkb. unfold __init__, bind at 1, path_exists.
    rewrite bool_decide_eq_true_2 by done. simpl.
    unfold bind at 1, getenv. by rewrite Hkey. }
  assert (Hno : fs w !! Path.str kbp = None →
                __init__ kbp pd model w = (inl (LoadError kbp), w)).
  { intros Hkb. unfold __init__, bind at 1, path_exists.
    rewrite bool_decide_eq_false_2 by (rewrite Hkb; by intros [? ?]).
    reflexivity. }
  split; [exact Hex|]. split; [exact Hno|].
  intros self w'. destruct (fs w !! Path.str kbp) eqn:E.
  - rewrite Hex by (by rewrite ?E). discriminate.
  - rewrite Hno by done. discriminate.
Qed.

End Startup.



Lemma startup_loads_else_builds_witness :
  (fs Scenario.persisted !! Scenario.store_dir =
     Some (ChromaStore [Scenario.header_chunk; Scenario.header_chunk; Scenario.bare_chunk]) ∧
   ∃ self',
     setup_vectorstore (H := Reference.libraries)
       (mkRAG Scenario.kb Scenario.store_dir Scenario.model None None)
       Scenario.persisted =
       (inr self',
        mkWorld (environ Scenario.persisted) (fs Scenario.persisted)
          [EvOpenStore Scenario.store_dir]) ∧
     vectorstore self' =
       Some (mkVectorStore
               [Scenario.header_chunk; Scenario.header_chunk; Scenario.bare_chunk]
               Scenario.store_dir)) ∧
  (fs Scenario.fresh !! Scenario.store_dir = None ∧
   ∃ self' w',
     setup_vectorstore (H := Reference.libraries)
       (mkRAG Scenario.kb Scenario.store_dir Scenario.model None None)
       Scenario.fresh = (inr self', w') ∧
     trace w' =
       [EvEmbed (snd Scenario.blueprint_md); EvEmbed (snd Scenario.token_rs);
        EvPersist Scenario.store_dir] ∧
     is_Some (fs w' !! Scenario.store_dir)).
Proof.
  pose proof (startup_loads_else_builds (H := Reference.libraries)
                (mkRAG Scenario.kb Scenario.store_dir Scenario.model None None)
                Scenario.persisted) as (Hload & _ & _).
  pose proof (startup_loads_else_builds (H := Reference.libraries)
                (mkRAG Scenario.kb Scenario.store_dir Scenario.model None None)
                Scenario.fresh) as (_ & _ & Hbuild).
  split.
  - split; [vm_compute; reflexivity|]. apply Hload. vm_compute; reflexivity.
  - split; [vm_compute; reflexivity|].
    edestruct Hbuild as (self' & Hrun & _).
    + vm_compute; reflexivity.
    + vm_compute; reflexivity.
    + eexists _, _. split; [exact Hrun|]. split; [vm_compute; reflexivity|].
      vm_compute. eexists; reflexivity.
Defined.

(** On a fresh knowledge base with a credential the constructor builds the
    index and returns a [Ready] object, and a question about blueprints is
    answered with the file that declares them among the sources. *)
Example fresh_pipeline_answers :
  ∃ self w1 resp w2,
    __init__ (H := Reference.libraries) Scenario.kb Scenario.store_dir Scenario.model
      Scenario.fresh = (inr self, w1) ∧
    state_of self = Ready ∧
    ask (H := Reference.libraries) self "How do I declare a blueprint?" w1 =
      (inr resp, w2) ∧
    "blueprint.md" ∈ filename <$> sources resp.
Proof.
  eexists _, _, _, _. split; [vm_compute; reflexivity|].
  split; [reflexivity|]. split; [vm_compute; reflexivity|].
  vm_compute. apply list_elem_of_further, list_elem_of_here.
Qed.

(** C8, as stated, fails: with neither the credential nor the knowledge
    base in place the constructor raises [FileNotFoundError], not the
    missing-credential exit. *)
Lemma init_without_credential_load_error :
  environ Scenario.bare !! "OPENROUTER_API_KEY" = None ∧
  __init__ (H := Reference.libraries) Scenario.kb Scenario.store_dir Scenario.model
    Scenario.bare =
    (inl (FileNotFoundError "Knowledge base not found at kb/cleaned"), Scenario.bare) ∧
  __init__ (H := Reference.libraries) Scenario.kb Scenario.store_dir Scenario.model
    Scenario.bare ≠ (inl CredentialMissingError, Scenario.bare).
Proof.
  split; [reflexivity|]. split; [vm_compute; reflexivity|].
  vm_compute. discriminate.
Qed.

Lemma init_without_credential_fails_witness :
  environ Scenario.no_key !! "OPENROUTER_API_KEY" = None ∧
  is_Some (fs Scenario.no_key !! Path.str Scenario.kb) ∧
  __init__ (H := Reference.libraries) Scenario.kb Scenario.store_dir Scenario.model
    Scenario.no_key = (inl CredentialMissingError, Scenario.no_key).
Proof.
  split; [reflexivity|].
  assert (Hkb : is_Some (fs Scenario.no_key !! Path.str Scenario.kb))
    by (vm_compute; eexists; reflexivity).
  split; [exact Hkb|].
  refine (proj1 (init_without_credential_fails (H := Reference.libraries)
                   Scenario.kb Scenario.store_dir Scenario.model Scenario.no_key
                   _) Hkb).
  reflexivity.
Defined.

(** ** Chunk reconstruction *)

Module ChunkerFacts.
Import Chunker.












End ChunkerFacts.

(** ** Retrieval *)

Module VectorIndexFacts.
Import VectorIndex.

Section Facts.
Context {vector score : Type}.
Variable embed : string → vector.
Variable similarity : vector → vector → score.
Variable leb : score → score → bool.

(** The comparison of scores is a total preorder. *)
Hypothesis leb_total : ∀ a b, leb a b = true ∨ leb b a = true.
Hypothesis leb_trans : ∀ a b c, leb a b = true → leb b c = true → leb a c = true.

Abbreviation insert_ranked := (insert_ranked similarity leb).
Abbreviation rank := (rank similarity leb).
Abbreviation query := (query similarity leb).
Abbreviation retrieve := (retrieve embed similarity leb).
Abbreviation score_of := (score_of similarity).

(** [r1] ranks no lower than [r2]. *)
Let no_lower (qv : vector) (r1 r2 : EmbeddingRecord) : Prop :=
  leb (score_of qv r2) (score_of qv r1) = true.

Lemma length_insert_ranked qv (r : EmbeddingRecord) ranked :
  length (insert_ranked qv r ranked) = S (length ranked).
Proof.
  induction ranked as [|r' rest IH]; simpl; [reflexivity|].
  destruct (leb _ _); simpl; [reflexivity|by rewrite IH].
Qed.

Lemma length_rank qv (index : list EmbeddingRecord) :
  length (rank qv index) = length index.
Proof.
  induction index as [|r index IH]; simpl; [reflexivity|].
  by rewrite length_insert_ranked, IH.
Qed.

Lemma Forall_insert_ranked (P : EmbeddingRecord → Prop) qv r ranked :
  P r → Forall P ranked → Forall P (insert_ranked qv r ranked).
Proof.
  intros Hr. induction 1 as [|r' rest Hr' Hrest IH]; simpl.
  - by constructor.
  - destruct (leb _ _); repeat constructor; assumption.
Qed.

Lemma Forall_rank (P : EmbeddingRecord → Prop) qv index :
  Forall P index → Forall P (rank qv index).
Proof.
  induction 1 as [|r index Hr Hindex IH]; simpl; [constructor|].
  by apply Forall_insert_ranked.
Qed.

Lemma insert_ranked_sorted qv r ranked :
  StronglySorted (no_lower qv) ranked →
  StronglySorted (no_lower qv) (insert_ranked qv r ranked).
Proof.
  induction ranked as [|r' rest IH]; simpl; intros Hs.
  - repeat constructor.
  - apply StronglySorted_cons in Hs as [Hall Hs].
    destruct (leb (score_of qv r') (score_of qv r)) eqn:E.
    + constructor; [by constructor|].
      constructor; [exact E|].
      eapply Forall_impl; [exact Hall|]. intros x Hx.
      unfold no_lower in *. by eapply leb_trans.
    + constructor; [by apply IH|].
      apply Forall_insert_ranked; [|exact Hall].
      unfold no_lower. destruct (leb_total (score_of qv r) (score_of qv r'));
        [assumption|congruence].
Qed.

Lemma rank_sorted qv index : StronglySorted (no_lower qv) (rank qv index).
Proof.
  induction index as [|r index IH]; simpl; [constructor|].
  by apply insert_ranked_sorted.
Qed.

Lemma StronglySorted_take {A} (R : A → A → Prop) (k : nat) (l : list A) :
  StronglySorted R l → StronglySorted R (take k l).
Proof.
  intros Hs. rewrite <- (take_drop k l) in Hs.
  by apply StronglySorted_app_1_l in Hs.
Qed.

Lemma take_prefix_le {A} (k1 k2 : nat) (l : list A) :
  k1 ≤ k2 → take k1 l `prefix_of` take k2 l.
Proof.
  intros Hle. replace (take k1 l) with (take k1 (take k2 l)).
  - apply prefix_take.
  - rewrite take_take. f_equal. lia.
Qed.

Lemma build_vec (chunks : list Document) :
  Forall (λ r, vec r = embed (page_content (chunk r))) (build embed chunks).
Proof.
  unfold build. apply Forall_forall. intros r Hr.
  apply list_elem_of_lookup in Hr as [i Hi].
  rewrite list_lookup_imap in Hi.
  destruct (chunks !! i); simplify_eq/=. reflexivity.
Qed.

Lemma retrieve_unfold index q k :
  retrieve index q k = chunk <$> take k (rank (embed q) index).
Proof.
  unfold VectorIndex.retrieve, VectorIndex.query.
  rewrite <- list_fmap_compose. reflexivity.
Qed.

(** C6. Against the index built from any chunks and for any question,
    [retrieve] with depth [k] returns [k] chunks, or all of them when the
    index holds fewer, so at most [k]; their similarity scores to the
    question are in non-increasing order; and for [k1 < k2] the result at
    depth [k1] is a prefix of the result at depth [k2]. *)
Theorem retrieval_monotone (chunks : list Document) (q : string) :
  let index := build embed chunks in
  let score_to_question (c : Document) :=
    similarity (embed q) (embed (page_content c)) in
  (∀ k, length (retrieve index q k) = k `min` length chunks ∧
        length (retrieve index q k) ≤ k ∧
        StronglySorted (λ a b, leb b a = true)
          (score_to_question <$> retrieve index q k)) ∧
  (∀ k1 k2, k1 < k2 → retrieve index q k1 `prefix_of` retrieve index q k2).
Proof.
  intros index score_to_question. split.
  - intros k. rewrite retrieve_unfold.
    assert (Hlen : length (chunk <$> take k (rank (embed q) index))
                   = k `min` length chunks).
    { rewrite length_fmap, length_take, length_rank.
      unfold index, build. by rewrite length_imap. }
    split; [exact Hlen|]. split; [lia|]. clear Hlen.
    rewrite <- list_fmap_compose.
    assert (Hvec : Forall (λ r, vec r = embed (page_content (chunk r)))
                     (take k (rank (embed q) index))).
    { apply Forall_take, Forall_rank, build_vec. }
    assert (Hs : StronglySorted (no_lower (embed q)) (take k (rank (embed q) index))).
    { apply StronglySorted_take, rank_sorted. }
    induction Hs as [|r l Hs IH Hall]; [constructor|].
    apply Forall_cons in Hvec as [Hr Hvec]. cbn.
    constructor; [by apply IH|].
    apply Forall_fmap, Forall_forall. intros x Hx. cbn.
    unfold score_to_question.
    rewrite <- Hr, <- (proj1 (Forall_forall _ _) Hvec x Hx).
    exact (proj1 (Forall_forall _ _) Hall x Hx).
  - intros k1 k2 Hlt. rewrite !retrieve_unfold.
    destruct (take_prefix_le k1 k2 (rank (embed q) index)) as [rest Hrest]; [lia|].
    exists (chunk <$> rest). by rewrite Hrest, fmap_app.
Qed.

End Facts.

Lemma retrieval_monotone_witness :
  VectorIndex.retrieve Reference.embed Reference.similarity Z.leb
    (build Reference.embed
       [mkDocument "aaa" ∅; mkDocument "b" ∅; mkDocument "cc" ∅; mkDocument "dd" ∅])
    "xx" 1
  `prefix_of`
  VectorIndex.retrieve Reference.embed Reference.similarity Z.leb
    (build Reference.embed
       [mkDocument "aaa" ∅; mkDocument "b" ∅; mkDocument "cc" ∅; mkDocument "dd" ∅])
    "xx" 3.
Proof.
  refine (proj2 (retrieval_monotone Reference.embed Reference.similarity Z.leb
                   _ _ [mkDocument "aaa" ∅; mkDocument "b" ∅; mkDocument "cc" ∅;
                        mkDocument "dd" ∅] "xx") 1 3 _).
  - intros a b. rewrite !Z.leb_le. lia.
  - intros a b c. rewrite !Z.leb_le. lia.
  - lia.
Defined.

End VectorIndexFacts.

(** ** The content category of loaded files *)

Lemma append_assoc (a b c : string) : (a +:+ b) +:+ c = a +:+ (b +:+ c).
Proof.
  induction a as [|x a IH]; [reflexivity|].
  rewrite !append_cons. by rewrite IH.
Qed.

Lemma lower_app (a b : string) : lower (a +:+ b) = lower a +:+ lower b.
Proof.
  induction a as [|x a IH]; [reflexivity|].
  rewrite append_cons. simpl. rewrite append_cons. by rewrite IH.
Qed.

Lemma startswith_app (n post : string) : startswith n (n +:+ post) = true.
Proof.
  induction n as [|x n IH]; [reflexivity|].
  rewrite append_cons. simpl. rewrite IH. by rewrite bool_decide_eq_true_2.
Qed.

Lemma contains_startswith (n hay : string) :
  startswith n hay = true → contains n hay = true.
Proof. intros Hs. destruct hay; simpl; by rewrite Hs. Qed.

Lemma contains_here (n post : string) : contains n (n +:+ post) = true.
Proof. apply contains_startswith, startswith_app. Qed.

Lemma contains_app (n pre post : string) :
  contains n (pre +:+ n +:+ post) = true.
Proof.
  induction pre as [|x pre IH]; [rewrite append_nil_l; apply contains_here|].
  rewrite append_cons. simpl. rewrite IH. apply orb_true_r.
Qed.

Lemma join_elem (sep x : string) (l : list string) :
  x ∈ l → ∃ pre post, join sep l = pre +:+ x +:+ post.
Proof.
  induction l as [|y l IH]; intros Hx; [by apply elem_of_nil in Hx|].
  apply elem_of_cons in Hx as [->|Hx].
  - destruct l as [|z l].
    + exists "", "". simpl. by rewrite append_nil_r.
    + exists "", (sep +:+ join sep (z :: l)). reflexivity.
  - destruct (IH Hx) as (pre & post & Hj).
    destruct l as [|z l]; [by apply elem_of_nil in Hx|].
    exists (y +:+ sep +:+ pre), post.
    change (join sep (y :: z :: l)) with (y +:+ sep +:+ join sep (z :: l)).
    rewrite Hj. by rewrite !append_assoc.
Qed.

(** A component of a path occurs in the path's string form. *)
Lemma str_part (seg file_path : string) :
  seg ∈ Path.parts file_path →
  ∃ pre post, Path.str file_path = pre +:+ seg +:+ post.
Proof.
  intros Hseg. unfold Path.str.
  destruct (join_elem "/" seg _ Hseg) as (pre & post & Hj).
  destruct (Path.parts file_path) as [|c ps] eqn:Hps;
    [by apply elem_of_nil in Hseg|].
  destruct (Path.anchored file_path).
  - exists ("/" +:+ pre), post. rewrite Hj. by rewrite append_assoc.
  - exists pre, post. exact Hj.
Qed.

Lemma examples_segment_contains (file_path : string) :
  "examples" ∈ Path.parts file_path →
  contains "example" (lower (Path.str file_path)) = true.
Proof.
  intros Hseg. destruct (str_part _ _ Hseg) as (pre & post & ->).
  rewrite !lower_app.
  change (lower "examples") with ("example" +:+ "s").
  rewrite append_assoc. apply contains_app.
Qed.

Lemma src_segment_contains (file_path : string) :
  "src" ∈ Path.parts file_path →
  contains "src" (lower (Path.str file_path)) = true.
Proof.
  intros Hseg. destruct (str_part _ _ Hseg) as (pre & post & ->).
  rewrite !lower_app. change (lower "src") with "src". apply contains_app.
Qed.

Lemma add_metadata_inr (d d' : Document) (w w' : World) :
  add_metadata d w = (inr d', w') → tagged_from d d'.
Proof.
  unfold add_metadata.
  destruct (metadata d !! "source") as [p|] eqn:Hp; [|discriminate].
  intros [= <- _]. exists p. split; [exact Hp|]. split; [reflexivity|].
  cbn [metadata]. by repeat split; simplify_map_eq.
Qed.

Lemma mapM_add_metadata_inr (docs tagged : list Document) (w : World) :
  (mapM add_metadata docs w).1 = inr tagged → Forall2 tagged_from docs tagged.
Proof.
  revert tagged w. induction docs as [|d docs IH]; intros tagged w.
  - intros [= <-]. constructor.
  - cbn [mapM]. unfold bind at 1.
    destruct (add_metadata d w) as [[e|d'] w1] eqn:Hd; [discriminate|].
    unfold bind at 1.
    destruct (mapM add_metadata docs w1) as [[e|ys] w2] eqn:Hm; [discriminate|].
    intros [= <-]. constructor.
    + by eapply add_metadata_inr.
    + apply (IH ys w1). by rewrite Hm.
Qed.

Section Loader.
Context `{Libraries}.

Lemma load_documents_inr (self : RadixRAGSystemOpenRouter) (w : World)
    (docs : list Document) :
  (load_documents self w).1 = inr docs →
  ∃ all_docs w1, (mapM add_metadata all_docs w1).1 = inr docs.
Proof.
  unfold load_documents, bind.
  destruct (try_except (DirectoryLoader (Path.str (kb_path self)) "**/*.md") _ w)
    as [[e|md] w1]; [discriminate|].
  destruct (try_except (DirectoryLoader (Path.str (kb_path self)) "**/*.rs") _ w1)
    as [[e|rs] w2]; [discriminate|].
  destruct (mapM add_metadata (md ++ rs) w2) as [[e|ys] w3] eqn:Hm; [discriminate|].
  intros [= <-]. exists (md ++ rs), w2. by rewrite Hm.
Qed.

(** C4 as amended. Every document the loader returns has its
    [content_type] set from its source path by a fixed precedence of tests
    on the whole lower-cased path string: the path contains [example]
    anywhere, then [example]; otherwise it contains [src] anywhere, then
    [source]; otherwise its suffix is [.md], then [documentation];
    otherwise [code]. So a path with an [examples] segment is an
    [example], and a path with a [src] segment is [source] unless
    [example] occurs somewhere in it. *)
Theorem loader_content_type_precedence (self : RadixRAGSystemOpenRouter)
    (w : World) (docs : list Document) :
  (load_documents self w).1 = inr docs →
  ∀ doc, doc ∈ docs →
    ∃ file_path,
      metadata doc !! "source" = Some file_path ∧
      let path := lower (Path.str file_path) in
      let category := metadata doc !! "content_type" in
      (contains "example" path = true → category = Some "example") ∧
      (contains "example" path = false → contains "src" path = true →
         category = Some "source") ∧
      (contains "example" path = false → contains "src" path = false →
         Path.suffix file_path = ".md" → category = Some "documentation") ∧
      (contains "example" path = false → contains "src" path = false →
         Path.suffix file_path ≠ ".md" → category = Some "code") ∧
      ("examples" ∈ Path.parts file_path → category = Some "example") ∧
      ("src" ∈ Path.parts file_path → contains "example" path = false →
         category = Some "source").
Proof.
  intros Hload doc Hdoc.
  destruct (load_documents_inr self w docs Hload) as (all_docs & w1 & Hm).
  apply mapM_add_metadata_inr in Hm.
  apply list_elem_of_lookup in Hdoc as [i Hi].
  destruct (Forall2_lookup_r _ _ _ _ _ Hm Hi)
    as (d & _ & p & _ & _ & Hsrc & Hct & _).
  exists p. split; [exact Hsrc|]. cbn zeta. rewrite Hct. unfold content_type_of.
  assert (Hex : "examples" ∈ Path.parts p →
                contains "example" (lower (Path.str p)) = true)
    by apply examples_segment_contains.
  assert (Hsr : "src" ∈ Path.parts p →
                contains "src" (lower (Path.str p)) = true)
    by apply src_segment_contains.
  destruct (contains "example" (lower (Path.str p)));
    destruct (contains "src" (lower (Path.str p)));
    try case_bool_decide; repeat split; intros;
    try reflexivity; try congruence;
    match goal with
    | Hin : _ ∈ Path.parts p |- _ =>
        first [apply Hex in Hin | apply Hsr in Hin]; discriminate Hin
    end.
Qed.

End Loader.

(** C4, as stated, fails: a file under a [src] segment and with no
    [examples] segment, whose name mentions [example], is loaded as an
    [example], where the segment rule gives [source]. *)
Lemma loader_category_not_by_segment :
  ∃ docs doc,
    (load_documents (H := Reference.libraries)
       (mkRAG Scenario.kb Scenario.store_dir Scenario.model None None)
       Scenario.fresh).1 = inr docs ∧
    doc ∈ docs ∧
    metadata doc !! "source" = Some "kb/cleaned/src/token_example.rs" ∧
    Path.parts "kb/cleaned/src/token_example.rs" =
      ["kb"; "cleaned"; "src"; "token_example.rs"] ∧
    segment_category "kb/cleaned/src/token_example.rs" = "source" ∧
    metadata doc !! "content_type" = Some "example".
Proof.
  eexists _, _. split; [vm_compute; reflexivity|].
  split; [apply list_elem_of_further, list_elem_of_here|].
  repeat split; vm_compute; reflexivity.
Qed.

Lemma loader_content_type_precedence_witness :
  ∃ doc,
    metadata doc !! "source" = Some "kb/cleaned/docs/blueprint.md" ∧
    metadata doc !! "content_type" = Some "documentation".
Proof.
  edestruct (loader_content_type_precedence (H := Reference.libraries)
    (mkRAG Scenario.kb Scenario.store_dir Scenario.model None None)
    Scenario.fresh) as (p & Hsrc & _ & _ & Hdoc & _).
  - vm_compute. reflexivity.
  - apply list_elem_of_here.
  - assert (Hp : p = "kb/cleaned/docs/blueprint.md").
    { vm_compute in Hsrc. congruence. }
    subst p. eexists. split; [exact Hsrc|].
    apply Hdoc; vm_compute; reflexivity.
Defined.

(** * Further properties of the pipeline *)

(** ** The constructor *)

Section Constructor.
Context `{Libraries}.

Lemma setup_vectorstore_environ (self self' : RadixRAGSystemOpenRouter)
    (w w' : World) :
  setup_vectorstore self w = (inr self', w') →
  environ w' = environ w ∧
  kb_path self' = kb_path self ∧ persist_dir self' = persist_dir self ∧
  model_name self' = model_name self ∧ qa_chain self' = qa_chain self ∧
  ∃ vs, vectorstore self' = Some vs ∧ persist_directory vs = persist_dir self.
Proof.
  destruct (fs w !! persist_dir self) as [n|] eqn:Hst.
  - rewrite setup_vectorstore_existing by (by rewrite Hst).
    intros [= <- <-]. simpl. repeat split; eauto.
  - rewrite (setup_vectorstore_absent self w Hst).
    destruct (load_documents self w).1 as [e|[|d docs]]; try discriminate.
    intros [= <- <-]. simpl. repeat split; eauto.
Qed.

(** The two guards of the constructor. *)
Lemma init_guards (kbp pd model : string) (w : World) :
  (fs w !! Path.str kbp = None →
     __init__ kbp pd model w =
       (inl (FileNotFoundError ("Knowledge base not found at " +:+ kbp)), w)) ∧
  (is_Some (fs w !! Path.str kbp) →
   (environ w !! "OPENROUTER_API_KEY" = None ∨
    environ w !! "OPENROUTER_API_KEY" = Some "") →
     __init__ kbp pd model w = (inl (SystemExit 1), w)).
Proof.
  split.
  - intros Hkb. unfold __init__, bind at 1, path_exists.
    rewrite bool_decide_eq_false_2 by (rewrite Hkb; by intros [? ?]).
    reflexivity.
  - intros Hkb Hkey. unfold __init__, bind at 1, path_exists.
    rewrite bool_decide_eq_true_2 by done. simpl.
    unfold bind at 1, getenv. by destruct Hkey as [-> | ->].
Qed.

(** X1. The constructor checks the knowledge-base path first and the
    credential second: without the path it raises [FileNotFoundError] naming
    the path as it was given, whatever the environment holds; with the path
    but a credential that is unset or the empty string, it exits with status
    1. Neither failure opens, builds or writes anything. *)
Theorem init_guards_in_order (kbp pd model : string) (w : World) :
  (fs w !! Path.str kbp = None →
     __init__ kbp pd model w =
       (inl (FileNotFoundError ("Knowledge base not found at " +:+ kbp)), w)) ∧
  (is_Some (fs w !! Path.str kbp) →
   (environ w !! "OPENROUTER_API_KEY" = None ∨
    environ w !! "OPENROUTER_API_KEY" = Some "") →
     __init__ kbp pd model w = (inl (SystemExit 1), w)).
Proof. exact (init_guards kbp pd model w). Qed.

(** What the constructor has done when it returns. *)
Lemma init_ready (kbp pd model : string) (w w' : World)
    (self : RadixRAGSystemOpenRouter) :
  __init__ kbp pd model w = (inr self, w') →
  state_of self = Ready ∧
  kb_path self = kbp ∧ persist_dir self = pd ∧ model_name self = model ∧
  (∃ vs key,
     vectorstore self = Some vs ∧ persist_directory vs = pd ∧
     environ w !! "OPENROUTER_API_KEY" = Some key ∧ key ≠ "" ∧
     qa_chain self = Some (mkRetrievalQA model (Some key) vs 6)) ∧
  environ w' = environ w ∧
  is_Some (fs w !! Path.str kbp).
Proof.
  unfold __init__, bind at 1, path_exists. simpl.
  case_bool_decide as Hkb; simpl; [|discriminate].
  unfold bind at 1, getenv. simpl.
  destruct (environ w !! "OPENROUTER_API_KEY") as [key|] eqn:Hkey; simpl;
    [|discriminate].
  case_bool_decide as Hempty; simpl; [discriminate|].
  unfold bind at 1.
  destruct (setup_vectorstore _ w) as [[e|self1] w1] eqn:Hsetup; [discriminate|].
  apply setup_vectorstore_environ in Hsetup
    as (Henv & Hk & Hp & Hm & Hq & vs & Hvs & Hdir). simpl in *.
  unfold bind at 1, setup_qa_chain, bind, getenv. simpl.
  rewrite Hvs, Henv, Hkey. unfold ret. intros [= <- <-].
  unfold state_of. simpl. rewrite Hk, Hp, Hm.
  repeat split; try done.
  by exists vs, key.
Qed.

(** X2. An object the constructor returns is [Ready]: it keeps the paths and
    the model it was given, its vector store persists to the given
    directory, and its chain uses that very store with retrieval depth 6,
    the given model and the non-empty credential found in the environment.
    The knowledge-base path existed, and the environment is unchanged. *)
Theorem init_returns_ready (kbp pd model : string) (w w' : World)
    (self : RadixRAGSystemOpenRouter) :
  __init__ kbp pd model w = (inr self, w') →
  state_of self = Ready ∧
  kb_path self = kbp ∧ persist_dir self = pd ∧ model_name self = model ∧
  (∃ vs key,
     vectorstore self = Some vs ∧ persist_directory vs = pd ∧
     environ w !! "OPENROUTER_API_KEY" = Some key ∧ key ≠ "" ∧
     qa_chain self = Some (mkRetrievalQA model (Some key) vs 6)) ∧
  environ w' = environ w ∧
  is_Some (fs w !! Path.str kbp).
Proof. exact (init_ready kbp pd model w w' self). Qed.

End Constructor.

Lemma init_guards_in_order_witness :
  __init__ (H := Reference.libraries) Scenario.kb Scenario.store_dir Scenario.model
    (mkWorld {[ "OPENROUTER_API_KEY" := "" ]} (fs Scenario.no_key) []) =
    (inl (SystemExit 1),
     mkWorld {[ "OPENROUTER_API_KEY" := "" ]} (fs Scenario.no_key) []).
Proof.
  refine (proj2 (init_guards_in_order (H := Reference.libraries) Scenario.kb
                   Scenario.store_dir Scenario.model
                   (mkWorld {[ "OPENROUTER_API_KEY" := "" ]} (fs Scenario.no_key) []))
            _ _).
  - vm_compute. eexists; reflexivity.
  - right. reflexivity.
Defined.

Lemma init_returns_ready_witness :
  ∃ self w',
    __init__ (H := Reference.libraries) Scenario.kb Scenario.store_dir Scenario.model
      Scenario.fresh = (inr self, w') ∧
    state_of self = Ready ∧ persist_dir self = Scenario.store_dir.
Proof.
  assert (Hrun : ∃ self w', __init__ (H := Reference.libraries) Scenario.kb
            Scenario.store_dir Scenario.model Scenario.fresh = (inr self, w'))
    by (eexists _, _; vm_compute; reflexivity).
  destruct Hrun as (self & w' & Hrun).
  destruct (init_returns_ready (H := Reference.libraries) _ _ _ _ _ _ Hrun)
    as (Hready & _ & Hdir & _).
  exists self, w'. split; [exact Hrun|]. split; [exact Hready|exact Hdir].
Defined.

Section Reuse.
Context `{Libraries}.

Lemma init_run (kbp pd model key : string) (w : World) :
  is_Some (fs w !! Path.str kbp) →
  environ w !! "OPENROUTER_API_KEY" = Some key → key ≠ "" →
  __init__ kbp pd model w =
    match setup_vectorstore (mkRAG kbp pd model None None) w with
    | (inl e, w1) => (inl e, w1)
    | (inr self1, w1) => setup_qa_chain self1 w1
    end.
Proof.
  intros Hkb Hkey Hne. unfold __init__, bind at 1, path_exists.
  rewrite bool_decide_eq_true_2 by done. simpl.
  unfold bind at 1, getenv. rewrite Hkey. simpl.
  rewrite bool_decide_eq_false_2 by done. simpl.
  unfold bind at 1.
  destruct (setup_vectorstore _ w) as [[e|self1] w1]; [reflexivity|].
  unfold bind. destruct (setup_qa_chain self1 w1) as [[e|self2] w2]; reflexivity.
Qed.

(** X3. Constructing the pipeline a second time, in the world the first
    construction left behind, takes the load branch: it succeeds whatever
    model is chosen, holds the same vector store as the first object,
    embeds nothing and writes nothing; its only call is opening the store. *)
Theorem second_startup_reuses_index (kbp pd model model2 : string)
    (w w' : World) (self : RadixRAGSystemOpenRouter) :
  __init__ kbp pd model w = (inr self, w') →
  ∃ self2,
    __init__ kbp pd model2 w' =
      (inr self2, mkWorld (environ w') (fs w') (trace w' ++ [EvOpenStore pd])) ∧
    vectorstore self2 = vectorstore self ∧
    state_of self2 = Ready.
Proof.
  intros Hrun.
  destruct (init_ready _ _ _ _ _ _ Hrun)
    as (_ & _ & _ & _ & (vs & key & Hvs & _ & Hkey & Hne & _) & Henv & Hkb).
  rewrite (init_run kbp pd model key w Hkb Hkey Hne) in Hrun.
  assert (Hkey' : environ w' !! "OPENROUTER_API_KEY" = Some key)
    by (by rewrite Henv).
  destruct (fs w !! pd) as [n|] eqn:Hst.
  - rewrite setup_vectorstore_existing in Hrun by (simpl; by rewrite Hst).
    unfold setup_qa_chain, bind, getenv, ret in Hrun. simpl in Hrun.
    injection Hrun as <- <-. simpl in *.
    erewrite init_run; [|exact Hkb|exact Hkey'|exact Hne].
    rewrite setup_vectorstore_existing by (simpl; by rewrite Hst).
    unfold setup_qa_chain, bind, getenv, ret. simpl.
    eexists; split; [reflexivity|]. split; reflexivity.
  - rewrite (setup_vectorstore_absent (mkRAG kbp pd model None None) w Hst) in Hrun.
    destruct (load_documents _ w).1 as [e|[|d docs]]; try discriminate.
    unfold setup_qa_chain, bind, getenv, ret in Hrun. simpl in Hrun.
    injection Hrun as <- <-. simpl in *.
    assert (Hkb' : is_Some (<[pd := ChromaStore
                (split_documents 1000 200 [newline +:+ newline; newline; " "; ""]
                   (d :: docs))]> (fs w) !! Path.str kbp)).
    { destruct (decide (pd = Path.str kbp)) as [->|Hne'].
      - rewrite lookup_insert_eq. eauto.
      - by rewrite lookup_insert_ne. }
    erewrite init_run; [|exact Hkb'|exact Hkey'|exact Hne].
    rewrite setup_vectorstore_existing
      by (simpl; rewrite lookup_insert_eq; eauto).
    unfold setup_qa_chain, bind, getenv, ret. simpl.
    rewrite lookup_insert_eq.
    eexists; split; [reflexivity|]. split; reflexivity.
Qed.

End Reuse.

Lemma second_startup_reuses_index_witness :
  ∃ self w' self2 w'',
    __init__ (H := Reference.libraries) Scenario.kb Scenario.store_dir Scenario.model
      Scenario.fresh = (inr self, w') ∧
    __init__ (H := Reference.libraries) Scenario.kb Scenario.store_dir
      "meta-llama/llama-3.1-8b-instruct" w' = (inr self2, w'') ∧
    vectorstore self2 = vectorstore self ∧
    trace w'' = trace w' ++ [EvOpenStore Scenario.store_dir].
Proof.
  assert (Hrun : ∃ self w', __init__ (H := Reference.libraries) Scenario.kb
            Scenario.store_dir Scenario.model Scenario.fresh = (inr self, w'))
    by (eexists _, _; vm_compute; reflexivity).
  destruct Hrun as (self & w' & Hrun).
  destruct (second_startup_reuses_index (H := Reference.libraries) _ _ _
              "meta-llama/llama-3.1-8b-instruct" _ _ _ Hrun)
    as (self2 & Hrun2 & Hvs & _).
  exists self, w', self2. eexists. split; [exact Hrun|].
  split; [exact Hrun2|]. split; [exact Hvs|reflexivity].
Defined.

(** ** Asking *)

Section AskRequests.
Context `{Libraries}.

(** What a call of [ask] on an object with a chain does. *)
Lemma ask_request (self : RadixRAGSystemOpenRouter) (chain : RetrievalQA)
    (q : string) (w : World) :
  qa_chain self = Some chain →
  let docs :=
    similarity_search (collection (retriever_store chain)) q (retriever_k chain) in
  let prompt :=
    prompt_template (join (newline +:+ newline) (page_content <$> docs)) q in
  ask self q w =
    (match ChatOpenAI_call (llm_model chain) (llm_api_key chain) prompt with
     | inl e => inl e
     | inr text => inr (mkResponse q text (source_info <$> docs))
     end,
     mkWorld (environ w) (fs w) (trace w ++ calls_for chain q)).
Proof.
  intros Hc docs prompt. rewrite (ask_run self chain q w Hc).
  unfold call_chain, bind, emit, calls_for, request_for. fold docs. fold prompt.
  cbn [environ fs trace]. rewrite <- app_assoc. cbn [app].
  destruct (ChatOpenAI_call _ _ prompt); reflexivity.
Qed.

(** X4. A call of [ask] on an object with a chain makes exactly two calls:
    the question as given is passed to the embedding function for the
    search, then one completion request is sent, the one for that
    question; nothing else is touched. When the request fails, [ask]
    raises the very exception of the request and returns no response; when
    it succeeds, the response repeats the question and carries the
    completion as its answer. *)
Theorem ask_sends_one_request (self : RadixRAGSystemOpenRouter)
    (chain : RetrievalQA) (q : string) (w : World) :
  qa_chain self = Some chain →
  ∃ r,
    ask self q w =
      (r, mkWorld (environ w) (fs w)
            (trace w ++ [EvEmbed q; request_for chain q])) ∧
    (∀ e, r = inl e →
       ∃ prompt, request_for chain q = EvCompletion (llm_model chain) prompt ∧
         ChatOpenAI_call (llm_model chain) (llm_api_key chain) prompt = inl e) ∧
    (∀ resp, r = inr resp →
       question resp = q ∧
       ∃ prompt, request_for chain q = EvCompletion (llm_model chain) prompt ∧
         ChatOpenAI_call (llm_model chain) (llm_api_key chain) prompt =
           inr (answer resp)).
Proof.
  intros Hc. rewrite (ask_request self chain q w Hc). cbn zeta.
  eexists; split; [reflexivity|].
  destruct (ChatOpenAI_call _ _ _) as [e|text] eqn:Hcall; split;
    intros x [= <-]; try split; try reflexivity; eexists; split;
    try reflexivity; exact Hcall.
Qed.

End AskRequests.

Lemma ask_sends_one_request_witness :
  ∃ e w',
    ask (H := Reference.libraries)
      (mkRAG Scenario.kb Scenario.store_dir Scenario.model None
         (Some (mkRetrievalQA Scenario.model None
                  (mkVectorStore [Scenario.bare_chunk] Scenario.store_dir) 6)))
      "What is a badge?" Scenario.persisted = (inl e, w') ∧
    e = Exception "AuthenticationError" ∧
    length (trace w') = 2.
Proof.
  destruct (ask_sends_one_request (H := Reference.libraries)
    (mkRAG Scenario.kb Scenario.store_dir Scenario.model None
       (Some (mkRetrievalQA Scenario.model None
                (mkVectorStore [Scenario.bare_chunk] Scenario.store_dir) 6)))
    _ "What is a badge?" Scenario.persisted eq_refl) as (r & Hask & Herr & _).
  assert (Hr : r = inl (Exception "AuthenticationError")).
  { vm_compute in Hask. congruence. }
  eexists _, _. split; [rewrite Hask, Hr; reflexivity|].
  split; reflexivity.
Defined.

(** ** The loader *)

Lemma mapM_add_metadata_sourced (docs : list Document) (w : World) :
  Forall (λ d, is_Some (metadata d !! "source")) docs →
  ∃ tagged, mapM add_metadata docs w = (inr tagged, w) ∧
            Forall2 tagged_from docs tagged.
Proof.
  induction 1 as [|d docs [p Hp] Hdocs (tagged & IH & Htag)].
  - exists []. split; [reflexivity|constructor].
  - pose proof (add_metadata_inr d) as Hd.
    cbn [mapM]. unfold bind at 1. unfold add_metadata in *. rewrite Hp in *.
    unfold ret at 1. unfold bind at 1. rewrite IH.
    eexists; split; [reflexivity|]. constructor; [|exact Htag].
    by eapply (Hd _ w w).
Qed.

Lemma mapM_add_metadata_unsourced (docs : list Document) (w : World) :
  ¬ Forall (λ d, is_Some (metadata d !! "source")) docs →
  mapM add_metadata docs w = (inl (KeyError "source"), w).
Proof.
  induction docs as [|d docs IH]; intros Hno.
  - destruct Hno. constructor.
  - cbn [mapM]. unfold bind at 1. unfold add_metadata at 1.
    destruct (metadata d !! "source") as [p|] eqn:Hp; [|reflexivity].
    unfold ret at 1. unfold bind at 1. rewrite IH; [reflexivity|].
    intros Hall. apply Hno. constructor; [by rewrite Hp|exact Hall].
Qed.

Section LoaderFacts.
Context `{Libraries}.

Lemma try_load_run (path glob : string) (w : World) :
  (∀ code, DirectoryLoader_load w path glob ≠ inl (SystemExit code)) →
  try_except (DirectoryLoader path glob) (λ _, ret []) w =
    (inr (loaded (DirectoryLoader_load w path glob)), w).
Proof.
  intros Hno. unfold try_except, DirectoryLoader.
  destruct (DirectoryLoader_load w path glob) as [e|docs]; [|reflexivity].
  destruct e; try reflexivity. by destruct (Hno code).
Qed.

(** X5. The loader swallows the failure of either directory load: as long
    as neither load ends the process, it goes on with the markdown
    documents followed by the Rust documents, a failed load counting as no
    documents. It then returns them in that order, one tagged document per
    loaded document with the text unchanged. Only a document without a
    [source] entry makes it fail, with [KeyError]. The world is left as it
    was. *)
Theorem load_documents_swallows_load_failures (self : RadixRAGSystemOpenRouter)
    (w : World) :
  let md := DirectoryLoader_load w (Path.str (kb_path self)) "**/*.md" in
  let rs := DirectoryLoader_load w (Path.str (kb_path self)) "**/*.rs" in
  (∀ code, md ≠ inl (SystemExit code)) →
  (∀ code, rs ≠ inl (SystemExit code)) →
  (Forall (λ d, is_Some (metadata d !! "source")) (loaded md ++ loaded rs) →
     ∃ docs, load_documents self w = (inr docs, w) ∧
             Forall2 tagged_from (loaded md ++ loaded rs) docs) ∧
  (¬ Forall (λ d, is_Some (metadata d !! "source")) (loaded md ++ loaded rs) →
     load_documents self w = (inl (KeyError "source"), w)).
Proof.
  intros md rs Hmd Hrs.
  assert (Hrun : load_documents self w =
            match mapM add_metadata (loaded md ++ loaded rs) w with
            | (inl e, w1) => (inl e, w1)
            | (inr docs, w1) => (inr docs, w1)
            end).
  { unfold load_documents. unfold bind at 1. rewrite (try_load_run _ _ w Hmd).
    unfold bind at 1. rewrite (try_load_run _ _ w Hrs).
    unfold bind at 1. fold md rs.
    destruct (mapM add_metadata (loaded md ++ loaded rs) w) as [[e|docs] w1];
      reflexivity. }
  split.
  - intros Hall.
    destruct (mapM_add_metadata_sourced _ w Hall) as (docs & Hm & Htag).
    exists docs. by rewrite Hrun, Hm.
  - intros Hno. by rewrite Hrun, (mapM_add_metadata_unsourced _ w Hno).
Qed.

(** X6. The citation [ask] builds for a document as the loader returned it
    names the file: its [filename] is the name of the source path, its
    [file_type] the suffix of that path, and its [content_type] is one of
    [example], [source], [documentation] and [code]; none of the three
    falls back to the default. *)
Theorem loaded_document_citation (self : RadixRAGSystemOpenRouter) (w : World)
    (docs : list Document) (doc : Document) :
  (load_documents self w).1 = inr docs →
  doc ∈ docs →
  ∃ file_path,
    metadata doc !! "source" = Some file_path ∧
    source_info doc =
      mkSourceInfo (Path.name file_path) (Path.suffix file_path)
        (content_type_of file_path) (snippet_of (page_content doc)) ∧
    content_type (source_info doc) ∈ ["example"; "source"; "documentation"; "code"].
Proof.
  intros Hload Hdoc.
  destruct (load_documents_inr self w docs Hload) as (all_docs & w1 & Hm).
  apply mapM_add_metadata_inr in Hm.
  apply list_elem_of_lookup in Hdoc as [i Hi].
  destruct (Forall2_lookup_r _ _ _ _ _ Hm Hi)
    as (d & _ & p & _ & _ & Hsrc & Hct & Hfn & Hft).
  exists p. split; [exact Hsrc|]. unfold source_info.
  rewrite Hct, Hfn, Hft. split; [reflexivity|]. cbn [content_type default from_option].
  unfold content_type_of.
  repeat case_match; set_solver.
Qed.

End LoaderFacts.

Lemma load_documents_swallows_load_failures_witness :
  ∃ docs,
    load_documents (H := Reference.libraries)
      (mkRAG "missing/kb" Scenario.store_dir Scenario.model None None)
      Scenario.fresh = (inr docs, Scenario.fresh) ∧ docs = [].
Proof.
  destruct (load_documents_swallows_load_failures (H := Reference.libraries)
    (mkRAG "missing/kb" Scenario.store_dir Scenario.model None None)
    Scenario.fresh) as (Hok & _).
  - intros code. vm_compute. discriminate.
  - intros code. vm_compute. discriminate.
  - destruct Hok as (docs & Hrun & Htag).
    { vm_compute. constructor. }
    exists docs. split; [exact Hrun|]. vm_compute in Htag. by inversion Htag.
Defined.

Lemma loaded_document_citation_witness :
  ∃ doc,
    source_info doc =
      mkSourceInfo "token_example.rs" ".rs" "example" "fn instantiate() {}".
Proof.
  edestruct (loaded_document_citation (H := Reference.libraries)
    (mkRAG Scenario.kb Scenario.store_dir Scenario.model None None)
    Scenario.fresh) as (p & Hsrc & Hinfo & _).
  - vm_compute. reflexivity.
  - apply list_elem_of_further, list_elem_of_here.
  - assert (Hp : p = "kb/cleaned/src/token_example.rs").
    { vm_compute in Hsrc. congruence. }
    subst p. eexists. rewrite Hinfo. vm_compute. reflexivity.
Defined.

(** ** The interactive session *)

Lemma and_then_run (first : shown) (rest : M session) (w : World) :
  and_then first rest w =
    match rest w with
    | (inl e, w') => (inl e, w')
    | (inr s, w') => (inr (first :: s.1, s.2), w')
    end.
Proof. unfold and_then, bind. by destruct (rest w) as [[e|s] w']. Qed.

Section SessionFacts.
Context `{Libraries}.

(** X7. Nothing is read after the session has been left: the inputs that
    follow an exit command ([exit], [quit] or [q], in any case and with
    surrounding blanks) or an interrupt change neither what the session
    shows nor what it does. *)
Theorem session_ignores_input_after_exit (self : RadixRAGSystemOpenRouter)
    (before after : list console_input) (last : console_input) (w : World) :
  ends_session [last] = true →
  interactive_mode self (before ++ last :: after) w =
    interactive_mode self (before ++ [last]) w.
Proof.
  intros Hlast. revert w.
  induction before as [|i before IH]; intros w.
  - destruct last as [text| |]; simpl in *; try discriminate; [|reflexivity].
    rewrite orb_false_r in Hlast. unfold is_exit in Hlast.
    by rewrite Hlast.
  - destruct i as [text| |]; cbn [app interactive_mode]; [|reflexivity|].
    + repeat case_bool_decide; try reflexivity; try apply IH.
      * rewrite !and_then_run, IH. reflexivity.
      * rewrite !and_then_run, IH. reflexivity.
      * unfold bind. destruct (answer_question self (strip text) w) as [[e|out] w1];
          [reflexivity|]. rewrite !and_then_run, IH. reflexivity.
    + rewrite !and_then_run, IH. reflexivity.
Qed.

(** A question put to an object without a chain is answered by the
    not-initialised error, which the session catches. *)
Lemma answer_question_not_ready (self : RadixRAGSystemOpenRouter) (q : string)
    (w : World) :
  qa_chain self = None →
  answer_question self q w = (inr (ShownError NotReadyError), w).
Proof.
  intros Hq. unfold answer_question, try_except, bind, ask. by rewrite Hq.
Qed.

(** X8. A session on an object whose chain is not set up never fails and
    never changes the world: it shows no answer, and shows the
    not-initialised error once for every question it is asked, going on to
    the next input each time. A line of white space only, whichever the
    white-space characters, is no question. *)
Theorem session_on_unready_object (self : RadixRAGSystemOpenRouter)
    (inputs : list console_input) (w : World) :
  qa_chain self = None →
  ∃ t,
    interactive_mode self inputs w = (inr (t, ends_session inputs), w) ∧
    (∀ r, ShownAnswer r ∉ t) ∧
    filter (λ e, e = NotReadyError) (errors_shown t) =
      replicate (length (questions_asked inputs)) NotReadyError.
Proof.
  intros Hq. induction inputs as [|i inputs (t & IH & Hno & Hcount)].
  - exists []. repeat split. intros r Hr. by apply elem_of_nil in Hr.
  - destruct i as [text| |]; cbn [interactive_mode questions_asked ends_session existsb].
    + unfold is_question, is_exit.
      case_bool_decide as Hexit; cbn [negb andb orb].
      { exists [ShownGoodbye]. repeat split. intros r Hr.
        apply list_elem_of_singleton in Hr. discriminate. }
      case_bool_decide as Hhelp; cbn [negb andb].
      { rewrite and_then_run, IH. exists (ShownHelp :: t). repeat split.
        - intros r Hr. apply elem_of_cons in Hr as [?|Hr]; [discriminate|].
          by apply (Hno r).
        - exact Hcount. }
      case_bool_decide as Hmodels; cbn [negb andb].
      { rewrite and_then_run, IH. exists (ShownModels :: t). repeat split.
        - intros r Hr. apply elem_of_cons in Hr as [?|Hr]; [discriminate|].
          by apply (Hno r).
        - exact Hcount. }
      case_bool_decide as Hblank; cbn [negb].
      { rewrite IH. exists t. repeat split; assumption. }
      unfold bind. rewrite (answer_question_not_ready self _ w Hq).
      rewrite and_then_run, IH.
      exists (ShownError NotReadyError :: t). repeat split.
      * intros r Hr. apply elem_of_cons in Hr as [?|Hr]; [discriminate|].
        by apply (Hno r).
      * cbn [errors_shown omap list_omap]. fold (errors_shown t).
        rewrite filter_cons_True by reflexivity.
        cbn [length replicate]. by rewrite Hcount.
    + exists [ShownGoodbye]. repeat split. intros r Hr.
      apply list_elem_of_singleton in Hr. discriminate.
    + rewrite and_then_run, IH.
      exists (ShownError (Exception "EOFError") :: t). repeat split.
      * intros r Hr. apply elem_of_cons in Hr as [?|Hr]; [discriminate|].
        by apply (Hno r).
      * cbn [errors_shown omap list_omap]. fold (errors_shown t).
        rewrite filter_cons_False by discriminate. exact Hcount.
Qed.

Lemma answer_question_run (self : RadixRAGSystemOpenRouter)
    (chain : RetrievalQA) (q : string) (w : World) :
  qa_chain self = Some chain →
  (∀ model key prompt code,
     ChatOpenAI_call model key prompt ≠ inl (SystemExit code)) →
  ∃ out,
    answer_question self q w =
      (inr out, mkWorld (environ w) (fs w) (trace w ++ calls_for chain q)).
Proof.
  intros Hc Hno. unfold answer_question, try_except, bind.
  rewrite (ask_request self chain q w Hc). cbn zeta.
  destruct (ChatOpenAI_call _ _ _) as [e|text] eqn:Hcall.
  - destruct e; try (eexists; reflexivity). by destruct (Hno _ _ _ _ Hcall).
  - eexists; reflexivity.
Qed.

(** A whole session on an object with a chain. *)
Lemma session_run (self : RadixRAGSystemOpenRouter)
    (chain : RetrievalQA) (inputs : list console_input) (w : World) :
  qa_chain self = Some chain →
  (∀ model key prompt code,
     ChatOpenAI_call model key prompt ≠ inl (SystemExit code)) →
  ∃ t,
    interactive_mode self inputs w =
      (inr (t, ends_session inputs),
       mkWorld (environ w) (fs w)
         (trace w ++ (questions_asked inputs ≫= calls_for chain))).
Proof.
  intros Hc Hno. revert w.
  induction inputs as [|i inputs IH]; intros w.
  - exists []. cbn. rewrite app_nil_r. by destruct w.
  - destruct i as [text| |]; cbn [interactive_mode questions_asked ends_session existsb].
    + unfold is_question, is_exit.
      case_bool_decide as Hexit; cbn [negb andb orb].
      { exists [ShownGoodbye]. cbn. rewrite app_nil_r. by destruct w. }
      case_bool_decide as Hhelp; cbn [negb andb].
      { destruct (IH w) as (t & IHw). rewrite and_then_run, IHw.
        by exists (ShownHelp :: t). }
      case_bool_decide as Hmodels; cbn [negb andb].
      { destruct (IH w) as (t & IHw). rewrite and_then_run, IHw.
        by exists (ShownModels :: t). }
      case_bool_decide as Hblank; cbn [negb].
      { destruct (IH w) as (t & IHw). rewrite IHw. by exists t. }
      unfold bind.
      destruct (answer_question_run self chain (strip text) w Hc Hno) as (out & ->).
      rewrite and_then_run.
      destruct (IH (mkWorld (environ w) (fs w)
                      (trace w ++ calls_for chain (strip text)))) as (t & ->).
      exists (out :: t). cbn [fst snd environ fs trace mbind list_bind].
      by rewrite <- app_assoc.
    + exists [ShownGoodbye]. cbn. rewrite app_nil_r. by destruct w.
    + destruct (IH w) as (t & IHw). rewrite and_then_run, IHw.
      by exists (ShownError (Exception "EOFError") :: t).
Qed.

(** X9. A session on an object with a chain, whose completion calls never
    end the process, never fails, whatever the completion calls raise. For
    every question, in the order the questions were typed and for the
    stripped text, it passes the question to the embedding function and
    sends one completion request; blank lines (of any white space),
    [help], [models] and everything after the exit cause no call, and
    nothing but these calls reaches the world. *)
Theorem session_requests_in_order (self : RadixRAGSystemOpenRouter)
    (chain : RetrievalQA) (inputs : list console_input) (w : World) :
  qa_chain self = Some chain →
  (∀ model key prompt code,
     ChatOpenAI_call model key prompt ≠ inl (SystemExit code)) →
  ∃ t,
    interactive_mode self inputs w =
      (inr (t, ends_session inputs),
       mkWorld (environ w) (fs w)
         (trace w ++ (questions_asked inputs ≫= calls_for chain))).
Proof. exact (session_run self chain inputs w). Qed.

End SessionFacts.

Lemma session_ignores_input_after_exit_witness :
  interactive_mode (H := Reference.libraries) Scenario.ready_self
    [Line "help"; Line "  QUIT "; Line "What is a badge?"] Scenario.persisted =
  (inr ([ShownHelp; ShownGoodbye], true), Scenario.persisted).
Proof.
  change [Line "help"; Line "  QUIT "; Line "What is a badge?"]
    with ([Line "help"] ++ Line "  QUIT " :: [Line "What is a badge?"]).
  rewrite (session_ignores_input_after_exit (H := Reference.libraries)
             Scenario.ready_self [Line "help"] [Line "What is a badge?"]
             (Line "  QUIT ") Scenario.persisted)
    by (vm_compute; reflexivity).
  vm_compute. reflexivity.
Defined.

Lemma session_on_unready_object_witness :
  ∃ t,
    interactive_mode (H := Reference.libraries) Scenario.loading_self
      [Line "What is a badge?"; Line ""; Line nbsp;
       Line (nbsp +:+ "exit" +:+ nbsp); Line "What is a token?"]
      Scenario.persisted =
      (inr (t, true), Scenario.persisted) ∧
    errors_shown t = [NotReadyError].
Proof.
  destruct (session_on_unready_object (H := Reference.libraries)
    Scenario.loading_self
    [Line "What is a badge?"; Line ""; Line nbsp;
     Line (nbsp +:+ "exit" +:+ nbsp); Line "What is a token?"]
    Scenario.persisted eq_refl) as (t & Hrun & _).
  exists t. split; [exact Hrun|].
  vm_compute in Hrun. injection Hrun as <-. reflexivity.
Defined.

Lemma session_requests_in_order_witness :
  ∃ t w',
    interactive_mode (H := Reference.libraries) Scenario.ready_self
      [Line " What is a badge? "; Line nbsp; Line "models";
       Line (nbsp +:+ "Q"); Line "ignored"]
      Scenario.persisted = (inr (t, true), w') ∧
    trace w' = [EvEmbed "What is a badge?";
                request_for (H := Reference.libraries) Scenario.ready_chain
                  "What is a badge?"].
Proof.
  destruct (session_requests_in_order (H := Reference.libraries)
    Scenario.ready_self Scenario.ready_chain
    [Line " What is a badge? "; Line nbsp; Line "models";
     Line (nbsp +:+ "Q"); Line "ignored"]
    Scenario.persisted eq_refl) as (t & Hrun).
  - intros model key prompt code. unfold ChatOpenAI_call. simpl.
    unfold Reference.complete. by destruct key.
  - exists t. eexists. split; [exact Hrun|]. vm_compute. reflexivity.
Defined.

(** ** [main] *)

Section MainFacts.
Context `{Libraries}.

Lemma main_run (inputs : list console_input) (w : World) :
  main inputs w =
    match __init__ "kb/cleaned" "./vectorstore_openrouter"
            "anthropic/claude-3.5-sonnet" w with
    | (inl e, w1) => if is_Exception e then (inr (Some 1%Z), w1) else (inl e, w1)
    | (inr rag, w1) =>
        match interactive_mode rag inputs w1 with
        | (inl e, w2) =>
            if is_Exception e then (inr (Some 1%Z), w2) else (inl e, w2)
        | (inr s, w2) => (inr (if s.2 then Some 0%Z else None), w2)
        end
    end.
Proof.
  unfold main, try_except, bind.
  destruct (__init__ _ _ _ w) as [[e|rag] w1]; [reflexivity|].
  destruct (interactive_mode rag inputs w1) as [[e|s] w2]; reflexivity.
Qed.

(** X10. [main] turns a failed construction into its return value 1: when
    the knowledge base [kb/cleaned] is missing, and whenever the constructor
    raises an ordinary exception, it returns 1 without reading any input.
    A missing or empty credential is different: the exit with status 1
    raised by the constructor passes through [main] uncaught. *)
Theorem main_startup_failures (inputs : list console_input) (w : World) :
  (fs w !! "kb/cleaned" = None → main inputs w = (inr (Some 1%Z), w)) ∧
  (∀ e w1,
     __init__ "kb/cleaned" "./vectorstore_openrouter"
       "anthropic/claude-3.5-sonnet" w = (inl e, w1) →
     is_Exception e = true → main inputs w = (inr (Some 1%Z), w1)) ∧
  (is_Some (fs w !! "kb/cleaned") →
   (environ w !! "OPENROUTER_API_KEY" = None ∨
    environ w !! "OPENROUTER_API_KEY" = Some "") →
   main inputs w = (inl (SystemExit 1), w)).
Proof.
  pose proof (init_guards "kb/cleaned" "./vectorstore_openrouter"
                "anthropic/claude-3.5-sonnet" w) as [Hkb Hkey].
  change (Path.str "kb/cleaned") with "kb/cleaned" in *.
  split; [|split].
  - intros Hno. by rewrite main_run, (Hkb Hno).
  - intros e w1 Hrun He. by rewrite main_run, Hrun, He.
  - intros Hex Hk. by rewrite main_run, (Hkey Hex Hk).
Qed.

(** X11. Once the constructor has returned, nothing that goes wrong with a
    question makes [main] return 1: provided the completion calls never end
    the process, [main] returns 0 as soon as the inputs contain an exit
    command or an interrupt, and is otherwise still waiting for input.
    The session changes the world the constructor left by its calls only:
    for every question, in order, the question is passed to the embedding
    function and one completion request is sent to the chain the
    constructor has set up; environment and file system stay as the
    constructor left them. *)
Theorem main_returns_zero_after_session (inputs : list console_input)
    (w w1 : World) (rag : RadixRAGSystemOpenRouter) :
  __init__ "kb/cleaned" "./vectorstore_openrouter"
    "anthropic/claude-3.5-sonnet" w = (inr rag, w1) →
  (∀ model key prompt code,
     ChatOpenAI_call model key prompt ≠ inl (SystemExit code)) →
  ∃ chain,
    qa_chain rag = Some chain ∧
    main inputs w =
      (inr (if ends_session inputs then Some 0%Z else None),
       mkWorld (environ w1) (fs w1)
         (trace w1 ++ (questions_asked inputs ≫= calls_for chain))).
Proof.
  intros Hrun Hno.
  destruct (init_ready _ _ _ _ _ _ Hrun)
    as (_ & _ & _ & _ & (vs & key & _ & _ & _ & _ & Hchain) & _).
  destruct (session_run rag _ inputs w1 Hchain Hno) as (t & Hs).
  eexists. split; [exact Hchain|]. by rewrite main_run, Hrun, Hs.
Qed.

End MainFacts.

Lemma main_startup_failures_witness :
  main (H := Reference.libraries) [Line "What is a badge?"; Line "exit"]
    Scenario.bare = (inr (Some 1%Z), Scenario.bare).
Proof.
  refine (proj1 (main_startup_failures (H := Reference.libraries)
                   [Line "What is a badge?"; Line "exit"] Scenario.bare) _).
  reflexivity.
Defined.

(** The default paths of the constructor, with a knowledge base and a
    credential in place. *)
Lemma main_returns_zero_after_session_witness :
  ∃ w2,
    main (H := Reference.libraries) [Line "What is a badge?"; Line "exit"]
      (mkWorld Scenario.key_env
         {[ "kb/cleaned" := Directory [Scenario.blueprint_md] ]} []) =
      (inr (Some 0%Z), w2) ∧
    EvEmbed "What is a badge?" ∈ trace w2.
Proof.
  assert (Hrun : ∃ rag w1,
            __init__ (H := Reference.libraries) "kb/cleaned"
              "./vectorstore_openrouter" "anthropic/claude-3.5-sonnet"
              (mkWorld Scenario.key_env
                 {[ "kb/cleaned" := Directory [Scenario.blueprint_md] ]} []) =
              (inr rag, w1))
    by (eexists _, _; vm_compute; reflexivity).
  destruct Hrun as (rag & w1 & Hrun).
  destruct (main_returns_zero_after_session (H := Reference.libraries)
              [Line "What is a badge?"; Line "exit"] _ _ _ Hrun)
    as (chain & _ & Hmain).
  - intros model key prompt code. unfold ChatOpenAI_call. simpl.
    unfold Reference.complete. by destruct key.
  - eexists. split; [exact Hmain|]. cbn [trace].
    apply elem_of_app. right. vm_compute. apply list_elem_of_here.
Defined.

(** * The auto-testers *)

(** ** Searching in strings *)

Lemma startswith_split (n s : string) :
  startswith n s = true ↔ ∃ r, s = n +:+ r.
Proof.
  split.
  - revert s. induction n as [|a n IH]; intros s Hs.
    + by exists s.
    + destruct s as [|b s]; [discriminate|]. simpl in Hs.
      apply andb_true_iff in Hs as [Hab Hs]. apply bool_decide_eq_true in Hab as ->.
      destruct (IH s Hs) as [r ->]. by exists r.
  - intros [r ->]. apply startswith_app.
Qed.

Lemma contains_split (n s : string) :
  contains n s = true ↔ ∃ pre post, s = pre +:+ n +:+ post.
Proof.
  split.
  - induction s as [|c s IH]; simpl; intros Hc.
    + rewrite orb_false_r in Hc. apply startswith_split in Hc as [r ->].
      by exists "", r.
    + apply orb_true_iff in Hc as [Hs|Hc].
      * apply startswith_split in Hs as [r ->]. by exists "", r.
      * destruct (IH Hc) as (pre & post & ->). by exists (String c pre), post.
  - intros (pre & post & ->). apply contains_app.
Qed.

Lemma contains_mono (n pre s post : string) :
  contains n s = true → contains n (pre +:+ s +:+ post) = true.
Proof.
  intros (a & b & ->)%contains_split. apply contains_split.
  exists (pre +:+ a), (b +:+ post). by rewrite !append_assoc.
Qed.

Lemma str_find_contains (n s : string) (i : nat) :
  str_find n s = Some i → contains n s = true.
Proof.
  revert i. induction s as [|c s IH]; intros i; simpl.
  - destruct (startswith n ""); [done|discriminate].
  - destruct (startswith n (String c s)); [done|]. simpl.
    destruct (str_find n s) as [j|]; [|discriminate]. intros _. by apply (IH j).
Qed.

Lemma str_find_none (n s : string) :
  contains n s = false → str_find n s = None.
Proof.
  induction s as [|c s IH]; simpl; intros Hc.
  - rewrite orb_false_r in Hc. by rewrite Hc.
  - apply orb_false_iff in Hc as [-> Hc]. by rewrite (IH Hc).
Qed.

(** The first occurrence splits the text, and the needle does not occur in
    what precedes it joined to the needle less its last character. *)
Lemma str_find_split (n s : string) (i : nat) :
  str_find n s = Some i →
  s = str_take i s +:+ n +:+ str_drop (i + String.length n) s.
Proof.
  revert i. induction s as [|c s IH]; intros i; simpl.
  - destruct (startswith n "") eqn:Hs; [|discriminate]. intros [= <-].
    apply startswith_split in Hs as [r Hr]. destruct n; [|discriminate].
    reflexivity.
  - destruct (startswith n (String c s)) eqn:Hs.
    + intros [= <-]. apply startswith_split in Hs as [r Hr].
      rewrite Hr at 1. simpl. rewrite append_nil_l. f_equal.
      rewrite Hr. rewrite str_drop_app by lia.
      replace (str_drop (String.length n) n) with "";
        [reflexivity|].
      clear. induction n; [reflexivity|]. simpl. exact IHn.
    + destruct (str_find n s) as [j|] eqn:Hf; [|discriminate].
      intros [= <-]. simpl. rewrite append_cons. f_equal. by apply IH.
Qed.

Lemma str_find_first (n s : string) (i : nat) :
  str_find n s = Some i →
  ∀ j, j < i → startswith n (str_drop j s) = false.
Proof.
  revert i. induction s as [|c s IH]; intros i; simpl.
  - destruct (startswith n ""); [|discriminate]. intros [= <-] j Hj. lia.
  - destruct (startswith n (String c s)) eqn:Hs; [intros [= <-] j Hj; lia|].
    destruct (str_find n s) as [k|] eqn:Hf; [|discriminate].
    intros [= <-] j Hj. destruct j as [|j]; [exact Hs|].
    simpl. apply (IH k eq_refl). lia.
Qed.

Lemma str_drop_length_app (pre x : string) :
  str_drop (String.length pre) (pre +:+ x) = x.
Proof. induction pre as [|c pre IH]; [reflexivity|]. rewrite append_cons. exact IH. Qed.

Lemma str_find_take_free (n s : string) (k : nat) :
  n ≠ "" → str_find n s = Some k → contains n (str_take k s) = false.
Proof.
  intros Hn Hf. destruct (contains n (str_take k s)) eqn:Hc; [|reflexivity].
  apply contains_split in Hc as (pre & post & Hc).
  assert (Hlen : String.length pre < k).
  { apply (f_equal String.length) in Hc.
    rewrite length_str_take, !length_app in Hc.
    destruct n; [done|]. simpl in Hc. lia. }
  pose proof (str_find_first n s k Hf _ Hlen) as Hno.
  rewrite <- (str_take_drop k s), Hc, !append_assoc, str_drop_length_app in Hno.
  by rewrite startswith_app in Hno.
Qed.

(** Every match of the scan lies in the text between an opening and a
    closing, and holds no closing itself. *)
Lemma findall_fuel_elem (fuel : nat) (opening closing text c : string) :
  closing ≠ "" →
  c ∈ findall_fuel fuel opening closing text →
  ∃ pre post,
    text = pre +:+ opening +:+ c +:+ closing +:+ post ∧
    contains closing c = false.
Proof.
  intros Hcl. revert text.
  induction fuel as [|fuel IH]; intros text; cbn [findall_fuel].
  { intros Hc. by apply elem_of_nil in Hc. }
  destruct (str_find opening text) as [i|] eqn:Hi;
    [|intros Hc; by apply elem_of_nil in Hc].
  cbn zeta.
  destruct (str_find closing (str_drop (i + String.length opening) text))
    as [k|] eqn:Hk; [|intros Hc; by apply elem_of_nil in Hc].
  pose proof (str_find_split _ _ _ Hi) as Htext.
  pose proof (str_find_split _ _ _ Hk) as Hbody.
  set (body := str_drop (i + String.length opening) text) in *.
  intros [->|Hc]%elem_of_cons.
  - exists (str_take i text), (str_drop (k + String.length closing) body).
    split; [by rewrite <- Hbody|]. by apply str_find_take_free.
  - destruct (IH _ Hc) as (pre & post & Hrest & Hfree).
    exists (str_take i text +:+ opening +:+ str_take k body +:+ closing +:+ pre), post.
    split; [|exact Hfree].
    rewrite !append_assoc, <- Hrest, <- Hbody. exact Htext.
Qed.

(** More fuel than the length of the text changes nothing. *)
Lemma findall_fuel_enough (fuel : nat) (opening closing text : string) :
  closing ≠ "" →
  String.length text ≤ fuel →
  findall_fuel fuel opening closing text = findall opening closing text.
Proof.
  intros Hcl. unfold findall.
  assert (Hgen : ∀ f1 f2 t, String.length t ≤ f1 → String.length t ≤ f2 →
            findall_fuel f1 opening closing t = findall_fuel f2 opening closing t).
  { induction f1 as [|f1 IH]; intros f2 t H1 H2.
    - rewrite (length_zero_empty t) by lia. destruct f2; [reflexivity|].
      cbn [findall_fuel]. destruct (str_find opening "") as [i|] eqn:Hi;
        [|reflexivity].
      cbn zeta. destruct (str_find closing _) as [k|] eqn:Hk; [|reflexivity].
      apply str_find_split, (f_equal String.length) in Hk.
      rewrite length_str_drop, !length_app in Hk. simpl in Hk.
      destruct closing; [done|simpl in Hk; lia].
    - destruct f2 as [|f2].
      + rewrite (length_zero_empty t) by lia. cbn [findall_fuel].
        destruct (str_find opening "") as [i|] eqn:Hi; [|reflexivity].
        cbn zeta. destruct (str_find closing _) as [k|] eqn:Hk; [|reflexivity].
        apply str_find_split, (f_equal String.length) in Hk.
        rewrite length_str_drop, !length_app in Hk. simpl in Hk.
        destruct closing; [done|simpl in Hk; lia].
      + cbn [findall_fuel]. destruct (str_find opening t) as [i|] eqn:Hi;
          [|reflexivity].
        cbn zeta. destruct (str_find closing _) as [k|] eqn:Hk; [|reflexivity].
        f_equal.
        assert (Hshort : String.length
                  (str_drop (k + String.length closing)
                     (str_drop (i + String.length opening) t)) < String.length t).
        { pose proof (f_equal String.length (str_find_split _ _ _ Hk)) as Hl.
          rewrite !length_app in Hl. rewrite !length_str_drop in *.
          destruct closing; [done|simpl in *; lia]. }
        apply IH; lia. }
  intros Hlen. by apply Hgen.
Qed.

(** ** Stripping *)

Ltac bool_facts :=
  repeat match goal with
         | H : (_ && _) = true |- _ => apply andb_true_iff in H as [? ?]
         | H : (_ || _) = true |- _ => apply orb_true_iff in H as [?|?]
         | H : (_ =? _) = true |- _ => apply Nat.eqb_eq in H
         | H : (_ <=? _) = true |- _ => apply Nat.leb_le in H
         end.

Lemma blank_byte_high (c : ascii) : 128 ≤ nat_of_ascii c → blank_byte c = true.
Proof.
  intros Hc. unfold blank_byte. apply orb_true_iff. right. by apply Nat.leb_le.
Qed.

Lemma all_blank_app (a b : string) :
  all_blank (a +:+ b) ↔ all_blank a ∧ all_blank b.
Proof.
  induction a as [|c a IH]; [cbn; tauto|].
  rewrite append_cons. cbn [all_blank]. tauto.
Qed.

Lemma lstrip_unfold (s : string) :
  lstrip s = match skip_space s with Some s' => lstrip s' | None => s end.
Proof.
  destruct s as [|c1 s1]; [reflexivity|]. cbn [lstrip skip_space].
  destruct (is_space1 c1); [reflexivity|].
  destruct s1 as [|c2 s2]; [reflexivity|].
  destruct (is_space2 c1 c2); [reflexivity|].
  destruct s2 as [|c3 s3]; [reflexivity|].
  destruct (is_space3 c1 c2 c3); reflexivity.
Qed.

(** A white-space code point is one to three blank bytes. *)
Lemma skip_space_split (s s' : string) :
  skip_space s = Some s' →
  ∃ l, s = l +:+ s' ∧ l ≠ "" ∧ all_blank l.
Proof.
  destruct s as [|c1 s1]; [discriminate|]. cbn [skip_space].
  destruct (is_space1 c1) eqn:E1.
  { intros [= <-]. exists (String c1 ""). repeat split; [done|].
    unfold blank_byte. by rewrite E1. }
  destruct s1 as [|c2 s2]; [discriminate|].
  destruct (is_space2 c1 c2) eqn:E2.
  { intros [= <-]. exists (String c1 (String c2 "")). split; [reflexivity|].
    split; [done|]. unfold is_space2 in E2. bool_facts;
      (repeat split; try apply blank_byte_high; lia). }
  destruct s2 as [|c3 s3]; [discriminate|].
  destruct (is_space3 c1 c2 c3) eqn:E3; [|discriminate].
  intros [= <-]. exists (String c1 (String c2 (String c3 ""))).
  split; [reflexivity|]. split; [done|]. unfold is_space3 in E3. bool_facts;
    (repeat split; try apply blank_byte_high; lia).
Qed.

Lemma skip_space_shorter (s s' : string) :
  skip_space s = Some s' → String.length s' < String.length s.
Proof.
  intros (l & -> & Hl & _)%skip_space_split. rewrite length_app.
  destruct l; [done|]. simpl. lia.
Qed.

Lemma skip_space_app (a a' b : string) :
  skip_space a = Some a' → skip_space (a +:+ b) = Some (a' +:+ b).
Proof.
  destruct a as [|c1 s1]; [discriminate|]. rewrite append_cons.
  cbn [skip_space]. destruct (is_space1 c1); [by intros [= <-]|].
  destruct s1 as [|c2 s2]; [discriminate|]. rewrite append_cons.
  destruct (is_space2 c1 c2); [by intros [= <-]|].
  destruct s2 as [|c3 s3]; [discriminate|]. rewrite append_cons.
  destruct (is_space3 c1 c2 c3); [by intros [= <-]|discriminate].
Qed.

(** Induction on strings along [skip_space]. *)
Lemma skip_space_ind (P : string → Prop) :
  (∀ s, skip_space s = None → P s) →
  (∀ s s', skip_space s = Some s' → P s' → P s) →
  ∀ s, P s.
Proof.
  intros Hnone Hsome s.
  assert (Hgen : ∀ n t, String.length t ≤ n → P t); [|by apply (Hgen (String.length s) s)].
  induction n as [|n IH]; intros t Hlen.
  - apply Hnone. by rewrite (length_zero_empty t) by lia.
  - destruct (skip_space t) as [t'|] eqn:E; [|by apply Hnone].
    apply (Hsome t t' E), IH. apply skip_space_shorter in E. lia.
Qed.

Lemma lstrip_split (s : string) : ∃ l, s = l +:+ lstrip s ∧ all_blank l.
Proof.
  induction s as [s Hs|s s' Hs (l & IH & Hl)] using skip_space_ind;
    rewrite lstrip_unfold, Hs.
  - by exists "".
  - apply skip_space_split in Hs as (l0 & -> & _ & Hl0).
    exists (l0 +:+ l). split; [by rewrite append_assoc, <- IH|].
    by apply all_blank_app.
Qed.

(** What [lstrip] returns begins with no white space, and text that begins
    with none is returned as it is. *)
Lemma lstrip_clean (s : string) : skip_space (lstrip s) = None.
Proof.
  induction s as [s Hs|s s' Hs IH] using skip_space_ind;
    rewrite lstrip_unfold, Hs; [exact Hs|exact IH].
Qed.

Lemma lstrip_id (s : string) : skip_space s = None → lstrip s = s.
Proof. intros Hs. by rewrite lstrip_unfold, Hs. Qed.

(** White space before a text is stripped with it. *)
Lemma lstrip_app_blank (a b : string) :
  lstrip a = "" → lstrip (a +:+ b) = lstrip b.
Proof.
  induction a as [a Ha|a a' Ha IH] using skip_space_ind.
  - rewrite (lstrip_id a Ha). by intros ->.
  - rewrite (lstrip_unfold a), Ha. intros Hblank.
    rewrite (lstrip_unfold (a +:+ b)), (skip_space_app _ _ b Ha). by apply IH.
Qed.

Lemma lstrip_empty_blank (s : string) : lstrip s = "" → all_blank s.
Proof.
  intros Hs. destruct (lstrip_split s) as (l & Hl & Hb).
  rewrite Hs, append_nil_r in Hl. by subst l.
Qed.

Lemma rstrip_split (s : string) : ∃ r, s = rstrip s +:+ r ∧ lstrip r = "".
Proof.
  induction s as [|c s (r & IH & Hr)]; [by exists ""|]. cbn [rstrip].
  case_bool_decide as Hb.
  - by exists (String c s).
  - exists r. split; [|exact Hr]. rewrite append_cons. by f_equal.
Qed.

Lemma strip_split (s : string) :
  ∃ l r, s = l +:+ strip s +:+ r ∧ all_blank l ∧ all_blank r.
Proof.
  destruct (lstrip_split s) as (l & Hl & Hbl).
  destruct (rstrip_split (lstrip s)) as (r & Hr & Hbr).
  exists l, r. unfold strip. rewrite <- Hr.
  split; [exact Hl|]. split; [exact Hbl|by apply lstrip_empty_blank].
Qed.

Lemma rstrip_clean (s : string) :
  skip_space s = None → skip_space (rstrip s) = None.
Proof.
  intros Hs. destruct (rstrip_split s) as (r & Hr & _).
  destruct (skip_space (rstrip s)) as [x|] eqn:E; [|reflexivity].
  apply (skip_space_app _ _ r) in E. rewrite <- Hr in E. congruence.
Qed.

Lemma rstrip_idem (s : string) : rstrip (rstrip s) = rstrip s.
Proof.
  induction s as [|c s IH]; [reflexivity|]. cbn [rstrip].
  case_bool_decide as Hb; [reflexivity|]. cbn [rstrip].
  rewrite bool_decide_eq_false_2; [by rewrite IH|].
  intros Hblank. apply Hb.
  destruct (rstrip_split s) as (r & Hr & Hbr).
  rewrite Hr at 1. rewrite <- append_cons.
  by rewrite (lstrip_app_blank _ r Hblank).
Qed.

Lemma strip_idem (s : string) : strip (strip s) = strip s.
Proof.
  unfold strip. rewrite (lstrip_id (rstrip (lstrip s))).
  - apply rstrip_idem.
  - apply rstrip_clean, lstrip_clean.
Qed.

(** Stripping keeps every occurrence of a needle that neither begins nor
    ends with a blank byte. *)
Lemma all_blank_not_clean_end (n : string) :
  n ≠ "" → all_blank n → clean_end n → False.
Proof.
  induction n as [|a n IH]; [done|]. intros _ [Ha Hn] Hc.
  destruct n as [|b n]; [cbn in Hc; congruence|].
  apply IH; [done|exact Hn|exact Hc].
Qed.

Lemma contains_blank_prefix (n l x : string) :
  n ≠ "" → clean_start n → all_blank l →
  contains n (l +:+ x) = true → contains n x = true.
Proof.
  intros Hn Hclean. induction l as [|c l IH]; [done|].
  intros [Hc Hl]. rewrite append_cons. cbn [contains].
  intros [Hs|Hin]%orb_true_iff; [|by apply IH].
  destruct n as [|a n]; [done|]. cbn [startswith] in Hs.
  apply andb_true_iff in Hs as [Hac _]. apply bool_decide_eq_true in Hac as ->.
  cbn in Hclean. congruence.
Qed.

Lemma startswith_blank_suffix (n y r : string) :
  n ≠ "" → clean_end n → all_blank r →
  startswith n (y +:+ r) = true → startswith n y = true.
Proof.
  intros Hn Hclean Hr. revert y Hn Hclean.
  induction n as [|a n IH]; intros y Hn Hclean Hs; [done|].
  destruct y as [|b y].
  - rewrite append_nil_l in Hs. apply startswith_split in Hs as [post ->].
    apply all_blank_app in Hr as [Hr _].
    destruct (all_blank_not_clean_end _ Hn Hr Hclean).
  - rewrite append_cons in Hs. cbn [startswith] in Hs |- *.
    apply andb_true_iff in Hs as [Hab Hs]. rewrite Hab. cbn [andb].
    destruct n as [|a' n]; [reflexivity|]. by apply IH.
Qed.

Lemma contains_blank_suffix (n x r : string) :
  n ≠ "" → clean_end n → all_blank r →
  contains n (x +:+ r) = true → contains n x = true.
Proof.
  intros Hn Hclean Hr. induction x as [|c x IH].
  - rewrite append_nil_l. intros (pre & post & ->)%contains_split.
    apply all_blank_app in Hr as [_ Hr]. apply all_blank_app in Hr as [Hr _].
    destruct (all_blank_not_clean_end _ Hn Hr Hclean).
  - rewrite append_cons. cbn [contains].
    intros [Hs|Hin]%orb_true_iff.
    + rewrite <- append_cons in Hs.
      by rewrite (startswith_blank_suffix _ _ _ Hn Hclean Hr Hs).
    + rewrite (IH Hin). apply orb_true_r.
Qed.

Lemma contains_strip (n s : string) :
  n ≠ "" → clean_start n → clean_end n →
  contains n s = true → contains n (strip s) = true.
Proof.
  intros Hn Hs He Hc. destruct (strip_split s) as (l & r & Hsplit & Hl & Hr).
  rewrite Hsplit in Hc.
  apply (contains_blank_suffix n _ r Hn He Hr).
  by apply (contains_blank_prefix n l _ Hn Hs Hl).
Qed.

(** ** Extracting code blocks *)

(** What the two extractors have in common: every block they return is the
    stripped text of a match of one of the patterns that passed the keyword
    filter. *)
Lemma extracted_block (patterns : list string) (keep : string → Prop)
    `{!∀ c, Decision (keep c)} (text code : string) :
  code ∈ strip <$> filter keep
           (patterns ≫= (λ opening, findall opening (newline +:+ fence) text)) →
  ∃ raw opening pre post,
    opening ∈ patterns ∧ keep raw ∧ code = strip raw ∧
    text = pre +:+ opening +:+ raw +:+ (newline +:+ fence) +:+ post ∧
    contains (newline +:+ fence) raw = false.
Proof.
  intros (raw & -> & (Hkeep & (opening & Hraw & Hop)%list_elem_of_bind)
                      %list_elem_of_filter)%list_elem_of_fmap.
  apply findall_fuel_elem in Hraw as (pre & post & Htext & Hfree); [|done].
  by exists raw, opening, pre, post.
Qed.

Lemma extracted_block_facts (opening raw pre post text : string) :
  text = pre +:+ opening +:+ raw +:+ (newline +:+ fence) +:+ post →
  contains (newline +:+ fence) raw = false →
  strip (strip raw) = strip raw ∧
  contains (strip raw) text = true ∧
  contains (newline +:+ fence) (strip raw) = false.
Proof.
  intros Htext Hfree. split; [apply strip_idem|].
  destruct (strip_split raw) as (l & r & Hraw & _ & _). split.
  - apply contains_split.
    exists (pre +:+ opening +:+ l), (r +:+ (newline +:+ fence) +:+ post).
    rewrite Htext. rewrite Hraw at 1. by rewrite !append_assoc.
  - destruct (contains (newline +:+ fence) (strip raw)) eqn:Hc; [|reflexivity].
    apply (contains_mono _ l _ r) in Hc. rewrite <- Hraw in Hc. congruence.
Qed.

Lemma findall_no_opening (opening closing text : string) :
  contains opening text = false → findall opening closing text = [].
Proof.
  intros Hno. unfold findall. destruct (String.length text); [reflexivity|].
  cbn [findall_fuel]. by rewrite (str_find_none _ _ Hno).
Qed.

Lemma contains_prefix_of_needle (a b s : string) :
  contains (a +:+ b) s = true → contains a s = true.
Proof.
  intros (pre & post & ->)%contains_split. apply contains_split.
  exists pre, (b +:+ post). by rewrite !append_assoc.
Qed.

(** X12. Every block [extract_rust_code] of the mock tester returns is
    stripped, mentions [blueprint] or [component], occurs in the answer,
    and holds no line that starts with a closing fence. An answer without a
    triple backquote yields no block at all. *)
Theorem mock_extract_rust_code_blocks (text : string) :
  (contains fence text = false →
     MockScryptoAutoTester.extract_rust_code text = []) ∧
  (∀ code, code ∈ MockScryptoAutoTester.extract_rust_code text →
     (contains "blueprint" code = true ∨ contains "component" code = true) ∧
     strip code = code ∧
     contains code text = true ∧
     contains (newline +:+ fence) code = false).
Proof.
  split.
  - intros Hno.
    assert (Hop : ∀ rest, contains (fence +:+ rest) text = false).
    { intros rest. destruct (contains (fence +:+ rest) text) eqn:Hc; [|reflexivity].
      apply contains_prefix_of_needle in Hc. congruence. }
    unfold MockScryptoAutoTester.extract_rust_code. cbn [mbind list_bind].
    by rewrite !findall_no_opening by apply Hop.
  - intros code Hcode. unfold MockScryptoAutoTester.extract_rust_code in Hcode.
    apply extracted_block in Hcode
      as (raw & opening & pre & post & _ & Hkeep & -> & Htext & Hfree).
    destruct (extracted_block_facts _ _ _ _ _ Htext Hfree) as (Hidem & Hin & Hno).
    split; [|done].
    destruct Hkeep as [Hk|Hk]; [left|right]; by apply contains_strip.
Qed.

(** X13. Every block [extract_rust_code] of the auto-tester returns is
    stripped of white space (of every kind [str.strip] removes), mentions
    one of [blueprint], [component], [use scrypto], [impl] and [pub fn],
    occurs in the answer, and holds no line that starts with a closing
    fence. An answer without a triple backquote yields no block at all. *)
Theorem extract_rust_code_blocks (text : string) :
  (contains fence text = false →
     ScryptoAutoTester.extract_rust_code text = []) ∧
  (∀ code, code ∈ ScryptoAutoTester.extract_rust_code text →
     (∃ keyword,
        keyword ∈ ["blueprint"; "component"; "use scrypto"; "impl"; "pub fn"] ∧
        contains keyword code = true) ∧
     strip code = code ∧
     contains code text = true ∧
     contains (newline +:+ fence) code = false).
Proof.
  split.
  - intros Hno.
    assert (Hop : ∀ rest, contains (fence +:+ rest) text = false).
    { intros rest. destruct (contains (fence +:+ rest) text) eqn:Hc; [|reflexivity].
      apply contains_prefix_of_needle in Hc. congruence. }
    unfold ScryptoAutoTester.extract_rust_code. cbn [mbind list_bind].
    by rewrite !findall_no_opening by apply Hop.
  - intros code Hcode. unfold ScryptoAutoTester.extract_rust_code in Hcode.
    apply extracted_block in Hcode
      as (raw & opening & pre & post & _ & Hkeep & -> & Htext & Hfree).
    destruct (extracted_block_facts _ _ _ _ _ Htext Hfree) as (Hidem & Hin & Hno).
    split; [|done].
    apply existsb_exists in Hkeep as (keyword & Hkw & Hc).
    exists keyword. split; [by apply list_elem_of_In|].
    apply contains_strip; [| | |exact Hc];
      simpl in Hkw; destruct Hkw as [<-|[<-|[<-|[<-|[<-|[]]]]]]; done.
Qed.

Lemma mock_extract_rust_code_blocks_witness :
  MockScryptoAutoTester.extract_rust_code sample_answer =
    ["use scrypto::prelude::*;" +:+ newline +:+ "#[blueprint]" +:+ newline +:+
     "mod hello { impl Hello { pub fn new() {} } }";
     "// component helper"] ∧
  contains "// component helper" sample_answer = true.
Proof.
  split; [vm_compute; reflexivity|].
  refine (proj1 (proj2 (proj2 (proj2 (mock_extract_rust_code_blocks sample_answer)
                                 "// component helper" _)))).
  vm_compute. apply list_elem_of_further, list_elem_of_here.
Defined.

Lemma extract_rust_code_blocks_witness :
  ScryptoAutoTester.extract_rust_code padded_answer = ["component"] ∧
  (∃ keyword,
     keyword ∈ ["blueprint"; "component"; "use scrypto"; "impl"; "pub fn"] ∧
     contains keyword "component" = true) ∧
  strip "component" = "component" ∧
  contains "component" padded_answer = true ∧
  contains (newline +:+ fence) "component" = false.
Proof.
  split; [vm_compute; reflexivity|].
  apply (proj2 (extract_rust_code_blocks padded_answer) "component").
  vm_compute. apply list_elem_of_here.
Defined.

(** ** Mock validation *)

Lemma brace_on_line_app (a b : string) :
  brace_on_line a = true → brace_on_line (a +:+ b) = true.
Proof.
  induction a as [|c a IH]; [discriminate|]. rewrite append_cons. simpl.
  repeat case_bool_decide; auto.
Qed.

Lemma search_impl_here (s : string) :
  startswith "impl" s = true → brace_on_line (str_drop 4 s) = true →
  search_impl s = true.
Proof. intros H1 H2. destruct s; cbn [search_impl]; by rewrite H1, H2. Qed.

Lemma search_impl_later (c : ascii) (s : string) :
  search_impl s = true → search_impl (String c s) = true.
Proof. intros Hs. cbn [search_impl]. rewrite Hs. apply orb_true_r. Qed.

Lemma search_impl_mono (pre s post : string) :
  search_impl s = true → search_impl (pre +:+ s +:+ post) = true.
Proof.
  intros Hs. induction pre as [|c pre IH].
  - rewrite append_nil_l. induction s as [|c s IH]; [discriminate|].
    cbn [search_impl] in Hs. apply orb_true_iff in Hs as [Hhere|Hlater].
    + apply andb_true_iff in Hhere as [Himpl Hbrace].
      apply startswith_split in Himpl as [r Hr]. rewrite Hr in *.
      change 4 with (String.length "impl") in *.
      rewrite str_drop_length_app in Hbrace.
      rewrite append_assoc. apply search_impl_here.
      * apply startswith_app.
      * change 4 with (String.length "impl").
        rewrite str_drop_length_app. by apply brace_on_line_app.
    + rewrite append_cons. by apply search_impl_later, IH.
  - rewrite append_cons. by apply search_impl_later.
Qed.

(** X14. The mock validation looks only for the presence of its four marks,
    ignoring letter case: code that passes still passes, with the same
    output, whatever text is put before and after it. *)
Theorem mock_validation_ignores_context (pre code post : string) :
  (MockScryptoAutoTester.mock_scrypto_validation code).1 = true →
  MockScryptoAutoTester.mock_scrypto_validation (pre +:+ code +:+ post) =
    MockScryptoAutoTester.mock_scrypto_validation code.
Proof.
  unfold MockScryptoAutoTester.mock_scrypto_validation. cbn [fst].
  intros Hpass. rewrite Hpass.
  assert (Hmono : (3 <=? MockScryptoAutoTester.score (pre +:+ code +:+ post)) = true);
    [|by rewrite Hmono].
  apply Nat.leb_le in Hpass. apply Nat.leb_le.
  unfold MockScryptoAutoTester.score, MockScryptoAutoTester.pattern_hits in *.
  rewrite !lower_app.
  pose proof (contains_mono "use scrypto::prelude::*" (lower pre) (lower code) (lower post)) as H1.
  pose proof (contains_mono "#[blueprint]" (lower pre) (lower code) (lower post)) as H2.
  pose proof (search_impl_mono (lower pre) (lower code) (lower post)) as H3.
  pose proof (contains_mono "pub fn" (lower pre) (lower code) (lower post)) as H4.
  destruct (contains "use scrypto::prelude::*" (lower code));
    [rewrite (H1 eq_refl)|destruct (contains "use scrypto::prelude::*" _)];
  (destruct (contains "#[blueprint]" (lower code));
    [rewrite (H2 eq_refl)|destruct (contains "#[blueprint]" _)]);
  (destruct (search_impl (lower code));
    [rewrite (H3 eq_refl)|destruct (search_impl _)]);
  (destruct (contains "pub fn" (lower code));
    [rewrite (H4 eq_refl)|destruct (contains "pub fn" _)]);
  vm_compute in Hpass; vm_compute; lia.
Qed.

Lemma mock_validation_ignores_context_witness :
  MockScryptoAutoTester.mock_scrypto_validation
    (("// generated" +:+ newline) +:+
     "USE scrypto::prelude::*; #[blueprint] mod m { pub fn f() {} }" +:+
     (newline +:+ "// end")) =
  (true, MockScryptoAutoTester.passing_output).
Proof.
  rewrite (mock_validation_ignores_context ("// generated" +:+ newline)
             "USE scrypto::prelude::*; #[blueprint] mod m { pub fn f() {} }"
             (newline +:+ "// end"));
    vm_compute; reflexivity.
Defined.

(** ** The mock tester *)

Lemma same_disk_refl (h : Host) : same_disk h h.
Proof. done. Qed.

Lemma same_disk_trans (h1 h2 h3 : Host) :
  same_disk h1 h2 → same_disk h2 h3 → same_disk h1 h3.
Proof. intros (? & ? & ?) (? & ? & ?). repeat split; congruence. Qed.

Lemma keeps_disk_ret {A} (a : A) : keeps_disk (retT a).
Proof. intros h. apply same_disk_refl. Qed.

Lemma keeps_disk_bind {A B} (m : T A) (k : A → T B) :
  keeps_disk m → (∀ a, keeps_disk (k a)) → keeps_disk (bindT m k).
Proof.
  intros Hm Hk h. unfold bindT. specialize (Hm h).
  destruct (m h) as [[e|a] h1]; [exact Hm|].
  eapply same_disk_trans; [exact Hm|apply Hk].
Qed.

Lemma keeps_disk_try {A} (m : T A) (handler : exn → T A) :
  keeps_disk m → (∀ e, keeps_disk (handler e)) → keeps_disk (try_exceptT m handler).
Proof.
  intros Hm Hh h. unfold try_exceptT. specialize (Hm h).
  destruct (m h) as [[e|a] h1]; [|exact Hm].
  destruct (is_Exception e); [|exact Hm].
  eapply same_disk_trans; [exact Hm|apply Hh].
Qed.

Lemma keeps_disk_liftM {A} (m : M A) : keeps_disk (liftM m).
Proof. intros h. by unfold liftM. Qed.

Lemma keeps_disk_now `{Clock} : keeps_disk datetime_now.
Proof. intros h. by unfold datetime_now. Qed.

Lemma bindT_inv {A B} (m : T A) (k : A → T B) (h : Host) (r : exn + B)
    (h' : Host) :
  bindT m k h = (r, h') →
  (∃ e, m h = (inl e, h') ∧ r = inl e) ∨
  (∃ a h1, m h = (inr a, h1) ∧ k a h1 = (r, h')).
Proof.
  unfold bindT. destruct (m h) as [[e|a] h1]; intros Hrun.
  - left. exists e. by injection Hrun as <- <-.
  - right. by exists a, h1.
Qed.

Section MockFacts.
Context `{Libraries} `{Clock}.

(** Naming a test reads the clock at most once and does nothing else. *)
Lemma default_test_name_run (name : option string) (h : Host) :
  ∃ t n,
    default_test_name name h =
      (inr t, mkHost (pipeline h) (folders h) (texts h) (results_json h)
                (n + clock_reads h)).
Proof.
  unfold default_test_name. destruct (truthy name).
  - exists (default "" name), 0. by destruct h.
  - eexists _, 1. reflexivity.
Qed.

(** The [try] block around [ask], in terms of [ask]. *)
Lemma ask_answer_run (self : Tester) (prompt : string) (h : Host) :
  let asked := ask (rag_system self) prompt (pipeline h) in
  ask_answer self prompt h =
    (match asked.1 with
     | inl e => if is_Exception e then inr None else inl e
     | inr response => inr (Some response)
     end,
     mkHost asked.2 (folders h) (texts h) (results_json h) (clock_reads h)).
Proof.
  cbn zeta. unfold ask_answer, try_exceptT, bindT, liftM, retT.
  destruct (ask (rag_system self) prompt (pipeline h)) as [[e|response] w];
    cbn [fst snd]; [destruct (is_Exception e)|]; reflexivity.
Qed.

Lemma test_record_lookups (test_name prompt : string) (start_time end_time : Z)
    (success : bool) (code_file test_output code : string) :
  let record :=
    MockTester.test_record test_name prompt start_time end_time success
      code_file test_output code in
  record !! "success" = Some (JBool success) ∧
  record !! "attempts" = Some (JInt 1) ∧
  record !! "code_preview" = Some (JStr (snippet_of code)).
Proof. unfold MockTester.test_record. by repeat split; simplify_map_eq. Qed.

(** The cases of one call of the mock tester's [test_blueprint_generation],
    in terms of what [ask] gives for the prompt. *)
Lemma mock_test_cases (self : Tester) (prompt : string)
    (name : option string) (h : Host) (r : exn + Tester * gmap string json)
    (h' : Host) :
  MockTester.test_blueprint_generation self prompt name h = (r, h') →
  let asked := ask (rag_system self) prompt (pipeline h) in
  let blocks :=
    match asked.1 with
    | inr response => MockScryptoAutoTester.extract_rust_code (answer response)
    | inl _ => []
    end in
  pipeline h' = asked.2 ∧
  match r with
  | inl e => results_json h' = results_json h
  | inr (self', record) =>
      rag_system self' = rag_system self ∧
      match blocks with
      | [] =>
          record = failed_record ∧ results self' = results self ∧
          same_disk h h'
      | code :: _ =>
          let success := (MockScryptoAutoTester.mock_scrypto_validation code).1 in
          record !! "success" = Some (JBool success) ∧
          record !! "attempts" = Some (JInt 1) ∧
          record !! "code_preview" = Some (JStr (snippet_of code)) ∧
          session_id (results self') = session_id (results self) ∧
          total_attempts (results self') = (total_attempts (results self) + 1)%Z ∧
          successful_blueprints (results self') =
            (successful_blueprints (results self) + if success then 1 else 0)%Z ∧
          failed_blueprints (results self') =
            (failed_blueprints (results self) + if success then 0 else 1)%Z ∧
          retry_count (results self') = retry_count (results self) ∧
          blueprints (results self') = blueprints (results self) ++ [record] ∧
          results_json h' = Some (Some (results self')) ∧
          ∃ code_file, texts h' = <[code_file := code]> (texts h)
      end
  end.
Proof.
  intros Hrun. cbn zeta.
  unfold MockTester.test_blueprint_generation in Hrun.
  set (validate := MockScryptoAutoTester.mock_scrypto_validation) in *.
  clearbody validate.
  destruct (default_test_name_run name h) as (test_name & n & Hname).
  apply bindT_inv in Hrun as [(e & He & _)|(t & h1 & Ht & Hrun)];
    [congruence|].
  rewrite Hname in Ht. injection Ht as <- <-.
  apply bindT_inv in Hrun as [(e & [=] & _)|(start_time & h2 & Hnow & Hrun)].
  injection Hnow as <- <-.
  pose proof (ask_answer_run self prompt
                (mkHost (pipeline h) (folders h) (texts h) (results_json h)
                   (S (n + clock_reads h)))) as Hask.
  cbn zeta in Hask. cbn [pipeline folders texts results_json clock_reads] in Hask.
  destruct (ask (rag_system self) prompt (pipeline h)) as [asked w] eqn:Hasked.
  cbn [fst snd] in Hask |- *.
  apply bindT_inv in Hrun as [(e & He & ->)|(response & h3 & Hresp & Hrun)].
  { rewrite Hask in He. by injection He as _ <-. }
  rewrite Hask in Hresp. injection Hresp as Hresp <-.
  destruct asked as [e|answered].
  { destruct (is_Exception e); [|discriminate Hresp]. injection Hresp as <-.
    injection Hrun as <- <-. by repeat split. }
  injection Hresp as <-.
  destruct (MockScryptoAutoTester.extract_rust_code (answer answered))
    as [|code blocks]; [injection Hrun as <- <-; by repeat split|].
  apply bindT_inv in Hrun as [(e & He & ->)|([] & h4 & Hwrite & Hrun)].
  { unfold write_text in He. repeat case_match; try discriminate He;
      by injection He as _ <-. }
  unfold write_text in Hwrite.
  destruct (is_dir _ _); [discriminate Hwrite|].
  destruct (negb _); [discriminate Hwrite|]. injection Hwrite as <-.
  apply bindT_inv in Hrun as [(e & [=] & _)|(end_time & h5 & Hnow & Hrun)].
  injection Hnow as <- <-.
  apply bindT_inv in Hrun as [(e & He & ->)|([] & h6 & Hdump & Hrun)].
  { unfold dump_results in He. repeat case_match; try discriminate He;
      by injection He as _ <-. }
  unfold dump_results in Hdump.
  destruct (is_dir _ _); [discriminate Hdump|]. injection Hdump as <-.
  injection Hrun as <- <-.
  split; [reflexivity|]. split; [reflexivity|]. cbn zeta.
  destruct (validate code) as [success output].
  cbn [fst snd results texts results_json pipeline folders clock_reads].
  destruct (test_record_lookups test_name prompt
              (reading (n + clock_reads h)) (reading (S (n + clock_reads h)))
              success (path_div "output" (test_name +:+ ".rs")) output code)
    as (Hs & Ha & Hp).
  destruct success;
    cbn [session_id total_attempts successful_blueprints failed_blueprints
         retry_count blueprints];
    repeat split; try lia; eauto.
Qed.


End MockFacts.

Section MockRun.
Context `{Libraries} `{Clock}.

(** One call either leaves the results and the disk alone, or counts one
    attempt and saves the results. *)
Lemma mock_test_step (self self' : Tester) (prompt : string)
    (name : option string) (record : gmap string json) (h h' : Host) :
  MockTester.test_blueprint_generation self prompt name h =
    (inr (self', record), h') →
  (results self' = results self ∧ same_disk h h') ∨
  (total_attempts (results self') = (total_attempts (results self) + 1)%Z ∧
   (consistent (results self) → consistent (results self')) ∧
   results_json h' = Some (Some (results self'))).
Proof.
  intros Hrun. apply mock_test_cases in Hrun as [_ [_ Hb]]. cbn zeta in Hb.
  destruct (match (ask (rag_system self) prompt (pipeline h)).1 with
            | inr response =>
                MockScryptoAutoTester.extract_rust_code (answer response)
            | inl _ => []
            end) as [|code blocks].
  { destruct Hb as (_ & Hres & Hdisk). by left. }
  right.
  destruct Hb as (_ & _ & _ & _ & Htot & Hsucc & Hfail & Hretry & Hblue & Hjson & _).
  split; [exact Htot|]. split; [|exact Hjson].
  intros (Hc1 & Hc2 & Hc3). unfold consistent.
  rewrite Htot, Hsucc, Hfail, Hretry, Hblue, List.length_app. cbn [length].
  destruct (MockScryptoAutoTester.mock_scrypto_validation code).1; lia.
Qed.

(** X16. When [run_demo_tests] of the mock tester returns, it returns the
    results of the tester; the attempts have grown by at most two, one for
    each test that got as far as validation; counters that agreed with each
    other and with the list of records still do; and [results.json] holds
    the returned results, unless no test got that far, in which case the
    results and the disk are as before. *)
Theorem mock_run_demo_tests_counts (self self' : Tester) (r : Results)
    (h h' : Host) :
  MockTester.run_demo_tests self h = (inr (self', r), h') →
  r = results self' ∧
  (0 ≤ total_attempts r - total_attempts (results self) ≤ 2)%Z ∧
  (consistent (results self) → consistent r) ∧
  (total_attempts r = total_attempts (results self) →
     r = results self ∧ same_disk h h') ∧
  (total_attempts r ≠ total_attempts (results self) →
     results_json h' = Some (Some r)).
Proof.
  unfold MockTester.run_demo_tests, bindT.
  destruct (MockTester.test_blueprint_generation self _ _ h)
    as [[e|[self1 rec1]] h1] eqn:H1; [discriminate|].
  cbn [fst].
  destruct (MockTester.test_blueprint_generation self1 _ _ h1)
    as [[e|[self2 rec2]] h2] eqn:H2; [discriminate|].
  cbn [fst]. unfold retT. intros [= <- <- <-].
  apply mock_test_step in H1, H2. split; [reflexivity|].
  destruct H1 as [(Hr1 & Hd1)|(Ht1 & Hc1 & Hj1)];
    destruct H2 as [(Hr2 & Hd2)|(Ht2 & Hc2 & Hj2)].
  - rewrite Hr2, Hr1. split; [lia|]. split; [done|]. split.
    + intros _. split; [done|]. apply (same_disk_trans _ _ _ Hd1 Hd2).
    + intros Hne. by destruct Hne.
  - rewrite Hr1 in *. split; [lia|]. split; [exact Hc2|]. split.
    + intros Heq. lia.
    + intros _. exact Hj2.
  - rewrite Hr2 in *. destruct Hd2 as (_ & _ & Hj2).
    split; [lia|]. split; [exact Hc1|]. split.
    + intros Heq. lia.
    + intros _. by rewrite Hj2.
  - split; [lia|]. split; [auto|]. split.
    + intros Heq. lia.
    + intros _. exact Hj2.
Qed.

End MockRun.


Lemma mock_run_demo_tests_counts_witness :
  ∃ self r h',
    MockTester.run_demo_tests (H := ReferenceHost.coder) (H0 := ReferenceHost.clock)
      Bench.tester Bench.host = (inr (self, r), h') ∧
    consistent r.
Proof.
  assert (Hok : returned
                  (MockTester.run_demo_tests (H := ReferenceHost.coder)
                     (H0 := ReferenceHost.clock) Bench.tester Bench.host).1
                = true)
    by (vm_compute; reflexivity).
  revert Hok.
  destruct (MockTester.run_demo_tests (H := ReferenceHost.coder)
              (H0 := ReferenceHost.clock) Bench.tester Bench.host)
    as [[e|[self r]] h'] eqn:Hrun; intros Hok.
  - discriminate Hok.
  - destruct (mock_run_demo_tests_counts (H := ReferenceHost.coder)
                (H0 := ReferenceHost.clock) _ _ _ _ _ Hrun)
      as (_ & _ & Hcons & _).
    exists self, r, h'. split; [reflexivity|]. apply Hcons. repeat split.
Defined.
(** ** The auto-tester that runs the toolchain *)

Lemma keeps_pipeline_ret {A} (a : A) : keeps_pipeline (retT a).
Proof. by intros h. Qed.

Lemma keeps_pipeline_raise {A} (e : exn) : keeps_pipeline (raiseT (A := A) e).
Proof. by intros h. Qed.

Lemma keeps_pipeline_bind {A B} (m : T A) (k : A → T B) :
  keeps_pipeline m → (∀ a, keeps_pipeline (k a)) → keeps_pipeline (bindT m k).
Proof.
  intros Hm Hk h. unfold bindT. specialize (Hm h).
  destruct (m h) as [[e|a] h1]; [exact Hm|].
  cbn [snd] in Hm. rewrite <- Hm. apply Hk.
Qed.

Lemma keeps_pipeline_now `{Clock} : keeps_pipeline datetime_now.
Proof. by intros h. Qed.

Lemma keeps_pipeline_write (p content : string) : keeps_pipeline (write_text p content).
Proof. intros h. unfold write_text. by repeat case_match. Qed.

Lemma keeps_pipeline_rmtree (p : string) : keeps_pipeline (rmtree p).
Proof. intros h. unfold rmtree. by case_match. Qed.

Lemma keeps_pipeline_dump (r : Results) : keeps_pipeline (dump_results r).
Proof. intros h. unfold dump_results. by case_match. Qed.

Lemma keeps_pipeline_subprocess `{Toolchain} (argv : list string) (cwd : string) :
  keeps_pipeline (subprocess_run argv cwd).
Proof. by intros h. Qed.

Lemma keeps_pipeline_run {A} (m : T A) (h : Host) (r : exn + A) (h' : Host) :
  keeps_pipeline m → m h = (r, h') → pipeline h' = pipeline h.
Proof. intros Hm Hrun. specialize (Hm h). by rewrite Hrun in Hm. Qed.



Section RealFacts.
Context `{Libraries} `{Clock} `{Toolchain}.

Lemma keeps_pipeline_create (code project_name : string) :
  keeps_pipeline (RealTester.create_scrypto_project code project_name).
Proof.
  unfold RealTester.create_scrypto_project.
  apply keeps_pipeline_bind; [by intros h|]. intros h0.
  apply keeps_pipeline_bind.
  { destruct (_ || _); [apply keeps_pipeline_rmtree|apply keeps_pipeline_ret]. }
  intros _. apply keeps_pipeline_bind; [apply keeps_pipeline_subprocess|].
  intros [returncode stdout stderr| |e];
    [|apply keeps_pipeline_raise|apply keeps_pipeline_raise].
  case_bool_decide; [|apply keeps_pipeline_ret].
  apply keeps_pipeline_bind; [apply keeps_pipeline_write|].
  intros _. apply keeps_pipeline_ret.
Qed.

Lemma keeps_pipeline_test (project_dir : string) :
  keeps_pipeline (RealTester.run_scrypto_test project_dir).
Proof.
  unfold RealTester.run_scrypto_test.
  apply keeps_pipeline_bind; [apply keeps_pipeline_subprocess|].
  intros [returncode stdout stderr| |e]; try apply keeps_pipeline_ret.
  destruct (is_Exception e); [apply keeps_pipeline_ret|apply keeps_pipeline_raise].
Qed.

(** The loop over the code blocks never talks to the pipeline, and a block
    that passes is returned as a success of the current attempt. *)
Lemma try_blocks_run (blocks : list string) (i attempt max_retries : nat)
    (original_prompt : string) (response : Response) (prompt : string)
    (stderr : option string) (h : Host) (r : exn + blocks_outcome) (h' : Host) :
  RealTester.try_blocks blocks i attempt max_retries original_prompt response
    prompt stderr h = (r, h') →
  pipeline h' = pipeline h ∧
  ∀ g, r = inr (Passed g) →
       gen_attempts g = attempt + 1 ∧ gen_success g = true ∧
       ∃ code, code ∈ blocks ∧ gen_code g = Some code.
Proof.
  revert i prompt stderr h.
  induction blocks as [|code rest IH]; intros i prompt stderr h Hrun.
  { injection Hrun as <- <-. split; [reflexivity|]. intros g [=]. }
  cbn [RealTester.try_blocks] in Hrun.
  apply bindT_inv in Hrun as [(e & [=] & _)|(t & h1 & Hnow & Hrun)].
  assert (Hp1 : pipeline h1 = pipeline h) by (by injection Hnow as _ <-).
  apply bindT_inv in Hrun as [(e & Hcreate & ->)|(dir & h2 & Hcreate & Hrun)];
    apply keeps_pipeline_run in Hcreate; try apply keeps_pipeline_create.
  { split; [congruence|]. intros g [=]. }
  destruct dir as [dir|].
  - apply bindT_inv in Hrun as [(e & Htest & ->)|(tested & h3 & Htest & Hrun)];
      apply keeps_pipeline_run in Htest; try apply keeps_pipeline_test.
    { split; [congruence|]. intros g [=]. }
    destruct tested.1.1.
    + injection Hrun as <- <-. split; [congruence|]. intros g [= <-]. cbn.
      repeat split. exists code. split; [apply list_elem_of_here|reflexivity].
    + apply IH in Hrun as [Hp Hg].
      split; [congruence|]. intros g Hpass.
      destruct (Hg g Hpass) as (Ha & Hs & c & Hc & Hcode).
      repeat split; try done. exists c. split; [by apply list_elem_of_further|done].
  - apply IH in Hrun as [Hp Hg].
    split; [congruence|]. intros g Hpass.
    destruct (Hg g Hpass) as (Ha & Hs & c & Hc & Hcode).
    repeat split; try done. exists c. split; [by apply list_elem_of_further|done].
Qed.


Lemma ask_result_not_ready (self : Tester) (prompt : string) (h : Host) :
  qa_chain (rag_system self) = None →
  RealTester.ask_result self prompt h = (inr (inl NotReadyError), h).
Proof.
  intros Hc. unfold RealTester.ask_result, try_exceptT, bindT, liftM, ask.
  rewrite Hc. cbn. by destruct h.
Qed.


(** The attempts a result reports lie between the turns taken so far and
    the turns allowed; a success carries a block of the answer it was
    extracted from, a failure an error message and no code. *)
Lemma try_blocks_passed (blocks : list string) (i attempt max_retries : nat)
    (original_prompt : string) (response : Response) (prompt : string)
    (stderr : option string) (h : Host) (g : Generation) (h' : Host) :
  RealTester.try_blocks blocks i attempt max_retries original_prompt response
    prompt stderr h = (inr (Passed g), h') →
  gen_error g = None ∧ gen_ai_response g = Some (answer response) ∧
  gen_sources g = Some (sources response) ∧ is_Some (gen_test_output g) ∧
  is_Some (gen_project_dir g).
Proof.
  revert i prompt stderr h.
  induction blocks as [|code rest IH]; intros i prompt stderr h Hrun.
  { discriminate Hrun. }
  cbn [RealTester.try_blocks] in Hrun.
  apply bindT_inv in Hrun as [(e & [=] & _)|(t & h1 & _ & Hrun)].
  apply bindT_inv in Hrun as [(e & _ & [=])|(dir & h2 & _ & Hrun)].
  destruct dir as [dir|]; [|by apply IH in Hrun].
  apply bindT_inv in Hrun as [(e & _ & [=])|(tested & h3 & _ & Hrun)].
  destruct tested.1.1; [|by apply IH in Hrun].
  injection Hrun as <- <-. cbn. by repeat split.
Qed.

Lemma retry_loop_result (self : Tester) (remaining attempt max_retries : nat)
    (original_prompt prompt : string) (stderr : option string) (h : Host)
    (g : Generation) (h' : Host) :
  RealTester.retry_loop self remaining attempt max_retries original_prompt
    prompt stderr h = (inr g, h') →
  attempt + (1 `min` remaining) ≤ gen_attempts g ≤ attempt + remaining ∧
  if gen_success g then
    ∃ code answer,
      gen_code g = Some code ∧ gen_ai_response g = Some answer ∧
      code ∈ ScryptoAutoTester.extract_rust_code answer ∧
      gen_error g = None ∧ is_Some (gen_test_output g) ∧
      is_Some (gen_sources g)
  else is_Some (gen_error g) ∧ gen_code g = None ∧ gen_test_output g = None.
Proof.
  revert attempt prompt stderr h.
  induction remaining as [|remaining IH]; intros attempt prompt stderr h Hrun.
  { injection Hrun as <- <-. cbn. split; [lia|]. by repeat split. }
  cbn [RealTester.retry_loop] in Hrun.
  assert (Hmore : ∀ h1 p1 s1,
            RealTester.retry_loop self remaining (S attempt) max_retries
              original_prompt p1 s1 h1 = (inr g, h') →
            attempt + (1 `min` S remaining) ≤ gen_attempts g ≤ attempt + S remaining ∧
            if gen_success g then
              ∃ code answer,
                gen_code g = Some code ∧ gen_ai_response g = Some answer ∧
                code ∈ ScryptoAutoTester.extract_rust_code answer ∧
                gen_error g = None ∧ is_Some (gen_test_output g) ∧
                is_Some (gen_sources g)
            else is_Some (gen_error g) ∧ gen_code g = None ∧ gen_test_output g = None).
  { intros h1 p1 s1 Hloop. apply IH in Hloop as [Hbound Hshape].
    split; [lia|exact Hshape]. }
  apply bindT_inv in Hrun as [(e & _ & [=])|(response & h1 & _ & Hrun)].
  destruct response as [e|response].
  { injection Hrun as <- <-. cbn. split; [lia|]. by repeat split. }
  destruct (ScryptoAutoTester.extract_rust_code (answer response))
    as [|code blocks] eqn:Hblocks.
  - destruct (attempt <? max_retries).
    + by apply Hmore in Hrun.
    + injection Hrun as <- <-. cbn. split; [lia|]. by repeat split.
  - apply bindT_inv in Hrun as [(e & _ & [=])|(outcome & h2 & Htry & Hrun)].
    destruct outcome as [g'|prompt' stderr']; [|by apply Hmore in Hrun].
    injection Hrun as -> <-.
    pose proof (try_blocks_passed _ _ _ _ _ _ _ _ _ _ _ Htry)
      as (Herr & Hresp & Hsrc & Hout & _).
    apply try_blocks_run in Htry as [_ Hpass].
    destruct (Hpass g eq_refl) as (Ha & Hs & c & Hc & Hcode).
    split; [lia|]. rewrite Hs. exists c, (answer response).
    rewrite Hblocks, Hsrc. by repeat split.
Qed.


(** X18. What [generate_code_with_retry] returns is well formed. The
    attempts lie between one and [max_retries + 1]. A success carries no
    error, the test output, the sources, the answer of the model and a
    code block that [extract_rust_code] finds in that answer. A failure
    carries an error message, no code and no test output: the keys
    [test_blueprint_generation] reads afterwards are there in both
    cases. *)
Theorem generate_code_with_retry_result (self : Tester) (prompt : string)
    (max_retries : nat) (h : Host) (g : Generation) (h' : Host) :
  RealTester.generate_code_with_retry self prompt max_retries h = (inr g, h') →
  1 ≤ gen_attempts g ≤ max_retries + 1 ∧
  if gen_success g then
    ∃ code answer,
      gen_code g = Some code ∧ gen_ai_response g = Some answer ∧
      code ∈ ScryptoAutoTester.extract_rust_code answer ∧
      gen_error g = None ∧ is_Some (gen_test_output g) ∧
      is_Some (gen_sources g)
  else is_Some (gen_error g) ∧ gen_code g = None ∧ gen_test_output g = None.
Proof.
  intros Hrun. unfold RealTester.generate_code_with_retry in Hrun.
  apply retry_loop_result in Hrun as [Hbound Hshape].
  split; [lia|exact Hshape].
Qed.

Lemma real_record_lookups (test_name prompt : string) (start_time end_time : Z)
    (result : Generation) :
  let record := RealTester.test_record test_name prompt start_time end_time result in
  record !! "test_name" = Some (JStr test_name) ∧
  record !! "success" = Some (JBool (gen_success result)) ∧
  record !! "attempts" = Some (JInt (Z.of_nat (gen_attempts result))).
Proof. unfold RealTester.test_record. by repeat split; simplify_map_eq. Qed.

(** One call of [test_blueprint_generation], as the later statements use
    it. *)
Lemma real_test_step (self self' : Tester) (prompt : string)
    (name : option string) (record : gmap string json) (h h' : Host) :
  RealTester.test_blueprint_generation self prompt name h =
    (inr (self', record), h') →
  ∃ (attempts : Z) (success : bool),
    (1 ≤ attempts ≤ 2)%Z ∧
    record !! "attempts" = Some (JInt attempts) ∧
    record !! "success" = Some (JBool success) ∧
    rag_system self' = rag_system self ∧
    session_id (results self') = session_id (results self) ∧
    total_attempts (results self') = (total_attempts (results self) + attempts)%Z ∧
    successful_blueprints (results self') =
      (successful_blueprints (results self) + if success then 1 else 0)%Z ∧
    failed_blueprints (results self') =
      (failed_blueprints (results self) + if success then 0 else 1)%Z ∧
    retry_count (results self') = (retry_count (results self) + (attempts - 1))%Z ∧
    blueprints (results self') = blueprints (results self) ++ [record] ∧
    is_Some (last_updated (results self')) ∧
    results_json h' = Some (Some (results self')).
Proof.
  intros Hrun. unfold RealTester.test_blueprint_generation in Hrun.
  apply bindT_inv in Hrun as [(e & _ & [=])|(test_name & h1 & _ & Hrun)].
  apply bindT_inv in Hrun as [(e & _ & [=])|(start_time & h2 & _ & Hrun)].
  apply bindT_inv in Hrun as [(e & _ & [=])|(result & h3 & Hgen & Hrun)].
  apply bindT_inv in Hrun as [(e & _ & [=])|(end_time & h4 & _ & Hrun)].
  cbn zeta in Hrun.
  apply bindT_inv in Hrun as [(e & _ & [=])|(saved & h5 & Hsave & Hrun)].
  injection Hrun as <- <- <-.
  unfold RealTester.generate_code_with_retry in Hgen.
  apply retry_loop_result in Hgen as [Hbound _].
  unfold RealTester.save_results in Hsave.
  apply bindT_inv in Hsave as [(e & [=] & _)|(t & h6 & _ & Hsave)].
  apply bindT_inv in Hsave as [(e & _ & [=])|([] & h7 & Hdump & Hsave)].
  injection Hsave as <- <-.
  unfold dump_results in Hdump.
  destruct (is_dir h6 "results.json"); [discriminate Hdump|].
  injection Hdump as <-.
  destruct (real_record_lookups test_name prompt start_time end_time result)
    as (_ & Hsucc & Hatt).
  exists (Z.of_nat (gen_attempts result)), (gen_success result).
  split; [lia|]. split; [exact Hatt|]. split; [exact Hsucc|].
  cbn [rag_system results]. split; [reflexivity|].
  destruct (gen_success result); destruct (Z.ltb_spec 1 (Z.of_nat (gen_attempts result)));
    cbn [session_id total_attempts successful_blueprints failed_blueprints
         retry_count blueprints last_updated results_json];
    repeat split; try lia; eauto.
Qed.

(** X19. When [test_blueprint_generation] returns, the test took one or two
    attempts and is counted once: the attempts of the record are added to
    the total, the attempts beyond the first to the retries, one to the
    successes or to the failures as the record says; the record is the
    new last entry of the list; [results.json] holds exactly the results
    in memory, with the time of the save; and counters that were balanced
    (every attempt a first attempt or a retry) are balanced again. *)
Theorem test_blueprint_generation_bookkeeping (self self' : Tester)
    (prompt : string) (name : option string) (record : gmap string json)
    (h h' : Host) :
  RealTester.test_blueprint_generation self prompt name h =
    (inr (self', record), h') →
  ∃ (attempts : Z) (success : bool),
    (1 ≤ attempts ≤ 2)%Z ∧
    record !! "attempts" = Some (JInt attempts) ∧
    record !! "success" = Some (JBool success) ∧
    total_attempts (results self') = (total_attempts (results self) + attempts)%Z ∧
    successful_blueprints (results self') =
      (successful_blueprints (results self) + if success then 1 else 0)%Z ∧
    failed_blueprints (results self') =
      (failed_blueprints (results self) + if success then 0 else 1)%Z ∧
    retry_count (results self') = (retry_count (results self) + (attempts - 1))%Z ∧
    blueprints (results self') = blueprints (results self) ++ [record] ∧
    is_Some (last_updated (results self')) ∧
    results_json h' = Some (Some (results self')) ∧
    (balanced (results self) → balanced (results self')).
Proof.
  intros Hrun.
  apply real_test_step in Hrun
    as (attempts & success & Hb & Ha & Hs & _ & _ & Ht & Hsu & Hf & Hr & Hbl & Hl & Hj).
  exists attempts, success. repeat (split; [assumption|]).
  unfold balanced. rewrite Ht, Hsu, Hf, Hr. destruct success; lia.
Qed.

(** The three tests of [run_demo_tests] together. *)
Lemma demo_tests_counts (self self' : Tester) (h h' : Host) :
  RealTester.demo_tests self h = (inr self', h') →
  ∃ first second third,
    blueprints (results self') = blueprints (results self) ++ [first; second; third] ∧
    first !! "test_name" = Some (JStr "simple_greeting_blueprint") ∧
    second !! "test_name" = Some (JStr "admin_nft_blueprint") ∧
    third !! "test_name" = Some (JStr "simple_token_blueprint") ∧
    (successful_blueprints (results self') + failed_blueprints (results self') =
     successful_blueprints (results self) + failed_blueprints (results self) + 3)%Z ∧
    (3 ≤ total_attempts (results self') - total_attempts (results self) ≤ 6)%Z ∧
    (retry_count (results self') - retry_count (results self) =
     total_attempts (results self') - total_attempts (results self) - 3)%Z ∧
    results_json h' = Some (Some (results self')).
Proof.
  intros Hrun. unfold RealTester.demo_tests in Hrun.
  apply bindT_inv in Hrun as [(e & _ & [=])|([self1 rec1] & h1 & Hcall1 & Hrun)].
  apply bindT_inv in Hrun as [(e & _ & [=])|([self2 rec2] & h2 & Hcall2 & Hrun)].
  apply bindT_inv in Hrun as [(e & _ & [=])|([self3 rec3] & h3 & Hcall3 & Hrun)].
  injection Hrun as <- <-. cbn [fst] in *.
  assert (Hname : ∀ s s' p n rec0 k k',
            RealTester.test_blueprint_generation s p (Some n) k = (inr (s', rec0), k') →
            n ≠ "" → rec0 !! "test_name" = Some (JStr n)).
  { intros s s' p n rec0 k k' Hcall Hn.
    unfold RealTester.test_blueprint_generation in Hcall.
    apply bindT_inv in Hcall as [(e & _ & [=])|(test_name & k1 & Hdef & Hcall)].
    unfold default_test_name in Hdef.
    assert (truthy (Some n) = true) as Htruthy by (by destruct n).
    rewrite Htruthy in Hdef. injection Hdef as <- <-.
    apply bindT_inv in Hcall as [(e & _ & [=])|(start_time & k2 & _ & Hcall)].
    apply bindT_inv in Hcall as [(e & _ & [=])|(result & k3 & _ & Hcall)].
    apply bindT_inv in Hcall as [(e & _ & [=])|(end_time & k4 & _ & Hcall)].
    cbn zeta in Hcall.
    apply bindT_inv in Hcall as [(e & _ & [=])|(saved & k5 & _ & Hcall)].
    injection Hcall as _ <- _.
    apply real_record_lookups. }
  pose proof (Hname _ _ _ _ _ _ _ Hcall1 ltac:(done)) as Hn1.
  pose proof (Hname _ _ _ _ _ _ _ Hcall2 ltac:(done)) as Hn2.
  pose proof (Hname _ _ _ _ _ _ _ Hcall3 ltac:(done)) as Hn3.
  apply real_test_step in Hcall1
    as (a1 & s1 & Hb1 & _ & _ & _ & _ & Ht1 & Hsu1 & Hf1 & Hr1 & Hbl1 & _ & _).
  apply real_test_step in Hcall2
    as (a2 & s2 & Hb2 & _ & _ & _ & _ & Ht2 & Hsu2 & Hf2 & Hr2 & Hbl2 & _ & _).
  apply real_test_step in Hcall3
    as (a3 & s3 & Hb3 & _ & _ & _ & _ & Ht3 & Hsu3 & Hf3 & Hr3 & Hbl3 & _ & Hj3).
  exists rec1, rec2, rec3.
  split; [rewrite Hbl3, Hbl2, Hbl1, <- !app_assoc; reflexivity|].
  repeat (split; [assumption|]).
  split; [destruct s1, s2, s3; lia|]. split; [lia|]. split; [lia|exact Hj3].
Qed.

(** X20. When [run_demo_tests] returns, it returns the results of the
    tester, which are also what [results.json] holds; three records were
    appended, named after the three demo tests in their order; successes
    and failures together grew by three, the attempts by three to six,
    the retries by the attempts beyond three; and balanced counters are
    balanced again. *)
Theorem run_demo_tests_counts (self self' : Tester) (r : Results) (h h' : Host) :
  RealTester.run_demo_tests self h = (inr (self', r), h') →
  r = results self' ∧
  results_json h' = Some (Some r) ∧
  (∃ first second third,
     blueprints r = blueprints (results self) ++ [first; second; third] ∧
     first !! "test_name" = Some (JStr "simple_greeting_blueprint") ∧
     second !! "test_name" = Some (JStr "admin_nft_blueprint") ∧
     third !! "test_name" = Some (JStr "simple_token_blueprint")) ∧
  (successful_blueprints r + failed_blueprints r =
   successful_blueprints (results self) + failed_blueprints (results self) + 3)%Z ∧
  (3 ≤ total_attempts r - total_attempts (results self) ≤ 6)%Z ∧
  (retry_count r - retry_count (results self) =
   total_attempts r - total_attempts (results self) - 3)%Z ∧
  (balanced (results self) → balanced r).
Proof.
  intros Hrun. unfold RealTester.run_demo_tests in Hrun.
  apply bindT_inv in Hrun as [(e & _ & [=])|(self1 & h1 & Hdemo & Hrun)].
  apply bindT_inv in Hrun as [(e & _ & [=])|([] & h2 & Hsum & Hrun)].
  injection Hrun as <- <- <-.
  unfold RealTester.print_final_summary in Hsum.
  case_bool_decide; [discriminate Hsum|]. injection Hsum as <-.
  apply demo_tests_counts in Hdemo
    as (r1 & r2 & r3 & Hbl & Hn1 & Hn2 & Hn3 & Hsf & Ht & Hr & Hj).
  split; [reflexivity|]. split; [exact Hj|].
  split; [by exists r1, r2, r3|].
  split; [exact Hsf|]. split; [exact Ht|]. split; [exact Hr|].
  unfold balanced. lia.
Qed.

(** X21. The success rate of the final summary divides by the number of
    successes and failures. After the three demo tests have returned this
    number is positive, so long as the counters the tester started from
    were not negative: [run_demo_tests] then returns, in the very state
    the tests left. *)
Theorem run_demo_tests_summary_defined (self self' : Tester) (h h' : Host) :
  (0 ≤ successful_blueprints (results self))%Z →
  (0 ≤ failed_blueprints (results self))%Z →
  RealTester.demo_tests self h = (inr self', h') →
  RealTester.run_demo_tests self h = (inr (self', results self'), h').
Proof.
  intros Hs Hf Hdemo. unfold RealTester.run_demo_tests, bindT at 1.
  rewrite Hdemo.
  apply demo_tests_counts in Hdemo as (_ & _ & _ & _ & _ & _ & _ & Hsf & _).
  unfold bindT, RealTester.print_final_summary.
  by rewrite bool_decide_eq_false_2 by lia.
Qed.

End RealFacts.

Lemma generate_code_with_retry_result_witness :
  ∃ g h',
    RealTester.generate_code_with_retry (H := ReferenceHost.coder)
      (H0 := ReferenceHost.clock) (H1 := ReferenceTools.toolchain)
      Bench.tester "Create a counter blueprint" 1 Bench.host = (inr g, h') ∧
    1 ≤ gen_attempts g ≤ 1 + 1.
Proof.
  assert (Hok : returned
                  (RealTester.generate_code_with_retry (H := ReferenceHost.coder)
                     (H0 := ReferenceHost.clock) (H1 := ReferenceTools.toolchain)
                     Bench.tester "Create a counter blueprint" 1 Bench.host).1
                = true)
    by (vm_compute; reflexivity).
  revert Hok.
  destruct (RealTester.generate_code_with_retry (H := ReferenceHost.coder)
              (H0 := ReferenceHost.clock) (H1 := ReferenceTools.toolchain)
              Bench.tester "Create a counter blueprint" 1 Bench.host)
    as [[e|g] h'] eqn:Hrun; intros Hok.
  - discriminate Hok.
  - exists g, h'. split; [reflexivity|].
    exact (proj1 (generate_code_with_retry_result (H := ReferenceHost.coder)
                    (H0 := ReferenceHost.clock) (H1 := ReferenceTools.toolchain)
                    _ _ _ _ _ _ Hrun)).
Defined.

Lemma test_blueprint_generation_bookkeeping_witness :
  ∃ self' record h',
    RealTester.test_blueprint_generation (H := ReferenceHost.coder)
      (H0 := ReferenceHost.clock) (H1 := ReferenceTools.toolchain)
      Bench.tester "Create a counter blueprint" None Bench.host =
      (inr (self', record), h') ∧
    balanced (results self').
Proof.
  assert (Hok : returned
                  (RealTester.test_blueprint_generation (H := ReferenceHost.coder)
                     (H0 := ReferenceHost.clock) (H1 := ReferenceTools.toolchain)
                     Bench.tester "Create a counter blueprint" None Bench.host).1
                = true)
    by (vm_compute; reflexivity).
  revert Hok.
  destruct (RealTester.test_blueprint_generation (H := ReferenceHost.coder)
              (H0 := ReferenceHost.clock) (H1 := ReferenceTools.toolchain)
              Bench.tester "Create a counter blueprint" None Bench.host)
    as [[e|[self' record]] h'] eqn:Hrun; intros Hok.
  - discriminate Hok.
  - exists self', record, h'. split; [reflexivity|].
    destruct (test_blueprint_generation_bookkeeping (H := ReferenceHost.coder)
                (H0 := ReferenceHost.clock) (H1 := ReferenceTools.toolchain)
                _ _ _ _ _ _ _ Hrun)
      as (attempts & success & _ & _ & _ & _ & _ & _ & _ & _ & _ & _ & Hbal).
    apply Hbal. reflexivity.
Defined.

Lemma run_demo_tests_counts_witness :
  ∃ self' r h',
    RealTester.run_demo_tests (H := ReferenceHost.coder)
      (H0 := ReferenceHost.clock) (H1 := ReferenceTools.toolchain)
      Bench.tester Bench.host = (inr (self', r), h') ∧
    balanced r.
Proof.
  assert (Hok : returned
                  (RealTester.run_demo_tests (H := ReferenceHost.coder)
                     (H0 := ReferenceHost.clock) (H1 := ReferenceTools.toolchain)
                     Bench.tester Bench.host).1
                = true)
    by (vm_compute; reflexivity).
  revert Hok.
  destruct (RealTester.run_demo_tests (H := ReferenceHost.coder)
              (H0 := ReferenceHost.clock) (H1 := ReferenceTools.toolchain)
              Bench.tester Bench.host)
    as [[e|[self' r]] h'] eqn:Hrun; intros Hok.
  - discriminate Hok.
  - exists self', r, h'. split; [reflexivity|].
    destruct (run_demo_tests_counts (H := ReferenceHost.coder)
                (H0 := ReferenceHost.clock) (H1 := ReferenceTools.toolchain)
                _ _ _ _ _ Hrun)
      as (_ & _ & _ & _ & _ & _ & Hbal).
    apply Hbal. reflexivity.
Defined.

Lemma run_demo_tests_summary_defined_witness :
  ∃ self' h',
    RealTester.run_demo_tests (H := ReferenceHost.coder)
      (H0 := ReferenceHost.clock) (H1 := ReferenceTools.toolchain)
      Bench.tester Bench.host = (inr (self', results self'), h').
Proof.
  assert (Hok : returned
                  (RealTester.demo_tests (H := ReferenceHost.coder)
                     (H0 := ReferenceHost.clock) (H1 := ReferenceTools.toolchain)
                     Bench.tester Bench.host).1
                = true)
    by (vm_compute; reflexivity).
  revert Hok.
  destruct (RealTester.demo_tests (H := ReferenceHost.coder)
              (H0 := ReferenceHost.clock) (H1 := ReferenceTools.toolchain)
              Bench.tester Bench.host)
    as [[e|self'] h'] eqn:Hrun; intros Hok.
  - discriminate Hok.
  - exists self', h'.
    apply (run_demo_tests_summary_defined (H := ReferenceHost.coder)
             (H0 := ReferenceHost.clock) (H1 := ReferenceTools.toolchain)
             Bench.tester self' Bench.host h'); [cbn; lia|cbn; lia|exact Hrun].
Defined.

(** ** The entry points of the auto-testers *)

Section TesterMains.
Context `{Libraries} `{Clock} `{Toolchain} `{Interpreter}.


End TesterMains.

